(** * London itinerary optimiser: a shallow embedding of
      [optimize_london_itinerary.py] and the properties checked on it.

    Conventions of the embedding.
    - Python [int] is [Z]; Python [float] is read as a real number ([R]),
      so [math.sin], [math.cos], [math.asin], [math.sqrt] are the functions
      of the Standard Library's [Reals] and [int(x)] is truncation toward 0.
    - Python [str] is [string], the UTF-8 bytes of the text; the two dash
      characters replaced by [parse_time_range] are their byte sequences,
      and the regular expression class [\d] matches the UTF-8 text of
      every Unicode decimal digit, which [int] reads by its value.
    - A raised exception is the [Raise] case of [result].
    - In-place mutation of [DaySection] objects is explicit state passing:
      a function that mutates the list of days returns the new list. *)

From Stdlib Require Import String Ascii List ZArith Bool Lia.
From Stdlib Require Import DecimalString Permutation Sorted.
From Stdlib Require Import Reals Lra.
Import ListNotations.

Local Open Scope string_scope.
Local Open Scope Z_scope.

(* ------------------------------------------------------------------ *)
(** ** Exceptions *)

Inductive exn : Type :=
| ValueError (msg : string)
| OverflowError (msg : string)
| IndexError
| KeyError.

Inductive result (A : Type) : Type :=
| Ok (a : A)
| Raise (e : exn).

Arguments Ok {A} a.
Arguments Raise {A} e.

Definition bind {A B : Type} (m : result A) (k : A -> result B) : result B :=
  match m with
  | Ok a => k a
  | Raise e => Raise e
  end.

Notation "x <- m ;; k" := (bind m (fun x => k))
  (at level 61, m at next level, right associativity).
Notation "' p <- m ;; k" := (bind m (fun x => let p := x in k))
  (at level 61, p pattern, m at next level, right associativity).

Definition is_ok {A : Type} (m : result A) : bool :=
  match m with Ok _ => true | Raise _ => false end.

(* ------------------------------------------------------------------ *)
(** ** Data model *)

Record LocationInfo : Type := Build_LocationInfo {
  name : string;
  lat : R;
  lon : R;
  category : string;
  default_duration : Z;
  aliases : list string;
  notes : string
}.

Record TimelineItem : Type := Build_TimelineItem {
  time : string;
  activity : string;
  item_details : string
}.

Record DaySection : Type := Build_DaySection {
  index : Z;
  title : string;
  theme : string;
  lines : list string;
  timeline : list TimelineItem;
  locations : list string;
  removed_duplicates : list string;
  added_essentials : list string
}.

Record Segment : Type := Build_Segment {
  start : Z;
  end_ : Z;
  seg_title : string;
  location : string;
  details : string;
  segment_type : string
}.

(** [day.locations = l] and [day.removed_duplicates = l] as record updates. *)
Definition set_locations (day : DaySection) (l : list string) : DaySection :=
  Build_DaySection (index day) (title day) (theme day) (lines day)
    (timeline day) l (removed_duplicates day) (added_essentials day).

Definition set_removed_duplicates (day : DaySection) (l : list string)
  : DaySection :=
  Build_DaySection (index day) (title day) (theme day) (lines day)
    (timeline day) (locations day) l (added_essentials day).

(* ------------------------------------------------------------------ *)
(** ** Small Python helpers *)

(** [x in xs] for a list of strings. *)
Fixpoint mem (x : string) (xs : list string) : bool :=
  match xs with
  | [] => false
  | y :: ys => (x =? y)%string || mem x ys
  end.

(** [xs.remove(x)]: drops the first occurrence; the caller checks
    membership first, so the [ValueError] of a missing element is not
    reachable and the list is returned as it is. *)
Fixpoint remove_first (x : string) (xs : list string) : list string :=
  match xs with
  | [] => []
  | y :: ys => if (x =? y)%string then ys else y :: remove_first x ys
  end.

(** [xs[i]] with Python's negative indices. *)
Definition getitem {A : Type} (xs : list A) (i : Z) : result A :=
  let n := Z.of_nat (List.length xs) in
  let j := if i <? 0 then i + n else i in
  if (j <? 0) || (n <=? j) then Raise IndexError
  else match nth_error xs (Z.to_nat j) with
       | Some a => Ok a
       | None => Raise IndexError
       end.

(** [xs[i] = a] for an index known to be in range (object mutation through
    a reference obtained by [getitem]). *)
Fixpoint set_nth {A : Type} (xs : list A) (n : nat) (a : A) : list A :=
  match xs, n with
  | [], _ => []
  | _ :: ys, O => a :: ys
  | y :: ys, S k => y :: set_nth ys k a
  end.

Definition setitem {A : Type} (xs : list A) (i : Z) (a : A) : list A :=
  let n := Z.of_nat (List.length xs) in
  let j := if i <? 0 then i + n else i in
  if (j <? 0) || (n <=? j) then xs else set_nth xs (Z.to_nat j) a.

(** [int(x)] on a float read as a real: truncation toward zero. *)
Definition py_int (x : R) : Z :=
  if Rle_dec 0 x then Int_part x else - Int_part (- x).

(* ------------------------------------------------------------------ *)
(** ** Geographic data and configuration *)

Definition _loc (name : string) (lat lon : R) (category : string)
  (duration : Z) (aliases : list string) (notes : string) : LocationInfo :=
  Build_LocationInfo name lat lon category duration aliases notes.

Definition LOCATION_LIBRARY : list LocationInfo := [
  _loc "Heathrow Airport" 51.4700 (-0.4543) "transport" 30 ["heathrow"; "arrivee heathrow"] "";
  _loc "Paddington Station" 51.5154 (-0.1754) "transport" 15 ["paddington"] "";
  _loc "Southwark Station" 51.5046 (-0.1050) "transport" 10 ["southwark"] "";
  _loc "citizenM London Bankside" 51.5055 (-0.0993) "hotel" 30 ["citizenm"; "citizenm bankside"; "citizenm london bankside"] "";
  _loc "South Bank Promenade" 51.5073 (-0.0995) "walk" 60 ["south bank"] "";
  _loc "London Eye" 51.5033 (-0.1196) "landmark" 60 ["london eye"] "";
  _loc "Carnaby Street" 51.5135 (-0.1394) "walk" 45 ["carnaby"] "";
  _loc "Oxford Circus" 51.5150 (-0.1410) "landmark" 10 ["oxford circus"] "";
  _loc "Regent Street" 51.5145 (-0.1420) "walk" 30 ["regent street"] "";
  _loc "Oxford Street" 51.5154 (-0.1410) "walk" 30 ["oxford street"] "";
  _loc "Covent Garden" 51.5129 (-0.1226) "landmark" 45 ["covent garden"] "";
  _loc "Seven Dials Market" 51.5135 (-0.1258) "food" 60 ["seven dials"] "";
  _loc "Soho" 51.5136 (-0.1365) "walk" 60 ["soho"] "";
  _loc "Liberty London" 51.5136 (-0.1406) "shopping" 45 ["liberty london"; "liberty"] "Grand magasin emblematique.";
  _loc "Mayfair Arcades" 51.5090 (-0.1488) "walk" 60 ["mayfair"] "";
  _loc "Harrods" 51.4996 (-0.1635) "shopping" 75 ["harrods"] "";
  _loc "New Bond Street" 51.5123 (-0.1497) "shopping" 45 ["bond street"; "new bond street"] "";
  _loc "Sketch Mayfair" 51.5114 (-0.1417) "food" 75 ["sketch"] "";
  _loc "Buckingham Palace" 51.5014 (-0.1419) "landmark" 40 ["buckingham"; "buckingham palace"] "";
  _loc "St James's Park" 51.5010 (-0.1365) "park" 40 ["st james"; "st james's park"] "";
  _loc "Hyde Park Winter Wonderland" 51.5073 (-0.1668) "experience" 150 ["winter wonderland"; "hyde park winter wonderland"] "";
  _loc "Hyde Park" 51.5073 (-0.1657) "park" 60 ["hyde park"] "";
  _loc "Bavarian Village" 51.5071 (-0.1689) "food" 60 ["bavarian village"] "";
  _loc "Alpen Village" 51.5080 (-0.1698) "food" 45 ["alpen village"] "";
  _loc "Bankside Pier" 51.5079 (-0.0980) "transport" 10 ["bankside pier"] "";
  _loc "Westminster Pier" 51.5010 (-0.1230) "transport" 10 ["westminster pier"] "";
  _loc "Palace of Westminster" 51.4995 (-0.1245) "landmark" 30 ["palais de westminster"; "westminster"; "big ben"] "";
  _loc "Buckingham Gate" 51.4990 (-0.1414) "transfer" 15 ["whitehall"] "";
  _loc "Trafalgar Square" 51.5080 (-0.1281) "landmark" 45 ["trafalgar square"] "";
  _loc "National Gallery" 51.5089 (-0.1283) "museum" 60 ["national gallery"] "";
  _loc "Fortnum & Mason" 51.5097 (-0.1396) "shopping" 60 ["fortnum"; "fortnum & mason"] "";
  _loc "Piccadilly Arcade" 51.5080 (-0.1380) "shopping" 40 ["piccadilly"] "";
  _loc "British Museum" 51.5194 (-0.1269) "museum" 90 ["british museum"] "";
  _loc "St Martin-in-the-Fields" 51.5091 (-0.1269) "landmark" 30 ["st martin"] "";
  _loc "St Paul's Cathedral" 51.5138 (-0.0984) "landmark" 60 ["st paul"; "st paul's cathedral"] "";
  _loc "Sky Garden" 51.5107 (-0.0830) "landmark" 45 ["sky garden"] "";
  _loc "Leadenhall Market" 51.5123 (-0.0830) "walk" 40 ["leadenhall"] "";
  _loc "Borough Market" 51.5054 (-0.0911) "food" 60 ["borough market"] "";
  _loc "The Shard" 51.5045 (-0.0865) "landmark" 40 ["the shard"; "shard"] "";
  _loc "Tower Bridge" 51.5055 (-0.0754) "landmark" 45 ["tower bridge"] "";
  _loc "Tower of London" 51.5081 (-0.0759) "landmark" 60 ["tower of london"] "";
  _loc "Camden Market" 51.5416 (-0.1460) "experience" 90 ["camden"; "camden market"] "";
  _loc "Seabird Rooftop" 51.5084 (-0.1002) "food" 90 ["seabird"] "";
  _loc "Hawksmoor Borough" 51.5059 (-0.0919) "food" 90 ["hawksmoor"; "hawksmoor borough"] "";
  _loc "OXO Tower" 51.5076 (-0.1117) "food" 90 ["oxo tower"; "oxo tower bar"; "oxo tower brasserie"] "";
  _loc "Oblix at The Shard" 51.5045 (-0.0865) "food" 120 ["oblix"; "oblix the shard"] "";
  _loc "The Gentlemen Baristas Bankside" 51.5066 (-0.0999) "food" 30 ["gentlemen baristas"] "";
  _loc "Somerset House" 51.5113 (-0.1163) "landmark" 45 ["somerset house"] ""
]%R.

Definition HOTEL_NAME : string := "citizenM London Bankside".

(** A Python [dict] with string keys, kept as an association list in
    insertion order; [dict_set] is [d[k] = v] (a later value for the same key
    replaces the earlier one in place). *)
Fixpoint dict_get {V : Type} (d : list (string * V)) (k : string) : option V :=
  match d with
  | [] => None
  | (k', v) :: rest => if (k =? k')%string then Some v else dict_get rest k
  end.

Fixpoint dict_set {V : Type} (d : list (string * V)) (k : string) (v : V)
  : list (string * V) :=
  match d with
  | [] => [(k, v)]
  | (k', v') :: rest =>
      if (k =? k')%string then (k', v) :: rest else (k', v') :: dict_set rest k v
  end.

(** [LOCATION_MAP[loc.name] = loc] for every entry of the library. *)
Definition LOCATION_MAP : list (string * LocationInfo) :=
  fold_left (fun m loc => dict_set m (name loc) loc) LOCATION_LIBRARY [].

(** [LOCATION_MAP.get(name)]. *)
Definition LOCATION_MAP_get (n : string) : option LocationInfo :=
  dict_get LOCATION_MAP n.

(** [LOCATION_MAP[name]]. *)
Definition LOCATION_MAP_getitem (n : string) : result LocationInfo :=
  match LOCATION_MAP_get n with
  | Some info => Ok info
  | None => Raise KeyError
  end.

(** A dictionary keyed by an ordered pair of names. *)
Fixpoint pair_get {V : Type} (d : list ((string * string) * V))
  (k : string * string) : option V :=
  match d with
  | [] => None
  | ((a, b), v) :: rest =>
      if ((fst k =? a)%string && (snd k =? b)%string)%bool then Some v
      else pair_get rest k
  end.

Definition TRANSIT_OVERRIDES : list ((string * string) * Z) := [
  (("Heathrow Airport", "Paddington Station"), 15);
  (("Paddington Station", HOTEL_NAME), 30);
  ((HOTEL_NAME, "Paddington Station"), 30);
  (("Paddington Station", "Heathrow Airport"), 15);
  ((HOTEL_NAME, "Heathrow Airport"), 75);
  (("Heathrow Airport", HOTEL_NAME), 75)
].

Definition LOCATION_DESCRIPTIONS : list (string * string) := [
  ("citizenM London Bankside", "Check-in et petite pause pour poser les valises.");
  ("South Bank Promenade", "Flane le long de la Tamise, ambiance street art et food stalls.");
  ("London Eye", "Vue panoramique douce pour se mettre dans l'ambiance.");
  ("Carnaby Street", "Rue pop aux illuminations iconiques, parfaite en debut de soiree.");
  ("Regent Street", "Arches lumineuses et vitrines de Noel pour une balade tranquille.");
  ("Covent Garden", "Sapin geant, stands gourmands et atmosphere musicale.");
  ("Soho", "Quartier vivant, cafes cosy et ruelles creatives.");
  ("Liberty London", "Grand magasin a colombages, selection mode et deco arty.");
  ("New Bond Street", "Vitrines de luxe et decors scintillants.");
  ("Fortnum & Mason", "Maison de the historique, parfait pour une pause sucrerie.");
  ("Buckingham Palace", "Cliche photo devant la residence royale, ambiance carte postale.");
  ("St James's Park", "Parc apaisant pour respirer entre deux balades urbaines.");
  ("Hyde Park", "Grand bol d'air, Winter Wonderland juste a cote.");
  ("Hyde Park Winter Wonderland", "Attractions festives, vin chaud et grande roue.");
  ("Trafalgar Square", "Esplanade animee, musiciens et illuminations historiques.");
  ("Piccadilly Arcade", "Passage couvert elegant juste a cote de Piccadilly Circus.");
  ("Harrods", "Galeries gourmandes et vitrines legendaires de Noel.");
  ("Borough Market", "Marche gourmet aux stands de Noel pour grignoter local.");
  ("The Shard", "Gratte-ciel iconique offrant un panorama grandiose.");
  ("Oblix at The Shard", "Diner panoramique avec vue sur toute la ville.");
  ("Tower Bridge", "Balade au bord de la Tamise avec iconique pont victorien.");
  ("Mayfair Arcades", "Arcanes elegantes, idees cadeaux haut de gamme.");
  ("Sketch Mayfair", "Pause healthy ou gourmandise dans un cadre arty.");
  ("Bavarian Village", "Chalets en bois, biere chaude et musique live.");
  ("Alpen Village", "Chemin gourmand plus calme pour se poser.")
].

Definition TRANSFER_NOTES : list ((string * string) * string) := [
  (("Heathrow Airport", "citizenM London Bankside"), "Heathrow Express jusqu'a Paddington puis taxi/metro (75 min).");
  (("citizenM London Bankside", "Harrods"), "Metro Jubilee puis Piccadilly Line (30 min environ).");
  (("citizenM London Bankside", "Hyde Park"), "Metro Jubilee -> Green Park puis promenade (25 min).");
  (("citizenM London Bankside", "Oblix at The Shard"), "Marche 10 min jusqu'au Shard, profiter des elevateurs panorama.")
].

Definition PREFERRED_ORDER : list (string * list string) := [
  ("arrival", ["Carnaby Street"; "Regent Street"; "Oxford Street"; "Oxford Circus"; "Covent Garden"; "South Bank Promenade"]);
  ("mayfair", ["Soho"; "Liberty London"; "New Bond Street"; "Fortnum & Mason"; "Buckingham Palace"; "St James's Park"; "Hyde Park"; "Hyde Park Winter Wonderland"; "Bavarian Village"; "Alpen Village"]);
  ("city", ["South Bank Promenade"; "London Eye"; "Borough Market"; "Westminster Pier"; "Trafalgar Square"; "Piccadilly Arcade"; "Fortnum & Mason"; "Harrods"; "Tower Bridge"; "The Shard"; "Oblix at The Shard"]);
  ("departure", ["The Gentlemen Baristas Bankside"])
].

Definition DEDUP_WHITELIST : list string := [
  HOTEL_NAME;
  "Heathrow Airport";
  "Paddington Station";
  "Southwark Station";
  "South Bank Promenade";
  "Bankside Pier";
  "Westminster Pier"
].

(* ------------------------------------------------------------------ *)
(** ** Time ranges: [parse_time_range] and [get_day_time_bounds] *)

(** [s[k:]] and [s[:k]]. *)
Fixpoint drop (k : nat) (s : string) : string :=
  match k, s with
  | O, _ => s
  | S k', String _ rest => drop k' rest
  | S _, EmptyString => EmptyString
  end.

Fixpoint take (k : nat) (s : string) : string :=
  match k, s with
  | S k', String c rest => String c (take k' rest)
  | _, _ => EmptyString
  end.

(** [s.replace(old, new)] for a non-empty [old]: left to right, without
    overlap.  [skip] counts the characters of a matched [old] still to be
    dropped. *)
Fixpoint replace_aux (old new : string) (skip : nat) (s : string) : string :=
  match s with
  | EmptyString => EmptyString
  | String c rest =>
      match skip with
      | S k => replace_aux old new k rest
      | O =>
          if prefix old s
          then new ++ replace_aux old new (String.length old - 1) rest
          else String c (replace_aux old new 0 rest)
      end
  end.

Definition replace (old new s : string) : string := replace_aux old new 0 s.

(** U+2013 and U+2014 in UTF-8. *)
Definition EN_DASH : string :=
  String (ascii_of_nat 226) (String (ascii_of_nat 128)
    (String (ascii_of_nat 147) EmptyString)).
Definition EM_DASH : string :=
  String (ascii_of_nat 226) (String (ascii_of_nat 128)
    (String (ascii_of_nat 148) EmptyString)).

(** *** Decimal digits

    In a pattern on [str] the class [\d] matches every Unicode decimal
    digit (category Nd), and [int] reads each of them by its decimal value.
    The decimal digits come in runs of ten consecutive code points, zero
    first; [DIGIT_ZEROS] lists the zero of every run (Unicode 14.0, the
    table of CPython 3.11). *)
Definition DIGIT_ZEROS : list Z := [
  48; 1632; 1776; 1984; 2406; 2534; 2662; 2790; 2918; 3046; 3174; 3302;
  3430; 3558; 3664; 3792; 3872; 4160; 4240; 6112; 6160; 6470; 6608; 6784;
  6800; 6992; 7088; 7232; 7248; 42528; 43216; 43264; 43472; 43504; 43600;
  44016; 65296; 66720; 68912; 69734; 69872; 69942; 70096; 70384; 70736;
  70864; 71248; 71360; 71472; 71904; 72016; 72784; 73040; 73120; 92768;
  92864; 93008; 120782; 120792; 120802; 120812; 120822; 123200; 123632;
  125264; 130032
].

(** [unicodedata.decimal]: the value of the code point [cp] when it is a
    decimal digit. *)
Definition digit_value (cp : Z) : option Z :=
  match find (fun z => (z <=? cp) && (cp <=? z + 9)) DIGIT_ZEROS with
  | Some z => Some (cp - z)
  | None => None
  end.

Definition byte (c : ascii) : Z := Z.of_nat (nat_of_ascii c).

(** A continuation byte of UTF-8. *)
Definition is_cont (c : ascii) : bool := (128 <=? byte c) && (byte c <=? 191).

(** The character at the head of a UTF-8 text: the number of its bytes and
    its code point.  Overlong forms, surrogates and values above U+10FFFF
    encode no character. *)
Definition code_point_at (s : string) : option (nat * Z) :=
  match s with
  | EmptyString => None
  | String a r =>
      if byte a <? 128 then Some (1%nat, byte a)
      else if (194 <=? byte a) && (byte a <? 224) then
        match r with
        | String b _ =>
            if is_cont b
            then Some (2%nat, (byte a - 192) * 64 + (byte b - 128))
            else None
        | _ => None
        end
      else if (224 <=? byte a) && (byte a <? 240) then
        match r with
        | String b (String c _) =>
            let cp := (byte a - 224) * 4096 + (byte b - 128) * 64
                      + (byte c - 128) in
            if is_cont b && is_cont c && (2048 <=? cp)
               && negb ((55296 <=? cp) && (cp <=? 57343))
            then Some (3%nat, cp)
            else None
        | _ => None
        end
      else if (240 <=? byte a) && (byte a <? 245) then
        match r with
        | String b (String c (String d _)) =>
            let cp := (byte a - 240) * 262144 + (byte b - 128) * 4096
                      + (byte c - 128) * 64 + (byte d - 128) in
            if is_cont b && is_cont c && is_cont d && (65536 <=? cp)
               && (cp <=? 1114111)
            then Some (4%nat, cp)
            else None
        | _ => None
        end
      else None
  end.

(** [\d] at the head of [s]: the number of bytes of the digit and its
    value. *)
Definition digit_at (s : string) : option (nat * Z) :=
  match code_point_at s with
  | Some (len, cp) =>
      match digit_value cp with
      | Some v => Some (len, v)
      | None => None
      end
  | None => None
  end.

(** [\d{k}] at the head of [s]: the number of bytes of the [k] digits. *)
Fixpoint digits_at (k : nat) (s : string) : option nat :=
  match k with
  | O => Some 0%nat
  | S k' =>
      match digit_at s with
      | Some (len, _) =>
          match digits_at k' (drop len s) with
          | Some more => Some (len + more)%nat
          | None => None
          end
      | None => None
      end
  end.

(** One attempt of [(\d{1,2})h(\d{2})] at the head of [s], with a hour group
    of exactly [k] digits; the result is the two groups and the number of
    bytes of the match. *)
Definition match_with (k : nat) (s : string) : option (string * string * nat) :=
  match digits_at k s with
  | Some len1 =>
      match drop len1 s with
      | String c rest =>
          if (c =? "h")%char then
            match digits_at 2 rest with
            | Some len2 => Some (take len1 s, take len2 rest, (len1 + 1 + len2)%nat)
            | None => None
            end
          else None
      | EmptyString => None
      end
  | None => None
  end.

(** The regular expression at the head of [s]: [\d{1,2}] is greedy, so two
    digits are tried before one.  The third component is the length of the
    match. *)
Definition match_time_at (s : string) : option (string * string * nat) :=
  match match_with 2 s with
  | Some m => Some m
  | None => match_with 1 s
  end.

(** [re.findall(r"(\d{1,2})h(\d{2})", s)]: leftmost matches, no overlap. *)
Fixpoint findall_aux (skip : nat) (s : string) : list (string * string) :=
  match s with
  | EmptyString => []
  | String _ rest =>
      match skip with
      | S k => findall_aux k rest
      | O =>
          match match_time_at s with
          | Some (g, len) => g :: findall_aux (len - 1) rest
          | None => findall_aux 0 rest
          end
      end
  end.

Definition findall_time (s : string) : list (string * string) :=
  findall_aux 0 s.

(** [int(s)] for a string of decimal digits, as the groups of the pattern
    are: the digits are read from the left, [skip] counting the bytes of
    the current digit still to be passed. *)
Fixpoint int_aux (skip : nat) (acc : Z) (s : string) : Z :=
  match s with
  | EmptyString => acc
  | String _ rest =>
      match skip with
      | S k => int_aux k acc rest
      | O =>
          match digit_at s with
          | Some (len, v) => int_aux (len - 1) (acc * 10 + v) rest
          | None => acc
          end
      end
  end.

Definition int_of_digits (s : string) : Z := int_aux 0 0 s.

Definition parse_time_range (time_str : string) : result (Z * Z) :=
  let normalized := replace EM_DASH "-" (replace EN_DASH "-" time_str) in
  match findall_time normalized with
  | [] => Raise (ValueError ("Format dheure inattendu: " ++ time_str))
  | (start_hour, start_min) :: more =>
      let start_total := int_of_digits start_hour * 60 + int_of_digits start_min in
      let end_total :=
        match more with
        | (end_hour, end_min) :: _ =>
            int_of_digits end_hour * 60 + int_of_digits end_min
        | [] => start_total + 60
        end in
      Ok (start_total, end_total)
  end.

(** [min(start, x)] with [start] possibly [math.inf] ([None]) and
    [max(end, x)] with [end] possibly [-math.inf] ([None]). *)
Definition min_inf (acc : option Z) (x : Z) : Z :=
  match acc with
  | None => x
  | Some a => if x <? a then x else a
  end.

Definition max_inf (acc : option Z) (x : Z) : Z :=
  match acc with
  | None => x
  | Some a => if a <? x then x else a
  end.

Fixpoint bounds_loop (items : list TimelineItem) (start end_ : option Z)
  : result (option Z * option Z) :=
  match items with
  | [] => Ok (start, end_)
  | item :: rest =>
      '(start_min, end_min) <- parse_time_range (time item) ;;
      bounds_loop rest (Some (min_inf start start_min))
        (Some (max_inf end_ end_min))
  end.

Definition presets : list (string * (Z * Z)) := [
  ("arrival", (15 * 60, 23 * 60));
  ("mayfair", (9 * 60 + 30, 22 * 60));
  ("city", (9 * 60, 21 * 60 + 30));
  ("departure", (7 * 60, 12 * 60))
].

(** [int(end)] on [-math.inf] raises [OverflowError]; the loop sets both
    accumulators together, so this case is not reachable. *)
Definition get_day_time_bounds (day : DaySection) : result (Z * Z) :=
  '(start, end_) <- bounds_loop (timeline day) None None ;;
  match start with
  | None =>
      Ok (match dict_get presets (theme day) with
          | Some b => b
          | None => (9 * 60, 21 * 60)
          end)
  | Some start =>
      match end_ with
      | None => Raise (OverflowError "cannot convert float infinity to integer")
      | Some e =>
          let e := if (theme day =? "city")%string && (e <? 22 * 60 + 30)
                   then 22 * 60 + 30 else e in
          Ok (start, Z.min e (23 * 60 + 30))
      end
  end.

(* ------------------------------------------------------------------ *)
(** ** Distances and travel times *)

(** [math.radians]. *)
Definition radians (x : R) : R := (x * (PI / 180))%R.

(** Great-circle distance.  For latitudes between -90 and 90 degrees the
    quantity [h] lies in [0, 1], so the domain errors of [math.sqrt] and
    [math.asin] do not arise; [sqrt] and [asin] of [Reals] are total. *)
Definition haversine_km (a b : R * R) : R :=
  let lat1 := radians (fst a) in
  let lon1 := radians (snd a) in
  let lat2 := radians (fst b) in
  let lon2 := radians (snd b) in
  let dlat := (lat2 - lat1)%R in
  let dlon := (lon2 - lon1)%R in
  let h := ((sin (dlat / 2)) ^ 2
            + cos lat1 * cos lat2 * (sin (dlon / 2)) ^ 2)%R in
  (6371.0 * (2 * asin (sqrt h)))%R.

(** The accumulator of [compute_centroid]: [(lat_sum, lon_sum, count)]. *)
Fixpoint centroid_loop (location_names : list string) (acc : R * R * Z)
  : R * R * Z :=
  match location_names with
  | [] => acc
  | n :: rest =>
      match LOCATION_MAP_get n with
      | None => centroid_loop rest acc
      | Some info =>
          let '(lat_sum, lon_sum, count) := acc in
          centroid_loop rest
            ((lat_sum + lat info)%R, (lon_sum + lon info)%R, count + 1)
      end
  end.

Definition compute_centroid (location_names : list string)
  : result (R * R) :=
  let '(lat_sum, lon_sum, count) := centroid_loop location_names (0%R, 0%R, 0) in
  if count =? 0 then
    hotel <- LOCATION_MAP_getitem HOTEL_NAME ;;
    Ok (lat hotel, lon hotel)
  else Ok ((lat_sum / IZR count)%R, (lon_sum / IZR count)%R).

(** A distance that may be [float("inf")]. *)
Inductive fdist : Type :=
| Finite (r : R)
| Infinity.

(** [a < b] on such distances. *)
Definition fdist_ltb (a b : fdist) : bool :=
  match a, b with
  | Finite x, Finite y => if Rlt_dec x y then true else false
  | Finite _, Infinity => true
  | Infinity, _ => false
  end.

Definition distance_between (location_name : string) (point : R * R)
  : fdist :=
  match LOCATION_MAP_get location_name with
  | None => Infinity
  | Some loc => Finite (haversine_km (lat loc, lon loc) point)
  end.

Definition distance_between_pair (a_name b_name : string) : R :=
  if (a_name =? b_name)%string then 0.0%R
  else
    match LOCATION_MAP_get a_name, LOCATION_MAP_get b_name with
    | Some a, Some b => haversine_km (lat a, lon a) (lat b, lon b)
    | _, _ => 999.0%R
    end.

Definition walkable (cat : string) : bool :=
  mem cat ["walk"; "landmark"; "shopping"; "park"].

Definition estimate_travel_minutes (a_name b_name : string) : Z :=
  if (a_name =? b_name)%string then 0
  else
    match pair_get TRANSIT_OVERRIDES (a_name, b_name) with
    | Some v => v
    | None =>
        match pair_get TRANSIT_OVERRIDES (b_name, a_name) with
        | Some v => v
        | None =>
            let distance := distance_between_pair a_name b_name in
            match LOCATION_MAP_get a_name, LOCATION_MAP_get b_name with
            | Some loc_a, Some loc_b =>
                let base_speed_kmh :=
                  if walkable (category loc_a) && walkable (category loc_b)
                  then 3.8%R else 5.0%R in
                let minutes :=
                  py_int ((distance / Rmax base_speed_kmh 0.1) * 60)%R in
                Z.max minutes 8
            | _, _ => py_int (distance / 4.5 * 60)%R + 5
            end
        end
    end.

(* ------------------------------------------------------------------ *)
(** ** Segment texts *)

Definition upper (c : ascii) : ascii :=
  let n := nat_of_ascii c in
  if (97 <=? n)%nat && (n <=? 122)%nat then ascii_of_nat (n - 32) else c.

Definition lower (c : ascii) : ascii :=
  let n := nat_of_ascii c in
  if (65 <=? n)%nat && (n <=? 90)%nat then ascii_of_nat (n + 32) else c.

Fixpoint lower_all (s : string) : string :=
  match s with
  | EmptyString => EmptyString
  | String c rest => String (lower c) (lower_all rest)
  end.

(** [s.capitalize()] on ASCII text. *)
Definition capitalize (s : string) : string :=
  match s with
  | EmptyString => EmptyString
  | String c rest => String (upper c) (lower_all rest)
  end.

Definition describe_location (n : string) : string :=
  match dict_get LOCATION_DESCRIPTIONS n with
  | Some d => d
  | None =>
      match LOCATION_MAP_get n with
      | None => ""
      | Some info =>
          if (category info =? "food")%string then "Pause gourmande en douceur."
          else if (category info =? "walk")%string
          then "Balade libre pour profiter du quartier."
          else if (category info =? "landmark")%string
          then "Point de vue iconique a decouvrir tranquillement."
          else capitalize (category info)
      end
  end.

(** Truth value of an optional string: [None] and [""] are false. *)
Definition truthy (o : option string) : bool :=
  match o with
  | Some (String _ _) => true
  | _ => false
  end.

Definition friendly_transfer_detail (start_ end_name : string) (duration : Z)
  : string :=
  let first := pair_get TRANSFER_NOTES (start_, end_name) in
  let note := if truthy first then first
              else pair_get TRANSFER_NOTES (end_name, start_) in
  match note with
  | Some (String c rest) => String c rest
  | _ =>
      if duration <=? 15 then "Petite marche ou trajet rapide (<= 15 min)."
      else if duration <=? 30
      then "Deplacement fluide (~30 min), prends ton temps."
      else "Prevoir ce trajet sans stress, musique ou podcast en route."
  end.

(* ------------------------------------------------------------------ *)
(** ** The day scheduler: [build_day_schedule] *)

(** The first loop: catalog entries that are neither transport nor hotel. *)
Fixpoint poi_loop (locs : list string) (poi_locations : list string)
  : list string :=
  match locs with
  | [] => poi_locations
  | loc :: rest =>
      match LOCATION_MAP_get loc with
      | None => poi_loop rest poi_locations
      | Some info =>
          if mem (category info) ["transport"; "hotel"]
          then poi_loop rest poi_locations
          else poi_loop rest (poi_locations ++ [loc])
      end
  end.

(** [[loc for loc in xs if loc != x]]. *)
Definition without (x : string) (xs : list string) : list string :=
  filter (fun loc => negb (loc =? x)%string) xs.

Definition drop_shard (poi_locations : list string) : list string :=
  if mem "Oblix at The Shard" poi_locations && mem "The Shard" poi_locations
  then without "The Shard" poi_locations
  else poi_locations.

(** The two loops that fill [visits_order], and the city finale. *)
Fixpoint preferred_loop (preferred poi_locations visits_order : list string)
  : list string :=
  match preferred with
  | [] => visits_order
  | n :: rest =>
      if mem n poi_locations && negb (mem n visits_order)
      then preferred_loop rest poi_locations (visits_order ++ [n])
      else preferred_loop rest poi_locations visits_order
  end.

Fixpoint remainder_loop (poi_locations visits_order : list string)
  : list string :=
  match poi_locations with
  | [] => visits_order
  | n :: rest =>
      if negb (mem n visits_order)
      then remainder_loop rest (visits_order ++ [n])
      else remainder_loop rest visits_order
  end.

Definition make_visits_order (day_theme : string) (poi_locations : list string)
  : list string :=
  let preferred := match dict_get PREFERRED_ORDER day_theme with
                   | Some l => l
                   | None => []
                   end in
  let visits_order := preferred_loop preferred poi_locations [] in
  let visits_order := remainder_loop poi_locations visits_order in
  if (day_theme =? "city")%string
     && negb (mem "Oblix at The Shard" visits_order)
  then visits_order ++ ["Oblix at The Shard"]
  else visits_order.

(** The state threaded through the scheduler: the clock, the last place
    and the segments appended so far. *)
Record sched : Type := Build_sched {
  current_time : Z;
  previous : string;
  segments : list Segment
}.

(** What one turn of the segment synthesis loop does to the loop: [break]
    or go on with the next element ([continue] included). *)
Inductive turn : Type :=
| Break
| Next (st : sched).

(** The body of the loop [for next_loc in visits_order]. *)
Definition visit_body (end_time : Z) (next_loc : string) (st : sched) : turn :=
  match LOCATION_MAP_get next_loc with
  | None => Next st
  | Some loc_info =>
      let travel_duration := estimate_travel_minutes (previous st) next_loc in
      if current_time st + travel_duration >? end_time then Break
      else
        let st1 :=
          if travel_duration =? 0 then st
          else Build_sched (current_time st + travel_duration) (previous st)
                 (segments st ++ [
                    Build_Segment (current_time st)
                      (current_time st + travel_duration)
                      ("Trajet vers " ++ next_loc)
                      (previous st ++ " -> " ++ next_loc)
                      (friendly_transfer_detail (previous st) next_loc
                         travel_duration)
                      "transfer"]) in
        let visit_duration := default_duration loc_info in
        let visit_duration :=
          if (category loc_info =? "food")%string
          then Z.max 75 visit_duration
          else Z.max 45 visit_duration in
        let visit_duration :=
          if current_time st1 + visit_duration >? end_time
          then Z.max 30 (end_time - current_time st1)
          else visit_duration in
        if visit_duration <=? 0 then Next st1
        else
          Next (Build_sched (current_time st1 + visit_duration) next_loc
                  (segments st1 ++ [
                     Build_Segment (current_time st1)
                       (current_time st1 + visit_duration)
                       next_loc next_loc (describe_location next_loc)
                       (if (category loc_info =? "food")%string
                        then "meal" else "visit")]))
  end.

(** The segment synthesis loop; [break] returns the state as it is. *)
Fixpoint visit_loop (end_time : Z) (visits_order : list string) (st : sched)
  : sched :=
  match visits_order with
  | [] => st
  | next_loc :: rest =>
      match visit_body end_time next_loc st with
      | Break => st
      | Next st' => visit_loop end_time rest st'
      end
  end.

(** The arrival prologue. *)
Definition arrival_prologue (st : sched) : result sched :=
  arrival <- LOCATION_MAP_getitem "Heathrow Airport" ;;
  let t0 := current_time st in
  let segs := (segments st ++ [
    Build_Segment t0 (t0 + default_duration arrival) "Arrivee a Heathrow"
      "Heathrow Airport" "Formalites et recuperation des valises."
      "transport"])%list in
  let t1 := t0 + default_duration arrival in
  let travel_duration := estimate_travel_minutes "Heathrow Airport" HOTEL_NAME in
  let segs := (segs ++ [
    Build_Segment t1 (t1 + travel_duration) "Vers l'hotel"
      "Heathrow Airport -> citizenM London Bankside"
      (friendly_transfer_detail "Heathrow Airport" HOTEL_NAME travel_duration)
      "transfer"])%list in
  let t2 := t1 + travel_duration in
  hotel_info <- LOCATION_MAP_getitem HOTEL_NAME ;;
  let checkin_duration := Z.max 45 (default_duration hotel_info) in
  let segs := (segs ++ [
    Build_Segment t2 (t2 + checkin_duration) "Installation a l'hotel"
      HOTEL_NAME (describe_location HOTEL_NAME) "visit"])%list in
  Ok (Build_sched (t2 + checkin_duration) HOTEL_NAME segs).

(** The return-to-hotel transfer shared by both closing blocks. *)
Definition return_transfer (st : sched) : sched :=
  let travel_duration := estimate_travel_minutes (previous st) HOTEL_NAME in
  Build_sched (current_time st + travel_duration) (previous st)
    (segments st ++ [
       Build_Segment (current_time st) (current_time st + travel_duration)
         "Retour a l'hotel" (previous st ++ " -> " ++ HOTEL_NAME)
         (friendly_transfer_detail (previous st) HOTEL_NAME travel_duration)
         "transfer"]).

(** Closing block of every theme but departure. *)
Definition closing_evening (end_time : Z) (st : sched) : sched :=
  if negb (previous st =? HOTEL_NAME)%string then
    let st1 := return_transfer st in
    if current_time st1 <? end_time then
      Build_sched (current_time st1) (previous st1)
        (segments st1 ++ [
           Build_Segment (current_time st1) end_time "Fin de soiree detendue"
             HOTEL_NAME "Temps libre pour un verre ou repos." "buffer"])
    else st1
  else st.

(** Closing block of the departure theme. *)
Definition closing_departure (st : sched) : sched :=
  let st1 := if negb (previous st =? HOTEL_NAME)%string
             then return_transfer st else st in
  let transfer := estimate_travel_minutes HOTEL_NAME "Heathrow Airport" in
  let segs := (segments st1 ++ [
    Build_Segment (current_time st1) (current_time st1 + transfer)
      "Transfert vers Heathrow" (HOTEL_NAME ++ " -> Heathrow Airport")
      (friendly_transfer_detail HOTEL_NAME "Heathrow Airport" transfer)
      "transfer"])%list in
  let t := current_time st1 + transfer in
  let segs := (segs ++ [
    Build_Segment t (t + 45) "Formalites de depart" "Heathrow Airport"
      "Enregistrement et controle securite." "transport"])%list in
  Build_sched t (previous st1) segs.

Definition build_day_schedule (day : DaySection) : result (list Segment) :=
  '(start_time, end_time) <- get_day_time_bounds day ;;
  let st := Build_sched start_time HOTEL_NAME [] in
  let poi_locations := drop_shard (poi_loop (locations day) []) in
  st <- (if (theme day =? "arrival")%string then arrival_prologue st
         else Ok st) ;;
  let visits_order := make_visits_order (theme day) poi_locations in
  let st := visit_loop end_time visits_order st in
  let st := if negb (theme day =? "departure")%string
            then closing_evening end_time st else st in
  let st := if (theme day =? "departure")%string
            then closing_departure st else st in
  Ok (segments st).

(* ------------------------------------------------------------------ *)
(** ** The deduplicator: [merge_duplicate_locations] *)

(** [d.setdefault(k, []).append(v)]. *)
Fixpoint dict_append (d : list (string * list Z)) (k : string) (v : Z)
  : list (string * list Z) :=
  match d with
  | [] => [(k, [v])]
  | (k', vs) :: rest =>
      if (k =? k')%string then (k', (vs ++ [v])%list) :: rest
      else (k', vs) :: dict_append rest k v
  end.

Definition index_day (d : list (string * list Z)) (day : DaySection)
  : list (string * list Z) :=
  fold_left (fun m n => dict_append m n (index day)) (locations day) d.

Definition index_by_loc (days : list DaySection) : list (string * list Z) :=
  fold_left index_day days [].

(** A dictionary keyed by a day index. *)
Fixpoint zdict_get {V : Type} (d : list (Z * V)) (k : Z) : option V :=
  match d with
  | [] => None
  | (k', v) :: rest => if k =? k' then Some v else zdict_get rest k
  end.

Fixpoint zdict_set {V : Type} (d : list (Z * V)) (k : Z) (v : V)
  : list (Z * V) :=
  match d with
  | [] => [(k, v)]
  | (k', v') :: rest =>
      if k =? k' then (k', v) :: rest else (k', v') :: zdict_set rest k v
  end.

(** [day.locations or [HOTEL_NAME]]. *)
Definition locations_or_hotel (day : DaySection) : list string :=
  match locations day with
  | [] => [HOTEL_NAME]
  | l => l
  end.

Fixpoint centroids_loop (days : list DaySection) (acc : list (Z * (R * R)))
  : result (list (Z * (R * R))) :=
  match days with
  | [] => Ok acc
  | day :: rest =>
      c <- compute_centroid (locations_or_hotel day) ;;
      centroids_loop rest (zdict_set acc (index day) c)
  end.

(** The keys [distance_between(name, centroids[idx])] of the candidates. *)
Fixpoint keyed (n : string) (centroids : list (Z * (R * R)))
  (indices : list Z) : result (list (Z * fdist)) :=
  match indices with
  | [] => Ok []
  | idx :: rest =>
      match zdict_get centroids idx with
      | None => Raise KeyError
      | Some c =>
          ks <- keyed n centroids rest ;;
          Ok ((idx, distance_between n c) :: ks)
      end
  end.

(** [min] keeps the first candidate whose key is smallest. *)
Fixpoint min_by (best : Z * fdist) (rest : list (Z * fdist)) : Z :=
  match rest with
  | [] => fst best
  | x :: xs =>
      if fdist_ltb (snd x) (snd best) then min_by x xs else min_by best xs
  end.

Definition best_of (n : string) (centroids : list (Z * (R * R)))
  (indices : list Z) : result Z :=
  ks <- keyed n centroids indices ;;
  match ks with
  | [] => Raise (ValueError "min() arg is an empty sequence")
  | k :: rest => Ok (min_by k rest)
  end.

(** The inner loop: strip [n] from every listed day but the best one. *)
Fixpoint strip_loop (n : string) (best_index : Z) (indices : list Z)
  (days : list DaySection) : result (list DaySection) :=
  match indices with
  | [] => Ok days
  | idx :: rest =>
      if idx =? best_index then strip_loop n best_index rest days
      else
        day <- getitem days idx ;;
        if (n =? HOTEL_NAME)%string && (theme day =? "arrival")%string
        then strip_loop n best_index rest days
        else if mem n (locations day)
        then
          let day' :=
            set_removed_duplicates
              (set_locations day (remove_first n (locations day)))
              (removed_duplicates day ++ [n])%list in
          strip_loop n best_index rest (setitem days idx day')
        else strip_loop n best_index rest days
  end.

(** The guard of the outer loop: [true] when the name is skipped. *)
Definition skip_dedup (n : string) : bool :=
  negb (mem n DEDUP_WHITELIST)
  && match LOCATION_MAP_get n with
     | None => true
     | Some loc_info => negb (mem (category loc_info) ["transport"; "hotel"])
     end.

Fixpoint merge_loop (items : list (string * list Z))
  (centroids : list (Z * (R * R))) (days : list DaySection)
  : result (list DaySection) :=
  match items with
  | [] => Ok days
  | (n, indices) :: rest =>
      if (Z.of_nat (List.length indices) <=? 1) then
        merge_loop rest centroids days
      else if skip_dedup n then merge_loop rest centroids days
      else
        best_index <- best_of n centroids indices ;;
        days' <- strip_loop n best_index indices days ;;
        merge_loop rest centroids days'
  end.

(** The function mutates the days in place and returns [None]; here the
    mutated list is the result. *)
Definition merge_duplicate_locations (days : list DaySection)
  : result (list DaySection) :=
  let index_by_loc := index_by_loc days in
  centroids <- centroids_loop days [] ;;
  merge_loop index_by_loc centroids days.

(* ------------------------------------------------------------------ *)
(** ** Time labels: [minutes_to_label] and [make_time_range] *)

(** [str(n)] for a natural number. *)
Definition decimal (n : N) : string :=
  NilZero.string_of_uint (N.to_uint n).

Fixpoint zeros (k : nat) : string :=
  match k with
  | O => EmptyString
  | S k' => String "0" (zeros k')
  end.

(** The format [{n:02d}]: the sign first, then zeros up to two characters
    in all. *)
Definition format_02d (n : Z) : string :=
  let digits := decimal (Z.to_N (Z.abs n)) in
  if n <? 0 then "-" ++ zeros (1 - String.length digits) ++ digits
  else zeros (2 - String.length digits) ++ digits.

Definition minutes_to_label (minutes : Z) : string :=
  let hour := minutes / 60 in
  let minute := minutes mod 60 in
  format_02d hour ++ "h" ++ format_02d minute.

Definition make_time_range (start_ end_min : Z) : string :=
  minutes_to_label start_ ++ "-" ++ minutes_to_label end_min.

(* ------------------------------------------------------------------ *)
(** ** Cleaning a list of names: [clean_location_list] *)

Definition EXCLUDED_CATEGORIES : list string := ["museum"].
Definition UNWANTED_KEYWORDS : list string := ["cathedral"; "church"; "abbey"].

(** [k in s] for strings: [k] occurs in [s]. *)
Fixpoint contains (k s : string) : bool :=
  match s with
  | EmptyString => prefix k EmptyString
  | String _ rest => prefix k s || contains k rest
  end.

(** The three tests of the loop body on a name; [name.lower()] is applied
    to catalog names only, which are ASCII. *)
Definition keep_location (n : string) : bool :=
  match LOCATION_MAP_get n with
  | None => false
  | Some info =>
      negb (mem (category info) EXCLUDED_CATEGORIES)
      && negb (existsb (fun keyword => contains keyword (lower_all n))
                 UNWANTED_KEYWORDS)
  end.

Fixpoint clean_loop (candidates cleaned : list string) : list string :=
  match candidates with
  | [] => cleaned
  | n :: rest =>
      if keep_location n then clean_loop rest (cleaned ++ [n])
      else clean_loop rest cleaned
  end.

Definition clean_location_list (candidates : list string) : list string :=
  clean_loop candidates [].

(* ------------------------------------------------------------------ *)
(** ** Reading the timeline of a day: [extract_timeline] *)

(** The white space of [str.strip]: the code points for which
    [str.isspace] holds, as UTF-8 byte sequences.  [space_at s] is the
    length in bytes of the white-space character at the head of [s]. *)
Definition is_space (c : ascii) : bool :=
  let n := nat_of_ascii c in
  ((9 <=? n)%nat && (n <=? 13)%nat) || ((28 <=? n)%nat && (n <=? 32)%nat).

Definition byte_is (c : ascii) (n : nat) : bool := (nat_of_ascii c =? n)%nat.

Definition space_at (s : string) : option nat :=
  match s with
  | EmptyString => None
  | String c rest =>
      if is_space c then Some 1%nat
      else
        match rest with
        | String d rest' =>
            if byte_is c 194 && (byte_is d 133 || byte_is d 160)
            then Some 2%nat                       (* U+0085, U+00A0 *)
            else
              match rest' with
              | String e _ =>
                  let k := nat_of_ascii e in
                  if byte_is c 225 && byte_is d 154 && byte_is e 128
                  then Some 3%nat                 (* U+1680 *)
                  else if byte_is c 226 && byte_is d 128
                          && (((128 <=? k)%nat && (k <=? 138)%nat)
                              || byte_is e 168 || byte_is e 169
                              || byte_is e 175)
                  then Some 3%nat   (* U+2000..U+200A, U+2028, U+2029, U+202F *)
                  else if byte_is c 226 && byte_is d 129 && byte_is e 159
                  then Some 3%nat                 (* U+205F *)
                  else if byte_is c 227 && byte_is d 128 && byte_is e 128
                  then Some 3%nat                 (* U+3000 *)
                  else None
              | EmptyString => None
              end
        | EmptyString => None
        end
  end.

(** [s.lstrip()]; [skip] counts the bytes of a white-space character still
    to be dropped. *)
Fixpoint lstrip_aux (skip : nat) (s : string) : string :=
  match s with
  | EmptyString => EmptyString
  | String _ rest =>
      match skip with
      | S k => lstrip_aux k rest
      | O =>
          match space_at s with
          | Some len => lstrip_aux (len - 1) rest
          | None => s
          end
      end
  end.

Definition lstrip (s : string) : string := lstrip_aux 0 s.

(** [s.rstrip()]: the text is cut where only white space follows. *)
Fixpoint rstrip (s : string) : string :=
  match s with
  | EmptyString => EmptyString
  | String c rest =>
      match lstrip s with
      | EmptyString => EmptyString
      | _ => String c (rstrip rest)
      end
  end.

(** [s.strip()]. *)
Definition strip (s : string) : string := rstrip (lstrip s).

(** [re.match(r"^(\d{1,2}h\d{2}(?:-\d{1,2}h\d{2})?)", s)]: the text of
    group 1.  The optional second time is taken whenever it is there. *)
Definition match_range_head (s : string) : option string :=
  match match_time_at s with
  | None => None
  | Some (_, len) =>
      match drop len s with
      | String c rest =>
          if (c =? "-")%char then
            match match_time_at rest with
            | Some (_, len2) => Some (take (len + 1 + len2) s)
            | None => Some (take len s)
            end
          else Some (take len s)
      | EmptyString => Some (take len s)
      end
  end.

(** The comprehension that builds [clean_lines]. *)
Fixpoint clean_lines_of (lines_ : list string) : list string :=
  match lines_ with
  | [] => []
  | line :: rest =>
      match strip line with
      | EmptyString => clean_lines_of rest
      | stripped =>
          replace EM_DASH "-" (replace EN_DASH "-" stripped)
          :: clean_lines_of rest
      end
  end.

(** The [while] loop over [clean_lines]; [skip] counts the lines still to
    be passed over after an item ([i += 3]). *)
Fixpoint timeline_loop (skip : nat) (clean_lines : list string)
  : list TimelineItem :=
  match clean_lines with
  | [] => []
  | current :: rest =>
      match skip with
      | S k => timeline_loop k rest
      | O =>
          match match_range_head current with
          | Some t =>
              Build_TimelineItem t (nth 0 rest EmptyString)
                (nth 1 rest EmptyString)
              :: timeline_loop 2 rest
          | None => timeline_loop 0 rest
          end
      end
  end.

Definition extract_timeline (lines_ : list string) : list TimelineItem :=
  timeline_loop 0 (clean_lines_of lines_).

(* ------------------------------------------------------------------ *)
(** ** Adding the essentials: [add_missing_essentials] *)

Definition ESSENTIALS_BY_THEME : list (string * list string) := [
  ("arrival", ["citizenM London Bankside"; "South Bank Promenade";
               "London Eye"; "Carnaby Street"; "Regent Street";
               "Covent Garden"]);
  ("mayfair", ["Soho"; "Liberty London"; "New Bond Street";
               "Fortnum & Mason"; "Buckingham Palace"; "St James's Park";
               "Hyde Park"]);
  ("city", ["South Bank Promenade"; "London Eye"; "Borough Market";
            "Westminster Pier"; "Trafalgar Square"; "Piccadilly Arcade";
            "Fortnum & Mason"; "Harrods"; "Tower Bridge";
            "Oblix at The Shard"]);
  ("departure", ["The Gentlemen Baristas Bankside";
                 "citizenM London Bankside"])
].

Definition set_added_essentials (day : DaySection) (l : list string)
  : DaySection :=
  Build_DaySection (index day) (title day) (theme day) (lines day)
    (timeline day) (locations day) (removed_duplicates day) l.

(** The loop over the essentials of one day.  [used] is the set of names
    seen so far, of which only membership is asked; the three tests on
    [essential] are those of [clean_location_list]. *)
Fixpoint essentials_loop (essentials used : list string) (day : DaySection)
  : list string * DaySection :=
  match essentials with
  | [] => (used, day)
  | essential :: rest =>
      if mem essential used then essentials_loop rest used day
      else if negb (keep_location essential)
      then essentials_loop rest used day
      else
        let day := set_locations day (locations day ++ [essential]) in
        let day :=
          set_added_essentials day (added_essentials day ++ [essential]) in
        essentials_loop rest (essential :: used) day
  end.

(** [list(dict.fromkeys(xs))]: the first occurrence of every name, in
    order. *)
Fixpoint fromkeys (seen xs : list string) : list string :=
  match xs with
  | [] => []
  | x :: rest =>
      if mem x seen then fromkeys seen rest
      else x :: fromkeys (x :: seen) rest
  end.

(** [sorted(xs, key=key)]: the stable sort, as insertion from the left; a
    name goes before the first one whose key is strictly greater. *)
Fixpoint insert_sorted (key : string -> fdist) (x : string)
  (sorted : list string) : list string :=
  match sorted with
  | [] => [x]
  | y :: rest =>
      if fdist_ltb (key x) (key y) then x :: y :: rest
      else y :: insert_sorted key x rest
  end.

Definition sorted_by (key : string -> fdist) (xs : list string)
  : list string :=
  fold_left (fun acc x => insert_sorted key x acc) xs [].

(** [ESSENTIALS_BY_THEME.get(theme, [])]. *)
Definition essentials_of (day_theme : string) : list string :=
  match dict_get ESSENTIALS_BY_THEME day_theme with
  | Some l => l
  | None => []
  end.

(** The body of the loop over the days, for one day. *)
Definition augment_day (used : list string) (day : DaySection)
  : result (list string * DaySection) :=
  let essentials := essentials_of (theme day) in
  centroid <- compute_centroid (locations_or_hotel day) ;;
  let '(used, day) := essentials_loop essentials used day in
  let unique_locations := fromkeys [] (clean_location_list (locations day)) in
  Ok (used,
      set_locations day
        (sorted_by (fun name => distance_between name centroid)
           unique_locations)).

Fixpoint augment_loop (used : list string) (days : list DaySection)
  : result (list DaySection) :=
  match days with
  | [] => Ok []
  | day :: rest =>
      '(used, day) <- augment_day used day ;;
      rest <- augment_loop used rest ;;
      Ok (day :: rest)
  end.

(** The days are updated in place; the result is the list of the days
    after the call. *)
Definition add_missing_essentials (days : list DaySection)
  : result (list DaySection) :=
  augment_loop (concat (map locations days)) days.

(* ------------------------------------------------------------------ *)
(** ** Nearest-neighbour ordering: [order_locations] *)

(** [min(xs, key=key)] on the non-empty list [best :: rest]: the first
    name whose key is least. *)
Fixpoint min_key (key : string -> R) (best : string) (rest : list string)
  : string :=
  match rest with
  | [] => best
  | x :: rest' =>
      if Rlt_dec (key x) (key best) then min_key key x rest'
      else min_key key best rest'
  end.

(** The loop [while remaining].  Every turn takes one name out of
    [remaining]; [fuel] bounds the number of turns, and [None] is the
    answer when it runs out. *)
Fixpoint order_loop (fuel : nat) (current : string)
  (remaining ordered : list string) : option (list string) :=
  match remaining with
  | [] => Some ordered
  | x :: rest =>
      match fuel with
      | O => None
      | S fuel' =>
          let next_loc :=
            min_key (fun name => distance_between_pair current name) x rest in
          order_loop fuel' next_loc (remove_first next_loc remaining)
            (ordered ++ [next_loc])%list
      end
  end.

Definition order_locations (start_ : string) (visits : list string)
  (end_name : string) : option (list string) :=
  let remaining :=
    filter (fun loc => negb (mem loc [start_; end_name])) visits in
  match order_loop (List.length remaining) start_ remaining [] with
  | None => None
  | Some ordered =>
      if negb (end_name =? EmptyString)%string
         && match ordered with
            | [] => true
            | _ => negb (last ordered EmptyString =? end_name)%string
            end
      then Some (ordered ++ [end_name])%list
      else Some ordered
  end.

(* ------------------------------------------------------------------ *)
(** ** Reading the document: [normalize_text], [infer_theme],
       [find_locations_in_text], [parse_docx] *)

Section Text.

(** [unicodedata.normalize("NFKD", text)], a function of the Unicode
    database, is a parameter of this part. *)
Variable nfkd : string -> string.

(** [.encode("ascii", "ignore").decode("ascii")]: in UTF-8 the characters
    outside ASCII are made of the bytes from 128 on. *)
Fixpoint ascii_ignore (s : string) : string :=
  match s with
  | EmptyString => EmptyString
  | String c rest =>
      if (nat_of_ascii c <? 128)%nat then String c (ascii_ignore rest)
      else ascii_ignore rest
  end.

(** The class [a-z0-9 ] and [re.sub(r"[^a-z0-9 ]", " ", s)]. *)
Definition is_plain (c : ascii) : bool :=
  let n := nat_of_ascii c in
  ((97 <=? n)%nat && (n <=? 122)%nat) || ((48 <=? n)%nat && (n <=? 57)%nat)
  || (n =? 32)%nat.

Fixpoint blank_others (s : string) : string :=
  match s with
  | EmptyString => EmptyString
  | String c rest =>
      String (if is_plain c then c else " "%char) (blank_others rest)
  end.

(** [re.sub(r"\s+", " ", s)] on ASCII text: every run of white space
    becomes one space. *)
Fixpoint squeeze (s : string) : string :=
  match s with
  | EmptyString => EmptyString
  | String c rest =>
      if is_space c then
        match rest with
        | String d _ =>
            if is_space d then squeeze rest else String " " (squeeze rest)
        | EmptyString => String " " EmptyString
        end
      else String c (squeeze rest)
  end.

Definition normalize_text (text : string) : string :=
  let ascii_text := ascii_ignore (nfkd text) in
  let ascii_text := blank_others (lower_all ascii_text) in
  strip (squeeze ascii_text).

(** The keys under which one catalog entry is indexed.  The source walks
    through a set, whose order is not fixed; every key of an entry gets the
    same value. *)
Definition alias_keys (loc : LocationInfo) : list string :=
  fromkeys [] (lower_all (name loc) :: map lower_all (aliases loc)).

Definition ALIAS_INDEX : list (string * string) :=
  fold_left
    (fun d loc =>
       fold_left (fun d alias => dict_set d (normalize_text alias) (name loc))
         (alias_keys loc) d)
    LOCATION_LIBRARY [].

Definition infer_theme (title : string) : string :=
  let norm := normalize_text title in
  if contains "depart" norm || contains "dernier" norm
     || contains "mercredi" norm
  then "departure"
  else if contains "panorama" norm || contains "trafalgar" norm
          || contains "mardi" norm
  then "city"
  else if contains "mayfair" norm || contains "hyde" norm
          || contains "lundi" norm
  then "mayfair"
  else "arrival".

(** The inner loop of [find_locations_in_text], over the items of
    [ALIAS_INDEX]. *)
Definition find_in_line (norm_line : string) (found : list string)
  : list string :=
  fold_left
    (fun found item =>
       let '(alias, name) := item in
       if negb (alias =? EmptyString)%string && contains alias norm_line
          && negb (mem name found)
       then (found ++ [name])%list
       else found)
    ALIAS_INDEX found.

Definition find_locations_in_text (lines_ : list string) : list string :=
  fold_left (fun found line => find_in_line (normalize_text line) found)
    lines_ [].

Definition slugify (text : string) : string :=
  let normalized := normalize_text text in
  match replace " " "_" normalized with
  | EmptyString => "jour"
  | slug => slug
  end.

(** U+1F5D3, alone and followed by U+FE0F, in UTF-8. *)
Definition CALENDAR : string :=
  String (ascii_of_nat 240) (String (ascii_of_nat 159)
    (String (ascii_of_nat 151) (String (ascii_of_nat 147) EmptyString))).

Definition DAY_MARKERS : list string :=
  [CALENDAR;
   CALENDAR ++ String (ascii_of_nat 239) (String (ascii_of_nat 184)
                 (String (ascii_of_nat 143) EmptyString))].

(** [[line.strip() for line in buffer if line.strip()]]. *)
Fixpoint stripped_lines (buffer : list string) : list string :=
  match buffer with
  | [] => []
  | line :: rest =>
      match strip line with
      | EmptyString => stripped_lines rest
      | stripped => stripped :: stripped_lines rest
      end
  end.

(** The day that [parse_docx] appends for a title and its buffer. *)
Definition close_day (days : list DaySection) (current_title : option string)
  (buffer : list string) : list DaySection :=
  match current_title with
  | None => days
  | Some current_title =>
      let day_index := Z.of_nat (List.length days) in
      (days ++
       [Build_DaySection day_index (strip current_title)
          (infer_theme current_title) (stripped_lines buffer)
          (extract_timeline buffer) [] [] []])%list
  end.

(** The loop of [parse_docx] over the paragraphs of the document. *)
Fixpoint parse_loop (paragraphs : list string) (days : list DaySection)
  (current_title : option string) (buffer : list string)
  : list DaySection :=
  match paragraphs with
  | [] => close_day days current_title buffer
  | para :: rest =>
      if existsb (fun marker => prefix marker para) DAY_MARKERS then
        parse_loop rest (close_day days current_title buffer)
          (Some (strip para)) []
      else
        match current_title with
        | Some _ => parse_loop rest days current_title (buffer ++ [para])%list
        | None => parse_loop rest days current_title buffer
        end
  end.

(** [parse_docx], from the texts of the paragraphs of the document. *)
Definition parse_docx (paragraphs : list string) : list DaySection :=
  parse_loop paragraphs [] None [].

(** ** The planning steps of [main] *)

(** The two filters that [main] applies to a day after the essentials. *)
Definition post_filter (day : DaySection) : DaySection :=
  let day :=
    if mem "Oblix at The Shard" (locations day)
       && mem "The Shard" (locations day)
    then set_locations day
           (filter (fun loc => negb (loc =? "The Shard")%string)
              (locations day))
    else day in
  if (theme day =? "city")%string
  then set_locations day
         (filter (fun loc => negb (loc =? "Hyde Park")%string)
            (locations day))
  else day.

(** [day_segments[day.index] = build_day_schedule(day)] for every day. *)
Fixpoint schedule_loop (days : list DaySection)
  (day_segments : list (Z * list Segment))
  : result (list (Z * list Segment)) :=
  match days with
  | [] => Ok day_segments
  | day :: rest =>
      segments <- build_day_schedule day ;;
      schedule_loop rest (zdict_set day_segments (index day) segments)
  end.

(** The locations that [main] gives to a day read from the document. *)
Definition locate (day : DaySection) : DaySection :=
  let located := find_locations_in_text (title day :: lines day) in
  set_locations day (clean_location_list located).

(** [main], from the paragraphs of the document to the days and their
    schedules; the maps, the new document and the summary are written from
    these. *)
Definition main (paragraphs : list string)
  : result (list DaySection * list (Z * list Segment)) :=
  let days := map locate (parse_docx paragraphs) in
  days <- merge_duplicate_locations days ;;
  days <- add_missing_essentials days ;;
  let days := map post_filter days in
  day_segments <- schedule_loop days [] ;;
  Ok (days, day_segments).

End Text.

(* ------------------------------------------------------------------ *)
(** ** Vocabulary of the statements *)

(** The UTF-8 text of one decimal digit. *)
Definition digit_text (d : string) : Prop :=
  exists v, digit_at d = Some (String.length d, v).

(** The text of [k] decimal digits in a row. *)
Fixpoint digits_text (k : nat) (m : string) : Prop :=
  match k with
  | O => m = EmptyString
  | S k' => exists d r, m = d ++ r /\ digit_text d /\ digits_text k' r
  end.

(** A string of the shape H[H]hMM: one or two decimal digits, the letter h,
    two decimal digits. *)
Inductive time_token : string -> Prop :=
| token_H a c d :
    digit_text a -> digit_text c -> digit_text d ->
    time_token (a ++ "h" ++ c ++ d)
| token_HH a b c d :
    digit_text a -> digit_text b -> digit_text c -> digit_text d ->
    time_token (a ++ b ++ "h" ++ c ++ d).

(** [s] contains a substring of that shape. *)
Definition contains_time_token (s : string) : Prop :=
  exists pre m post, s = pre ++ m ++ post /\ time_token m.

(** The same, decided by trying the pattern at every position. *)
Fixpoint has_match (s : string) : bool :=
  match s with
  | EmptyString => false
  | String _ rest =>
      match match_time_at s with
      | Some _ => true
      | None => has_match rest
      end
  end.

(** The ASCII digits, which [minutes_to_label] writes. *)
Definition is_digit (c : ascii) : bool :=
  let n := nat_of_ascii c in (48 <=? n)%nat && (n <=? 57)%nat.

(** Characters of a label. *)
Definition is_pat (c : ascii) : bool := is_digit c || (c =? "h")%char.

(** Bytes that are neither the ASCII dash nor the first byte of the UTF-8
    text of U+2013 and U+2014. *)
Definition no_dash_byte (c : ascii) : bool :=
  negb (c =? "-")%char && negb (c =? ascii_of_nat 226)%char.

Fixpoint dash_free (s : string) : bool :=
  match s with
  | EmptyString => true
  | String c rest => no_dash_byte c && dash_free rest
  end.

(** What [replace old new] does, as a relation between input and output:
    characters are copied, or one occurrence of [old] becomes [new]. *)
Inductive repl (old new : string) : string -> string -> Prop :=
| repl_nil : repl old new EmptyString EmptyString
| repl_copy c s t : repl old new s t -> repl old new (String c s) (String c t)
| repl_sub s t : repl old new s t -> repl old new (old ++ s) (new ++ t).

(** Segments laid end to end from time [t0] to time [t1], none of negative
    length. *)
Inductive chain : Z -> list Segment -> Z -> Prop :=
| chain_nil t : chain t [] t
| chain_cons s rest t :
    start s <= end_ s -> chain (end_ s) rest t -> chain (start s) (s :: rest) t.

(** Titles of the segments that the scheduler adds around the visits. *)
Definition fixed_titles : list string :=
  ["Arrivee a Heathrow"; "Vers l'hotel"; "Retour a l'hotel";
   "Transfert vers Heathrow"; "Formalites de depart"].

(** Where a segment of a schedule comes from: the fixed transport and
    transfer segments, the hotel check-in of an arrival day, the closing
    buffer, a transfer to a visit, or a visit of a place of [visits]. *)
Inductive seg_kind (day_theme : string) (end_time : Z)
  (visits : list string) (s : Segment) : Prop :=
| kind_fixed :
    In (seg_title s) fixed_titles ->
    In (segment_type s) ["transport"; "transfer"] ->
    seg_kind day_theme end_time visits s
| kind_checkin :
    day_theme = "arrival" ->
    seg_title s = "Installation a l'hotel" ->
    location s = HOTEL_NAME ->
    segment_type s = "visit" ->
    seg_kind day_theme end_time visits s
| kind_buffer :
    segment_type s = "buffer" ->
    end_ s = end_time ->
    seg_kind day_theme end_time visits s
| kind_transfer n :
    seg_title s = "Trajet vers " ++ n ->
    segment_type s = "transfer" ->
    end_ s <= end_time ->
    seg_kind day_theme end_time visits s
| kind_visit n info :
    In n visits ->
    LOCATION_MAP_get n = Some info ->
    location s = n ->
    seg_title s = n ->
    segment_type s
    = (if (category info =? "food")%string then "meal" else "visit") ->
    start s <= end_time ->
    end_ s <= Z.max end_time (start s + 30) ->
    seg_kind day_theme end_time visits s.

(** One block of the scheduler takes the state [st] to [st']: it appends
    segments laid end to end from the clock of [st] to the clock of [st'],
    each of a known kind. *)
Definition extends (day_theme : string) (end_time : Z) (visits : list string)
  (st st' : sched) : Prop :=
  exists added,
    segments st' = (segments st ++ added)%list
    /\ chain (current_time st) added (current_time st')
    /\ Forall (seg_kind day_theme end_time visits) added.

(** The same for a closing block, after which the clock is not read. *)
Definition closes (day_theme : string) (end_time : Z) (visits : list string)
  (st st' : sched) : Prop :=
  exists added t,
    segments st' = (segments st ++ added)%list
    /\ chain (current_time st) added t
    /\ Forall (seg_kind day_theme end_time visits) added.

(** The three segments that open an arrival day starting at [t0]. *)
Definition arrival_segments (t0 : Z) : list Segment := [
  Build_Segment t0 (t0 + 30) "Arrivee a Heathrow" "Heathrow Airport"
    "Formalites et recuperation des valises." "transport";
  Build_Segment (t0 + 30) (t0 + 30 + 75) "Vers l'hotel"
    "Heathrow Airport -> citizenM London Bankside"
    "Heathrow Express jusqu'a Paddington puis taxi/metro (75 min)."
    "transfer";
  Build_Segment (t0 + 30 + 75) (t0 + 30 + 75 + 45) "Installation a l'hotel"
    "citizenM London Bankside"
    "Check-in et petite pause pour poser les valises." "visit"
].

(** The places the scheduler will try to visit on a day. *)
Definition visits_of (day : DaySection) : list string :=
  make_visits_order (theme day) (drop_shard (poi_loop (locations day) [])).

(** Number of times the name [n] occurs in the locations of a day, and
    number of times an index occurs in a list of indices. *)
Definition occ (n : string) (day : DaySection) : nat :=
  count_occ string_dec (locations day) n.

Definition cnt (idx : Z) (idxs : list Z) : nat :=
  count_occ Z.eq_dec idxs idx.

(** The days are numbered by their position, as [parse_docx] numbers
    them. *)
Definition well_indexed (days : list DaySection) : Prop :=
  forall i d, nth_error days i = Some d -> index d = Z.of_nat i.

(** The hotel is never stripped from an arrival day. *)
Definition exempt (n : string) (d : DaySection) : bool :=
  (n =? HOTEL_NAME)%string && (theme d =? "arrival")%string.

(** Number of days whose locations contain [n]; the same count without
    the arrival days that keep the hotel. *)
Definition days_listing (n : string) (days : list DaySection) : nat :=
  List.length (filter (fun d => mem n (locations d)) days).

Definition days_listing_unexempt (n : string) (days : list DaySection) : nat :=
  List.length
    (filter (fun d => mem n (locations d) && negb (exempt n d)) days).

(** [days'] is [days] after some removals of names that the deduplicator
    does not skip: same length, same numbering and themes, no name more
    frequent than before, skipped names exactly as frequent. *)
Definition shrink (days days' : list DaySection) : Prop :=
  List.length days' = List.length days
  /\ forall i d d',
       nth_error days i = Some d -> nth_error days' i = Some d' ->
       index d' = index d /\ theme d' = theme d
       /\ forall m, (occ m d' <= occ m d)%nat
                    /\ (skip_dedup m = true -> occ m d' = occ m d).

(** At most one day lists [n], apart from the exempt days. *)
Definition once_or_exempt (n : string) (days : list DaySection) : Prop :=
  exists b : nat, forall i d,
    nth_error days i = Some d -> mem n (locations d) = true ->
    i = b \/ exempt n d = true.

(** At most one day lists [n]. *)
Definition listed_once (n : string) (days : list DaySection) : Prop :=
  exists b : nat, forall i d,
    nth_error days i = Some d -> mem n (locations d) = true -> i = b.

(** The list stored under [n] in an index dictionary (empty when the key
    is absent), and the list that [index_by_loc] is expected to store: the
    index of each day, once per occurrence of [n] in its locations. *)
Definition indices_of (d : list (string * list Z)) (n : string) : list Z :=
  match dict_get d n with
  | Some l => l
  | None => []
  end.

Definition gathered (n : string) (days : list DaySection) : list Z :=
  flat_map (fun d => repeat (index d) (occ n d)) days.

(** [well_indexed] as a check: the days carry the numbers [k], [k+1], ... *)
Fixpoint numbered_from (k : Z) (days : list DaySection) : bool :=
  match days with
  | [] => true
  | d :: rest => (index d =? k) && numbered_from (k + 1) rest
  end.

(** Text made of digits, the letter h and the ASCII dash only. *)
Fixpoint plain_time_text (s : string) : bool :=
  match s with
  | EmptyString => true
  | String c rest => (is_pat c || (c =? "-")%char) && plain_time_text rest
  end.

(** [l] is [l'] with some elements left out, the others in their order. *)
Inductive subseq : list string -> list string -> Prop :=
| subseq_nil : subseq [] []
| subseq_keep x l l' : subseq l l' -> subseq (x :: l) (x :: l')
| subseq_skip x l l' : subseq l l' -> subseq l (x :: l').

(** The day [d'] is the day [d] after the deduplicator: only the locations
    and the audit list changed, the locations that remain kept their order,
    and every name that left the locations was appended to the audit
    list. *)
Definition audited (d d' : DaySection) : Prop :=
  index d' = index d /\ title d' = title d /\ theme d' = theme d
  /\ lines d' = lines d /\ timeline d' = timeline d
  /\ added_essentials d' = added_essentials d
  /\ subseq (locations d') (locations d)
  /\ exists removed,
       removed_duplicates d' = (removed_duplicates d ++ removed)%list
       /\ Permutation (locations d) (locations d' ++ removed).

(** The day [d'] is the day [d] with other locations and more added
    essentials: nothing else changed. *)
Definition same_plan (d d' : DaySection) : Prop :=
  index d' = index d /\ title d' = title d /\ theme d' = theme d
  /\ lines d' = lines d /\ timeline d' = timeline d
  /\ removed_duplicates d' = removed_duplicates d.

(** The names appended to the added essentials of [d] to give those of
    [d'], and these names for all the days of a list. *)
Definition newly_added (d d' : DaySection) : list string :=
  skipn (length (added_essentials d)) (added_essentials d').

Definition all_newly_added (days days' : list DaySection) : list string :=
  concat (map (fun p => newly_added (fst p) (snd p)) (combine days days')).

(** No name of the list is strictly nearer to the point [c] than a name
    before it. *)
Definition nearest_first (c : R * R) (l : list string) : Prop :=
  StronglySorted
    (fun a b => fdist_ltb (distance_between b c) (distance_between a c) = false)
    l.

(** What one pass of the loop of [add_missing_essentials] does to a day,
    apart from which essentials it picks. *)
Definition augmented (d d' : DaySection) : Prop :=
  same_plan d d'
  /\ added_essentials d' = (added_essentials d ++ newly_added d d')%list
  /\ (forall e, In e (newly_added d d') ->
        In e (essentials_of (theme d)) /\ keep_location e = true)
  /\ exists c,
       compute_centroid (locations_or_hotel d) = Ok c
       /\ locations d'
          = sorted_by (fun n => distance_between n c)
              (fromkeys []
                 (clean_location_list (locations d ++ newly_added d d'))).

(** Every name of [l] is, among itself and the names after it, one of the
    nearest to the name before it; [current] comes before the first. *)
Fixpoint nearest_chain (current : string) (l : list string) : Prop :=
  match l with
  | [] => True
  | x :: rest =>
      (forall y, In y rest ->
         (distance_between_pair current x <= distance_between_pair current y)%R)
      /\ nearest_chain x rest
  end.

(** Text made of the characters [a-z0-9 ] only, and text of words over
    [a-z0-9] separated by single spaces. *)
Fixpoint all_plain (s : string) : bool :=
  match s with
  | EmptyString => true
  | String c rest => is_plain c && all_plain rest
  end.

Definition words_text (s : string) : Prop :=
  all_plain s = true
  /\ contains "  " s = false
  /\ prefix " " s = false
  /\ forall pre, s <> pre ++ " ".

(** Text made of the characters [a-z0-9_] only. *)
Fixpoint all_slug (s : string) : bool :=
  match s with
  | EmptyString => true
  | String c rest =>
      ((is_plain c && negb (c =? " ")%char) || (c =? "_")%char)
      && all_slug rest
  end.

(** A day as [parse_docx] builds it, from lines among [paragraphs]. *)
Definition read_from (paragraphs : list string) (d : DaySection) : Prop :=
  In (theme d) ["arrival"; "mayfair"; "city"; "departure"]
  /\ locations d = [] /\ removed_duplicates d = [] /\ added_essentials d = []
  /\ exists buffer,
       incl buffer paragraphs
       /\ lines d = stripped_lines buffer
       /\ timeline d = extract_timeline buffer.

(** The paragraphs that open a day. *)
Definition is_day_title (para : string) : bool :=
  existsb (fun marker => prefix marker para) DAY_MARKERS.

(** The places at which the segments of a schedule stop for a visit or a
    meal, in the order of the schedule. *)
Definition is_stop (s : Segment) : bool :=
  mem (segment_type s) ["visit"; "meal"].

Definition stops (segs : list Segment) : list string :=
  map location (filter is_stop segs).

(** The visits of a tour that leaves the place [p] at the time [t]: every
    visit or meal starts when the transfer from the place before it ends,
    and by [e]. *)
Fixpoint fits (e t : Z) (p : string) (vs : list Segment) : Prop :=
  match vs with
  | [] => True
  | x :: rest =>
      start x = t + estimate_travel_minutes p (location x)
      /\ start x <= e
      /\ fits e (end_ x) (location x) rest
  end.

(** The time and the place at which such a tour ends. *)
Fixpoint tour_end (t : Z) (p : string) (vs : list Segment) : Z * string :=
  match vs with
  | [] => (t, p)
  | x :: rest => tour_end (end_ x) (location x) rest
  end.

(* ------------------------------------------------------------------ *)
(** ** Concrete days used in the examples below *)

Definition plain_day (i : Z) (day_theme : string) (tl : list string)
  (locs : list string) : DaySection :=
  Build_DaySection i "" day_theme []
    (map (fun t => Build_TimelineItem t "" "") tl) locs [] [].

(** A city day without any timeline entry. *)
Definition city_no_timeline : DaySection := plain_day 0 "city" [] [].

(** A city day with one early timeline entry. *)
Definition city_morning : DaySection := plain_day 0 "city" ["10h00-12h00"] [].

(** A departure day whose timeline has one entry, at 7:00. *)
Definition departure_short : DaySection := plain_day 3 "departure" ["7h00"] [].

(** The arrival day of the scenario: two streets, no timeline. *)
Definition arrival_day : DaySection :=
  plain_day 0 "arrival" [] ["Carnaby Street"; "Oxford Circus"].

(** A city day that lists the tower and its restaurant. *)
Definition shard_day : DaySection :=
  plain_day 2 "city" [] ["The Shard"; "Borough Market"; "Oblix at The Shard"].

(** A city day that lists a pier and the hotel among its places. *)
Definition pier_day : DaySection :=
  plain_day 2 "city" []
    ["Westminster Pier"; "London Eye"; "citizenM London Bankside"].

(** Two days that both list Soho. *)
Definition soho_days : list DaySection :=
  [plain_day 0 "mayfair" [] ["Soho"; "Liberty London"];
   plain_day 1 "city" [] ["Soho"; "Borough Market"]].

(** Three days: the airport alone, an arrival day with the hotel and the
    airport, a city day with the hotel. *)
Definition hotel_days : list DaySection :=
  [plain_day 0 "departure" [] ["Heathrow Airport"];
   plain_day 1 "arrival" [] [HOTEL_NAME; "Heathrow Airport"];
   plain_day 2 "city" [] [HOTEL_NAME]].

(** The same three days after one run and after two runs of the
    deduplicator. *)
Definition hotel_days_once : list DaySection :=
  [plain_day 0 "departure" [] ["Heathrow Airport"];
   Build_DaySection 1 "" "arrival" [] [] [HOTEL_NAME] ["Heathrow Airport"] [];
   plain_day 2 "city" [] [HOTEL_NAME]].

Definition hotel_days_twice : list DaySection :=
  [plain_day 0 "departure" [] ["Heathrow Airport"];
   Build_DaySection 1 "" "arrival" [] [] [HOTEL_NAME] ["Heathrow Airport"] [];
   Build_DaySection 2 "" "city" [] [] [] [HOTEL_NAME] []].

(** The centroids that occur on these days, as [compute_centroid] forms
    them: of the airport alone, of the hotel alone, of both. *)
Definition at_airport : R * R := ((0 + 51.4700) / 1, (0 + -0.4543) / 1)%R.
Definition at_hotel : R * R := ((0 + 51.5055) / 1, (0 + -0.0993) / 1)%R.
Definition between : R * R :=
  ((0 + 51.5055 + 51.4700) / 2, (0 + -0.0993 + -0.4543) / 2)%R.

(** An arrival day with the hotel and a station, and a city day with the
    same station. *)
Definition arrival_station_days : list DaySection :=
  [plain_day 0 "arrival" [] [HOTEL_NAME; "Paddington Station"];
   plain_day 1 "city" [] ["Paddington Station"; "Soho"]].

(** Two days without the hotel that share a station and a street. *)
Definition station_days : list DaySection :=
  [plain_day 0 "mayfair" [] ["Paddington Station"; "Soho"];
   plain_day 1 "city" [] ["Soho"; "Paddington Station"]].

(** The coffee place next to the hotel, and a day whose only place it
    is. *)
Definition cafe : string := "The Gentlemen Baristas Bankside".
Definition cafe_day : DaySection := plain_day 1 "mayfair" [] [cafe].

(** A day whose only timeline entry is not a time. *)
Definition day_abc : DaySection := plain_day 0 "mayfair" ["abc"] [].

(** [12h30] written with the Arabic-Indic digits U+0661, U+0662, U+0663 and
    U+0660, and each of the four digits. *)
Definition arabic_indic (k : nat) : string :=
  String (ascii_of_nat 217) (String (ascii_of_nat (160 + k)) EmptyString).

Definition arabic_indic_12h30 : string :=
  arabic_indic 1 ++ arabic_indic 2 ++ "h" ++ arabic_indic 3 ++ arabic_indic 0.

(** A day whose only timeline entry is that text, and lines that start with
    it. *)
Definition arabic_indic_day : DaySection :=
  plain_day 0 "city" [arabic_indic_12h30] [].

Definition arabic_indic_lines : list string :=
  [arabic_indic_12h30 ++ " visite"; "Soho"].

(** The lines of a day of the document, and the day read from them. *)
Definition document_lines : list string :=
  ["  10h00" ++ EN_DASH ++ "12h30 "; "Shopping"; "Soho"; EmptyString;
   "14h15 pause"].

Definition document_day : DaySection :=
  Build_DaySection 1 "Lundi" "mayfair" document_lines
    (extract_timeline document_lines) ["Soho"] [] [].

(* ================================================================== *)
(** * Properties *)

(** ** Time bounds *)

Lemma bounds_loop_ok (items : list TimelineItem) :
  (forall item, In item items -> is_ok (parse_time_range (time item)) = true) ->
  items <> [] ->
  forall a b, exists s e, bounds_loop items a b = Ok (Some s, Some e).
Proof.
  induction items as [|item rest IH]; intros Hall Hne a b; [congruence|].
  cbn [bounds_loop].
  assert (Hi : is_ok (parse_time_range (time item)) = true)
    by (apply Hall; left; reflexivity).
  destruct (parse_time_range (time item)) as [[s0 e0]|]; [|discriminate].
  cbn [bind].
  destruct rest as [|item' rest'].
  - cbn. eauto.
  - apply IH; [|discriminate].
    intros it Hin. apply Hall. right. exact Hin.
Qed.

(** C3, as the code has it.  On a day of theme "city" the end bound lies
    between 22:30 (1350) and 23:30 (1410) whenever the day has at least one
    timeline entry and every entry parses; with no timeline entry the bounds
    are the preset window 9:00 - 21:30, so the end bound is 1290. *)
Theorem city_end_bound (day : DaySection) :
  theme day = "city" ->
  (timeline day = [] -> get_day_time_bounds day = Ok (540, 1290))
  /\ (timeline day <> [] ->
      (forall item, In item (timeline day) ->
         is_ok (parse_time_range (time item)) = true) ->
      exists s e, get_day_time_bounds day = Ok (s, e) /\ 1350 <= e <= 1410).
Proof.
  intros Hcity. unfold get_day_time_bounds. rewrite Hcity. split.
  - intros ->. reflexivity.
  - intros Hne Hall.
    destruct (bounds_loop_ok (timeline day) Hall Hne None None)
      as (s & e & ->).
    cbn [bind]. change ("city" =? "city")%string with true. cbn [andb].
    exists s. eexists. split; [reflexivity|].
    destruct (e <? 22 * 60 + 30) eqn:He; lia.
Qed.

Lemma city_end_bound_witness :
  theme city_morning = "city"
  /\ exists s e, get_day_time_bounds city_morning = Ok (s, e)
                 /\ 1350 <= e <= 1410.
Proof.
  split; [reflexivity|].
  apply (proj2 (city_end_bound city_morning eq_refl)).
  - discriminate.
  - intros item [<-|[]]. reflexivity.
Defined.

(** C3 as stated fails: a city day with an empty timeline gets the preset
    end bound 21:30, below 22:30. *)
Lemma city_end_bound_counterexample :
  theme city_no_timeline = "city"
  /\ timeline city_no_timeline = []
  /\ get_day_time_bounds city_no_timeline = Ok (540, 1290)
  /\ ~ (1350 <= 1290).
Proof. repeat split; lia. Qed.

(** ** Malformed time strings *)

(** ** Decimal digits in UTF-8 *)

Lemma digit_value_run (cp v : Z) :
  digit_value cp = Some v ->
  exists z, In z DIGIT_ZEROS /\ z <= cp <= z + 9 /\ v = cp - z.
Proof.
  unfold digit_value.
  destruct (find _ DIGIT_ZEROS) as [z|] eqn:Hf; [|discriminate].
  intros [= <-]. apply find_some in Hf as [Hin Hz].
  apply andb_prop in Hz as [H1 H2]. apply Z.leb_le in H1, H2.
  exists z. repeat split; assumption.
Qed.

Lemma digit_value_range (cp v : Z) : digit_value cp = Some v -> 0 <= v <= 9.
Proof.
  intros H. destruct (digit_value_run _ _ H) as (z & _ & Hz & ->). lia.
Qed.

(** The runs lie in the ASCII digits, between U+0660 and U+1FFF, or above
    U+3000. *)
Lemma DIGIT_ZEROS_where (z : Z) :
  In z DIGIT_ZEROS -> z = 48 \/ 1632 <= z <= 8182 \/ 12288 <= z.
Proof.
  intros H.
  assert (A : forallb (fun z => (z =? 48) || ((1632 <=? z) && (z <=? 8182))
                                || (12288 <=? z)) DIGIT_ZEROS = true)
    by reflexivity.
  rewrite forallb_forall in A. specialize (A z H).
  apply orb_prop in A as [A|A]; [apply orb_prop in A as [A|A]|].
  - left. now apply Z.eqb_eq.
  - right. left. apply andb_prop in A as [A1 A2].
    apply Z.leb_le in A1, A2. lia.
  - right. right. now apply Z.leb_le.
Qed.

Lemma digit_value_where (cp v : Z) :
  digit_value cp = Some v ->
  48 <= cp <= 57 \/ 1632 <= cp <= 8191 \/ 12288 <= cp.
Proof.
  intros H. destruct (digit_value_run _ _ H) as (z & Hin & Hz & _).
  destruct (DIGIT_ZEROS_where z Hin) as [->|[?|?]]; lia.
Qed.

Lemma digit_value_ascii (cp : Z) :
  48 <= cp <= 57 -> digit_value cp = Some (cp - 48).
Proof.
  intros H. unfold digit_value, DIGIT_ZEROS. cbn [find].
  destruct (Z.leb_spec 48 cp); [|lia].
  destruct (Z.leb_spec cp (48 + 9)); [|lia]. reflexivity.
Qed.

Lemma byte_range (c : ascii) : 0 <= byte c < 256.
Proof.
  unfold byte. pose proof (nat_ascii_bounded c). lia.
Qed.

Lemma byte_inj (c c' : ascii) : byte c = byte c' -> c = c'.
Proof.
  unfold byte. intros H. apply Nat2Z.inj in H.
  rewrite <- (ascii_nat_embedding c), <- (ascii_nat_embedding c').
  now rewrite H.
Qed.

Ltac bool_hyps :=
  repeat match goal with
  | H : (_ && _)%bool = true |- _ => apply andb_prop in H as [? ?]
  | H : (_ <? _) = true |- _ => apply Z.ltb_lt in H
  | H : (_ <? _) = false |- _ => apply Z.ltb_ge in H
  | H : (_ <=? _) = true |- _ => apply Z.leb_le in H
  | H : (_ <=? _) = false |- _ => apply Z.leb_gt in H
  | H : is_cont _ = true |- _ => unfold is_cont in H
  end.

(** The cases of [code_point_at]: one to four bytes. *)
Lemma code_point_at_cases (s : string) (n : nat) (cp : Z) :
  code_point_at s = Some (n, cp) ->
  exists d r,
    s = d ++ r /\ String.length d = n /\ code_point_at d = Some (n, cp)
    /\ (forall r', code_point_at (d ++ r') = Some (n, cp))
    /\ ((exists a, d = String a EmptyString /\ cp = byte a /\ cp < 128)
        \/ (exists a, 128 <= cp
                      /\ forall c, In c (list_ascii_of_string d) ->
                           128 <= byte c
                           /\ (c = ascii_of_nat 226 -> c = a /\ 8192 <= cp <= 12287))).
Proof.
  unfold code_point_at.
  destruct s as [|a s]; [discriminate|].
  destruct (byte a <? 128) eqn:H1.
  { intros [= <- <-]. exists (String a ""), s. cbn [append String.length].
    rewrite H1. repeat split; try reflexivity.
    left. exists a. bool_hyps. split; [reflexivity|]. split; [reflexivity|exact H1]. }
  destruct ((194 <=? byte a) && (byte a <? 224)) eqn:H2.
  { destruct s as [|b s]; [discriminate|].
    destruct (is_cont b) eqn:Hb; [|discriminate].
    intros [= <- <-]. exists (String a (String b "")), s.
    cbn [append String.length]. rewrite H1, H2, Hb.
    repeat split; try reflexivity.
    right. exists a. bool_hyps. split; [lia|].
    intros c [<-|[<-|[]]]; (split; [lia|]); intros ->;
      change (byte (ascii_of_nat 226)) with 226 in *; lia. }
  destruct ((224 <=? byte a) && (byte a <? 240)) eqn:H3.
  { destruct s as [|b [|c s]]; try discriminate.
    cbv zeta.
    destruct (is_cont b && is_cont c && _ && _)%bool eqn:Hb; [|discriminate].
    intros [= <- <-]. exists (String a (String b (String c ""))), s.
    cbn [append String.length]. rewrite H1, H2, H3. cbv zeta. rewrite Hb.
    repeat split; try reflexivity.
    right. exists a. bool_hyps. split; [lia|].
    intros x [<-|[<-|[<-|[]]]]; (split; [lia|]); intros E;
      try (rewrite E in *; change (byte (ascii_of_nat 226)) with 226 in *;
           split; [reflexivity|lia]).
    - subst b. change (byte (ascii_of_nat 226)) with 226 in *. lia.
    - subst c. change (byte (ascii_of_nat 226)) with 226 in *. lia. }
  destruct ((240 <=? byte a) && (byte a <? 245)) eqn:H4; [|discriminate].
  destruct s as [|b [|c [|d s]]]; try discriminate.
  cbv zeta.
  destruct (is_cont b && is_cont c && is_cont d && _ && _)%bool eqn:Hb;
    [|discriminate].
  intros [= <- <-]. exists (String a (String b (String c (String d "")))), s.
  cbn [append String.length]. rewrite H1, H2, H3, H4. cbv zeta. rewrite Hb.
  repeat split; try reflexivity.
  right. exists a. bool_hyps. split; [lia|].
  intros x [<-|[<-|[<-|[<-|[]]]]]; (split; [lia|]); intros E;
    rewrite E in *; change (byte (ascii_of_nat 226)) with 226 in *; lia.
Qed.

Lemma drop_app (a r : string) : drop (String.length a) (a ++ r) = r.
Proof. induction a as [|c a IH]; [reflexivity|exact IH]. Qed.

Lemma append_assoc (a b c : string) : (a ++ b) ++ c = a ++ b ++ c.
Proof. induction a as [|x a IH]; [reflexivity|]. cbn. now rewrite IH. Qed.

Lemma take_app (m post : string) (k : nat) :
  take (String.length m + k) (m ++ post) = m ++ take k post.
Proof. induction m as [|c m IH]; [reflexivity|]. cbn. now rewrite IH. Qed.

Lemma take_0 (s : string) : take 0 s = EmptyString.
Proof. now destruct s. Qed.

Lemma append_nil_r (s : string) : s ++ EmptyString = s.
Proof. induction s as [|c s IH]; [reflexivity|]. cbn. now rewrite IH. Qed.

Lemma take_all (m post : string) : take (String.length m) (m ++ post) = m.
Proof.
  rewrite <- (Nat.add_0_r (String.length m)), take_app, take_0.
  apply append_nil_r.
Qed.

Lemma length_append (a b : string) :
  String.length (a ++ b) = (String.length a + String.length b)%nat.
Proof. induction a as [|c a IH]; [reflexivity|]. cbn. now rewrite IH. Qed.

Lemma append_same_length (d r : string) :
  String.length (d ++ r) = String.length d -> r = EmptyString.
Proof.
  rewrite length_append. destruct r; [reflexivity|]. cbn. lia.
Qed.

(** A digit at the head of [s] splits [s] into the text of the digit and
    the rest. *)
Lemma digit_at_split (s : string) (n : nat) (v : Z) :
  digit_at s = Some (n, v) ->
  exists d r, s = d ++ r /\ String.length d = n /\ digit_text d.
Proof.
  unfold digit_at.
  destruct (code_point_at s) as [[len cp]|] eqn:Hc; [|discriminate].
  destruct (digit_value cp) as [v'|] eqn:Hv; [|discriminate].
  intros [= <- <-].
  destruct (code_point_at_cases _ _ _ Hc) as (d & r & -> & Hl & Hd & _).
  exists d, r. split; [reflexivity|]. split; [exact Hl|].
  exists v'. unfold digit_at. now rewrite Hd, Hv, Hl.
Qed.

(** The text of a digit is read as that digit whatever follows it. *)
Lemma digit_at_app (d r : string) (v : Z) :
  digit_at d = Some (String.length d, v) ->
  digit_at (d ++ r) = Some (String.length d, v).
Proof.
  unfold digit_at.
  destruct (code_point_at d) as [[len cp]|] eqn:Hc; [|discriminate].
  destruct (digit_value cp) as [v'|] eqn:Hv; [|discriminate].
  intros [= -> <-].
  destruct (code_point_at_cases _ _ _ Hc) as (d0 & r0 & E & Hl & _ & Happ & _).
  assert (r0 = EmptyString).
  { apply (append_same_length d0). now rewrite <- E. }
  subst r0. rewrite append_nil_r in E. subst d0.
  now rewrite Happ, Hv.
Qed.

Lemma digit_text_nonempty (d : string) :
  digit_text d -> exists c d', d = String c d'.
Proof.
  intros [v H]. destruct d as [|c d']; [discriminate|eauto].
Qed.

Lemma no_dash_byte_of (c : ascii) :
  byte c <> 45 -> byte c <> 226 -> no_dash_byte c = true.
Proof.
  intros H1 H2. unfold no_dash_byte.
  destruct (Ascii.eqb_spec c "-") as [->|_]; [now elim H1|].
  destruct (Ascii.eqb_spec c (ascii_of_nat 226)) as [->|_]; [now elim H2|].
  reflexivity.
Qed.

Lemma dash_free_bytes (s : string) :
  (forall c, In c (list_ascii_of_string s) -> no_dash_byte c = true) ->
  dash_free s = true.
Proof.
  induction s as [|c s IH]; intros H; [reflexivity|].
  cbn [dash_free]. rewrite (H c) by (left; reflexivity).
  apply IH. intros x Hx. apply H. now right.
Qed.

Lemma dash_free_app (s t : string) :
  dash_free (s ++ t) = dash_free s && dash_free t.
Proof.
  induction s as [|c s IH]; [reflexivity|]. cbn. rewrite IH.
  now rewrite andb_assoc.
Qed.

(** No byte of a decimal digit is the ASCII dash or the byte 226: no
    decimal digit lies between U+2000 and U+2FFF. *)
Lemma digit_text_dash_free (d : string) : digit_text d -> dash_free d = true.
Proof.
  intros [v H]. unfold digit_at in H.
  destruct (code_point_at d) as [[len cp]|] eqn:Hc; [|discriminate].
  destruct (digit_value cp) as [v'|] eqn:Hv; [|discriminate].
  injection H as -> _.
  pose proof (digit_value_where _ _ Hv) as Hw.
  destruct (code_point_at_cases _ _ _ Hc) as (d0 & r0 & E & Hl & _ & _ & Hb).
  assert (r0 = EmptyString).
  { apply (append_same_length d0). now rewrite <- E. }
  subst r0. rewrite append_nil_r in E. subst d0.
  apply dash_free_bytes. intros c Hin.
  destruct Hb as [(a & -> & Ha & Hlt)|(a & Hge & Hall)].
  - destruct Hin as [<-|[]]. apply no_dash_byte_of; lia.
  - destruct (Hall c Hin) as [Hc1 Hc2]. apply no_dash_byte_of; [lia|].
    intros E226. assert (c = ascii_of_nat 226) as Ec.
    { apply byte_inj. now rewrite E226. }
    destruct (Hc2 Ec) as [_ ?]. lia.
Qed.

Lemma time_token_dash_free (m : string) : time_token m -> dash_free m = true.
Proof.
  intros [a c d Ha Hc Hd | a b c d Ha Hb Hc Hd];
    rewrite !dash_free_app, ?(digit_text_dash_free a), ?(digit_text_dash_free b),
      ?(digit_text_dash_free c), ?(digit_text_dash_free d) by assumption;
    reflexivity.
Qed.

(** The text matched by [\d{k}]. *)
Lemma digits_at_split (k : nat) :
  forall s len,
    digits_at k s = Some len ->
    exists m r, s = m ++ r /\ String.length m = len /\ digits_text k m.
Proof.
  induction k as [|k IH]; intros s len H; cbn [digits_at] in H.
  - injection H as <-. exists EmptyString, s. now repeat split.
  - destruct (digit_at s) as [[n v]|] eqn:Hd; [|discriminate].
    destruct (digit_at_split _ _ _ Hd) as (d & r & -> & <- & Ht).
    rewrite drop_app in H.
    destruct (digits_at k r) as [more|] eqn:Hk; [|discriminate].
    injection H as <-.
    destruct (IH _ _ Hk) as (m & r' & -> & <- & Hm).
    exists (d ++ m), r'. split; [now rewrite append_assoc|].
    split; [apply length_append|]. cbn [digits_text]. now exists d, m.
Qed.

Lemma digits_at_app (k : nat) :
  forall m r, digits_text k m -> digits_at k (m ++ r) = Some (String.length m).
Proof.
  induction k as [|k IH]; intros m r H; cbn [digits_text] in H.
  - subst m. reflexivity.
  - destruct H as (d & m' & -> & [v Hd] & Hm).
    cbn [digits_at]. rewrite append_assoc, (digit_at_app _ _ _ Hd), drop_app.
    rewrite (IH _ _ Hm). now rewrite length_append.
Qed.

(** What one attempt of the pattern matches. *)
Lemma match_with_split (k : nat) (s hh mm : string) (len : nat) :
  match_with k s = Some (hh, mm, len) ->
  exists post,
    s = (hh ++ "h" ++ mm) ++ post /\ String.length (hh ++ "h" ++ mm) = len
    /\ digits_text k hh /\ digits_text 2 mm.
Proof.
  unfold match_with.
  destruct (digits_at k s) as [len1|] eqn:H1; [|discriminate].
  destruct (digits_at_split _ _ _ H1) as (m1 & r1 & -> & <- & Hm1).
  rewrite drop_app, take_all.
  destruct r1 as [|c rest]; [discriminate|].
  destruct (Ascii.eqb_spec c "h") as [->|]; [|discriminate].
  destruct (digits_at 2 rest) as [len2|] eqn:H2; [|discriminate].
  destruct (digits_at_split _ _ _ H2) as (m2 & r2 & -> & <- & Hm2).
  rewrite take_all. intros [= <- <- <-].
  exists r2. split; [|split; [|now split]].
  - now rewrite append_assoc.
  - rewrite length_append. cbn [append String.length]. lia.
Qed.

Lemma match_with_app (k : nat) (hh mm post : string) :
  digits_text k hh -> digits_text 2 mm ->
  match_with k ((hh ++ "h" ++ mm) ++ post)
  = Some (hh, mm, String.length (hh ++ "h" ++ mm)).
Proof.
  intros Hh Hm. unfold match_with.
  rewrite !append_assoc, (digits_at_app _ _ _ Hh), drop_app, take_all.
  cbn [append]. cbn [Ascii.eqb Bool.eqb].
  rewrite (digits_at_app _ _ _ Hm), take_all.
  rewrite length_append. cbn [append String.length].
  do 2 f_equal. lia.
Qed.

Lemma digits_text_1 (a : string) : digit_text a -> digits_text 1 a.
Proof.
  intros H. exists a, EmptyString. now rewrite append_nil_r.
Qed.

Lemma digits_text_2 (a b : string) :
  digit_text a -> digit_text b -> digits_text 2 (a ++ b).
Proof.
  intros Ha Hb. exists a, b. split; [reflexivity|]. split; [exact Ha|].
  now apply digits_text_1.
Qed.

Lemma digits_text_1_inv (m : string) : digits_text 1 m -> digit_text m.
Proof.
  intros (d & r & -> & Hd & ->). now rewrite append_nil_r.
Qed.

Lemma digits_text_2_inv (m : string) :
  digits_text 2 m -> exists a b, m = a ++ b /\ digit_text a /\ digit_text b.
Proof.
  intros (a & r & -> & Ha & Hr). exists a, r.
  split; [reflexivity|]. split; [exact Ha|now apply digits_text_1_inv].
Qed.

Lemma match_time_at_split (s : string) (g : string * string) (len : nat) :
  match_time_at s = Some (g, len) ->
  exists m post, s = m ++ post /\ time_token m /\ String.length m = len.
Proof.
  unfold match_time_at. destruct g as [hh mm]. intros H.
  destruct (match_with 2 s) as [[[h2 m2] l2]|] eqn:H2.
  - injection H as -> -> ->.
    destruct (match_with_split _ _ _ _ _ H2) as (post & -> & Hl & Hh & Hm).
    exists (hh ++ "h" ++ mm), post. split; [reflexivity|]. split; [|exact Hl].
    destruct (digits_text_2_inv _ Hh) as (a & b & -> & Ha & Hb).
    destruct (digits_text_2_inv _ Hm) as (c & d & -> & Hc & Hd).
    rewrite append_assoc. now apply token_HH.
  - destruct (match_with_split _ _ _ _ _ H) as (post & -> & Hl & Hh & Hm).
    exists (hh ++ "h" ++ mm), post. split; [reflexivity|]. split; [|exact Hl].
    apply digits_text_1_inv in Hh.
    destruct (digits_text_2_inv _ Hm) as (c & d & -> & Hc & Hd).
    now apply token_H.
Qed.

Lemma time_token_match (m post : string) :
  time_token m -> exists x, match_time_at (m ++ post) = Some x.
Proof.
  intros [a c d Ha Hc Hd | a b c d Ha Hb Hc Hd]; unfold match_time_at.
  - destruct (match_with 2 _) as [x|]; [now exists x|].
    rewrite (match_with_app 1 a (c ++ d) post);
      [eauto|now apply digits_text_1|now apply digits_text_2].
  - rewrite <- (append_assoc a b).
    rewrite (match_with_app 2 (a ++ b) (c ++ d) post);
      [eauto|now apply digits_text_2|now apply digits_text_2].
Qed.

Lemma time_token_nonempty (m : string) :
  time_token m -> exists c r, m = String c r.
Proof.
  intros [a c d Ha _ _|a b c d Ha _ _ _];
    destruct (digit_text_nonempty a Ha) as (x & r & ->); cbn; eauto.
Qed.
(** An ASCII digit is a decimal digit of one byte. *)
Lemma ascii_digit_at (a : ascii) (r : string) :
  is_digit a = true -> digit_at (String a r) = Some (1%nat, byte a - 48).
Proof.
  unfold is_digit. intros H. apply andb_prop in H as [H1 H2].
  apply Nat.leb_le in H1, H2.
  assert (Hb : 48 <= byte a <= 57) by (unfold byte; lia).
  unfold digit_at, code_point_at.
  destruct (Z.ltb_spec (byte a) 128); [|lia].
  now rewrite (digit_value_ascii _ Hb).
Qed.

Lemma ascii_digit_text (a : ascii) :
  is_digit a = true -> digit_text (String a EmptyString).
Proof. intros H. exists (byte a - 48). now apply ascii_digit_at. Qed.

Lemma ascii_token_H (a c d : ascii) :
  is_digit a = true -> is_digit c = true -> is_digit d = true ->
  time_token (String a (String "h" (String c (String d EmptyString)))).
Proof.
  intros Ha Hc Hd.
  apply (token_H (String a "") (String c "") (String d ""));
    now apply ascii_digit_text.
Qed.

Lemma ascii_token_HH (a b c d : ascii) :
  is_digit a = true -> is_digit b = true ->
  is_digit c = true -> is_digit d = true ->
  time_token
    (String a (String b (String "h" (String c (String d EmptyString))))).
Proof.
  intros Ha Hb Hc Hd.
  apply (token_HH (String a "") (String b "") (String c "") (String d ""));
    now apply ascii_digit_text.
Qed.

Lemma findall_has_match (s : string) :
  forall k, findall_aux k s <> [] -> has_match s = true.
Proof.
  induction s as [|c rest IH]; intros k H; [now cbn in H|].
  cbn [findall_aux has_match] in *.
  destruct k as [|k].
  - destruct (match_time_at (String c rest)) as [[g len]|]; [reflexivity|].
    now apply (IH 0%nat).
  - destruct (match_time_at (String c rest)); [reflexivity|].
    now apply (IH k).
Qed.

Lemma has_match_contains (s : string) :
  has_match s = true -> contains_time_token s.
Proof.
  induction s as [|c rest IH]; intros H; [discriminate|].
  cbn [has_match] in H.
  destruct (match_time_at (String c rest)) as [[g len]|] eqn:Hm.
  - destruct (match_time_at_split _ _ _ Hm) as (m & post & Hs & Ht & _).
    exists "", m, post. now split.
  - destruct (IH H) as (pre & m & post & Hs & Ht).
    exists (String c pre), m, post. split; [|exact Ht].
    cbn. now rewrite Hs.
Qed.

Lemma contains_has_match (s : string) :
  contains_time_token s -> has_match s = true.
Proof.
  intros (pre & m & post & -> & Ht).
  induction pre as [|c pre IH].
  - cbn [append]. destruct (time_token_match m post Ht) as [x Hx].
    destruct (time_token_nonempty m Ht) as (c & r & ->).
    cbn [append has_match] in *. now rewrite Hx.
  - cbn [append has_match].
    destruct (match_time_at _); [reflexivity|exact IH].
Qed.

Lemma prefix_split (old : string) :
  forall s, prefix old s = true -> exists r, s = old ++ r.
Proof.
  induction old as [|o old IH]; intros s H.
  - exists s. reflexivity.
  - destruct s as [|c s]; cbn in H; [discriminate|].
    destruct (ascii_dec o c) as [->|]; [|discriminate].
    destruct (IH s H) as [r ->]. exists r. reflexivity.
Qed.

Lemma replace_aux_repl (o : ascii) (old' new : string) (s : string) :
  forall k, repl (String o old') new (drop k s)
              (replace_aux (String o old') new k s).
Proof.
  induction s as [|c rest IH]; intros k.
  - destruct k; constructor.
  - destruct k as [|k]; cbn [drop replace_aux]; [|apply IH].
    destruct (prefix (String o old') (String c rest)) eqn:Hp.
    + destruct (prefix_split _ _ Hp) as [r Hr].
      specialize (IH (String.length old')).
      replace (String.length (String o old') - 1)%nat
        with (String.length old') by (cbn; lia).
      cbn [append] in Hr. injection Hr as -> ->.
      rewrite drop_app in IH.
      apply (repl_sub (String o old') new r _ IH).
    + constructor. apply (IH 0%nat).
Qed.

Lemma replace_repl (o : ascii) (old' new s : string) :
  repl (String o old') new s (replace (String o old') new s).
Proof. apply (replace_aux_repl o old' new s 0). Qed.

(** A text without dash at the head of the result of a replacement by the
    ASCII dash was at the head of the input. *)
Lemma repl_dash_prefix (old s t : string) :
  repl old "-" s t ->
  forall m post, dash_free m = true -> t = m ++ post ->
  exists post', s = m ++ post'.
Proof.
  induction 1 as [|c s t _ IH|s t _ IH]; intros m post Hm E.
  - destruct m; [|discriminate]. exists "". reflexivity.
  - destruct m as [|x m]; [eexists; reflexivity|].
    cbn in E, Hm. injection E as <- ->.
    apply andb_prop in Hm as [_ Hm].
    destruct (IH m post Hm eq_refl) as [post' ->].
    exists post'. reflexivity.
  - destruct m as [|x m]; [eexists; reflexivity|].
    cbn in E, Hm. injection E as <- _. discriminate.
Qed.

Lemma repl_dash_contains (old s t : string) :
  repl old "-" s t -> contains_time_token t -> contains_time_token s.
Proof.
  intros Hr.
  assert (Hfront : forall m post, time_token m -> t = m ++ post ->
                     contains_time_token s).
  { intros m post Ht E.
    destruct (repl_dash_prefix _ _ _ Hr m post (time_token_dash_free _ Ht) E)
      as [post' ->].
    exists "", m, post'. now split. }
  induction Hr as [|c s t Hr IH|s t Hr IH];
    intros (pre & m & post & E & Ht);
    (destruct pre as [|p pre]; [now apply (Hfront m post)|]).
  - discriminate.
  - cbn in E. injection E as -> ->.
    destruct IH as (pre' & m' & post' & -> & Ht').
    + intros m0 post0 Ht0 E0.
      destruct (repl_dash_prefix _ _ _ Hr m0 post0
                  (time_token_dash_free _ Ht0) E0) as [post' ->].
      exists "", m0, post'. now split.
    + exists pre, m, post. now split.
    + exists (String p pre'), m', post'. now split.
  - cbn in E. injection E as _ ->.
    destruct IH as (pre' & m' & post' & -> & Ht').
    + intros m0 post0 Ht0 E0.
      destruct (repl_dash_prefix _ _ _ Hr m0 post0
                  (time_token_dash_free _ Ht0) E0) as [post' ->].
      exists "", m0, post'. now split.
    + exists pre, m, post. now split.
    + exists (old ++ pre'), m', post'. split; [|exact Ht'].
      symmetry. apply append_assoc.
Qed.

Lemma normalized_has_match (time_str : string) :
  has_match (replace EM_DASH "-" (replace EN_DASH "-" time_str)) = true ->
  contains_time_token time_str.
Proof.
  intros H. apply has_match_contains in H.
  apply (repl_dash_contains _ _ _ (replace_repl _ _ _ _)) in H.
  apply (repl_dash_contains _ _ _ (replace_repl _ _ _ _)) in H.
  exact H.
Qed.

Lemma parse_time_range_malformed (time_str : string) :
  ~ contains_time_token time_str ->
  parse_time_range time_str
  = Raise (ValueError ("Format dheure inattendu: " ++ time_str)).
Proof.
  intros Hno. unfold parse_time_range.
  destruct (findall_time _) as [|g more] eqn:Hf; [reflexivity|].
  exfalso. apply Hno, normalized_has_match.
  apply (findall_has_match _ 0%nat). unfold findall_time in Hf.
  rewrite Hf. discriminate.
Qed.

Lemma bounds_loop_malformed (items : list TimelineItem) :
  (exists item, In item items /\ ~ contains_time_token (time item)) ->
  forall a b, exists msg, bounds_loop items a b = Raise (ValueError msg).
Proof.
  induction items as [|it rest IH]; intros (item & Hin & Hbad) a b.
  - destruct Hin.
  - cbn [bounds_loop].
    destruct (parse_time_range (time it)) as [[s0 e0]|e] eqn:Hp.
    + cbn [bind]. apply IH. destruct Hin as [->|Hin].
      * rewrite (parse_time_range_malformed _ Hbad) in Hp. discriminate.
      * exists item. now split.
    + cbn [bind]. unfold parse_time_range in Hp.
      destruct (findall_time _) as [|[h m] more]; [|discriminate].
      injection Hp as <-. eauto.
Qed.

(** The digits of every script count: the Arabic-Indic text of 12h30 is a
    time token, read as 12:30 with the default hour after it. *)
Lemma arabic_indic_token : time_token arabic_indic_12h30.
Proof.
  apply (token_HH (arabic_indic 1) (arabic_indic 2) (arabic_indic 3)
           (arabic_indic 0)); eexists; reflexivity.
Qed.

Lemma parse_time_range_arabic_indic :
  parse_time_range arabic_indic_12h30 = Ok (750, 810).
Proof. reflexivity. Qed.

(** C7.  [parse_time_range] raises [ValueError] on every string without a
    substring of the shape H[H]hMM, H and M being decimal digits of any
    script, and [get_day_time_bounds] then raises [ValueError] on every day
    whose timeline holds such a string: no default is substituted. *)
Theorem malformed_time_is_an_error (time_str : string) :
  ~ contains_time_token time_str ->
  parse_time_range time_str
  = Raise (ValueError ("Format dheure inattendu: " ++ time_str))
  /\ forall day item,
       In item (timeline day) -> time item = time_str ->
       exists msg, get_day_time_bounds day = Raise (ValueError msg).
Proof.
  intros Hno. split; [now apply parse_time_range_malformed|].
  intros day item Hin Ht. unfold get_day_time_bounds.
  destruct (bounds_loop_malformed (timeline day)) with (a := @None Z)
    (b := @None Z) as [msg ->].
  - exists item. split; [exact Hin|]. now rewrite Ht.
  - exists msg. reflexivity.
Qed.

Lemma malformed_time_is_an_error_witness :
  parse_time_range "abc" = Raise (ValueError "Format dheure inattendu: abc")
  /\ exists msg, get_day_time_bounds day_abc = Raise (ValueError msg).
Proof.
  assert (Hno : ~ contains_time_token "abc").
  { intros H. apply contains_has_match in H. vm_compute in H. discriminate. }
  destruct (malformed_time_is_an_error "abc" Hno) as [Hp Hd].
  split; [exact Hp|].
  apply (Hd day_abc (Build_TimelineItem "abc" "" "")); [|reflexivity].
  left. reflexivity.
Defined.

(** ** Travel times *)

Lemma haversine_km_sym (p q : R * R) : haversine_km p q = haversine_km q p.
Proof.
  unfold haversine_km. do 3 f_equal.
  replace ((radians (fst p) - radians (fst q)) / 2)%R
    with (- ((radians (fst q) - radians (fst p)) / 2))%R by lra.
  replace ((radians (snd p) - radians (snd q)) / 2)%R
    with (- ((radians (snd q) - radians (snd p)) / 2))%R by lra.
  rewrite !sin_neg. f_equal. ring.
Qed.

Lemma distance_between_pair_sym (a b : string) :
  distance_between_pair a b = distance_between_pair b a.
Proof.
  unfold distance_between_pair. rewrite (String.eqb_sym b a).
  destruct (a =? b)%string; [reflexivity|].
  destruct (LOCATION_MAP_get a) as [la|], (LOCATION_MAP_get b) as [lb|];
    try reflexivity.
  apply haversine_km_sym.
Qed.

(** C5.  A place is at travel time 0 from itself, and the estimate does not
    depend on the direction whenever the override table has no entry for the
    pair in either order. *)
Theorem estimate_travel_minutes_symmetric (a b : string) :
  estimate_travel_minutes a a = 0
  /\ (pair_get TRANSIT_OVERRIDES (a, b) = None ->
      pair_get TRANSIT_OVERRIDES (b, a) = None ->
      estimate_travel_minutes a b = estimate_travel_minutes b a).
Proof.
  unfold estimate_travel_minutes. split.
  - now rewrite String.eqb_refl.
  - intros Hab Hba. rewrite Hab, Hba, (String.eqb_sym b a).
    destruct (a =? b)%string; [reflexivity|].
    rewrite (distance_between_pair_sym b a).
    destruct (LOCATION_MAP_get a) as [la|], (LOCATION_MAP_get b) as [lb|];
      try reflexivity.
    now rewrite (andb_comm (walkable (category lb))).
Qed.

Lemma estimate_travel_minutes_symmetric_witness :
  estimate_travel_minutes "Soho" "Soho" = 0
  /\ estimate_travel_minutes "Soho" "Harrods"
     = estimate_travel_minutes "Harrods" "Soho".
Proof.
  destruct (estimate_travel_minutes_symmetric "Soho" "Harrods") as [H0 Hs].
  split; [exact H0|]. apply Hs; reflexivity.
Defined.

(** ** The day scheduler *)

Lemma py_int_nonneg (x : R) : (0 <= x)%R -> 0 <= py_int x.
Proof.
  intros Hx. unfold py_int. destruct (Rle_dec 0 x) as [_|]; [|contradiction].
  unfold Int_part. destruct (archimed x) as [Hup _].
  assert (H : (IZR 0 < IZR (up x))%R) by lra.
  apply lt_IZR in H. lia.
Qed.

Lemma overrides_positive (k : string * string) (v : Z) :
  pair_get TRANSIT_OVERRIDES k = Some v -> 0 < v.
Proof.
  unfold TRANSIT_OVERRIDES. cbn [pair_get].
  repeat (destruct (_ && _)%bool; [intros [= <-]; lia|]).
  discriminate.
Qed.

Lemma estimate_travel_minutes_nonneg (a b : string) :
  0 <= estimate_travel_minutes a b.
Proof.
  unfold estimate_travel_minutes.
  destruct (a =? b)%string eqn:Hab; [lia|].
  destruct (pair_get TRANSIT_OVERRIDES (a, b)) as [v|] eqn:H1.
  { apply overrides_positive in H1. lia. }
  destruct (pair_get TRANSIT_OVERRIDES (b, a)) as [v|] eqn:H2.
  { apply overrides_positive in H2. lia. }
  unfold distance_between_pair. rewrite Hab.
  destruct (LOCATION_MAP_get a) as [la|], (LOCATION_MAP_get b) as [lb|];
    try lia;
    (assert (0 <= py_int (999.0 / 4.5 * 60)) by (apply py_int_nonneg; lra);
     lia).
Qed.

Ltac seg_simpl :=
  cbn [start end_ seg_title location details segment_type
       current_time previous segments].

Lemma chain_app (a b c : Z) (l l' : list Segment) :
  chain a l b -> chain b l' c -> chain a (l ++ l') c.
Proof.
  induction 1 as [t|s rest t Hs _ IH]; intros H'; [exact H'|].
  cbn. constructor; [exact Hs|]. now apply IH.
Qed.

Lemma chain_seg (a b t : Z) (ttl loc det ty : string) (rest : list Segment) :
  a <= b -> chain b rest t ->
  chain a (Build_Segment a b ttl loc det ty :: rest) t.
Proof.
  intros H C. now apply (chain_cons (Build_Segment a b ttl loc det ty)).
Qed.

Lemma chain_one (a b : Z) (ttl loc det ty : string) :
  a <= b -> chain a [Build_Segment a b ttl loc det ty] b.
Proof.
  intros H. apply (chain_cons (Build_Segment a b ttl loc det ty));
    [exact H|constructor].
Qed.

Lemma chain_two (a b c : Z) (ttl loc det ty ttl' loc' det' ty' : string) :
  a <= b -> b <= c ->
  chain a [Build_Segment a b ttl loc det ty;
           Build_Segment b c ttl' loc' det' ty'] c.
Proof.
  intros H H'. apply (chain_cons (Build_Segment a b ttl loc det ty));
    [exact H|now apply chain_one].
Qed.

Section Blocks.
Variables (day_theme : string) (end_time : Z) (visits : list string).

Local Abbreviation kind := (seg_kind day_theme end_time visits).
Local Abbreviation ext := (extends day_theme end_time visits).

Lemma extends_refl (st : sched) : ext st st.
Proof.
  exists []. rewrite app_nil_r. repeat split; constructor.
Qed.

Lemma extends_trans (st1 st2 st3 : sched) :
  ext st1 st2 -> ext st2 st3 -> ext st1 st3.
Proof.
  intros (l & E & C & F) (l' & E' & C' & F').
  exists (l ++ l')%list. rewrite E', E, app_assoc. repeat split.
  - exact (chain_app _ _ _ _ _ C C').
  - apply Forall_app. now split.
Qed.

(** Appending one segment that starts at the clock. *)
Lemma extends_one (st : sched) (t' : Z) (p ttl loc det ty : string) :
  current_time st <= t' ->
  kind (Build_Segment (current_time st) t' ttl loc det ty) ->
  ext st (Build_sched t' p
            (segments st ++ [Build_Segment (current_time st) t' ttl loc det ty])).
Proof.
  intros Hle Hk. eexists [_]. cbn [segments current_time].
  repeat split.
  - now apply chain_one.
  - now constructor.
Qed.

Lemma visit_body_extends (next_loc : string) (st st' : sched) :
  In next_loc visits ->
  visit_body end_time next_loc st = Next st' -> ext st st'.
Proof.
  intros Hin. unfold visit_body.
  destruct (LOCATION_MAP_get next_loc) as [loc_info|] eqn:Hget.
  2:{ intros [= <-]. apply extends_refl. }
  pose proof (estimate_travel_minutes_nonneg (previous st) next_loc) as Hpos.
  set (travel := estimate_travel_minutes (previous st) next_loc) in *.
  destruct (Z.gtb_spec (current_time st + travel) end_time) as [|Hfit];
    [discriminate|].
  set (st1 := if travel =? 0 then st else _).
  assert (H1 : ext st st1 /\ current_time st1 <= end_time).
  { subst st1. destruct (Z.eqb_spec travel 0) as [E|_].
    - split; [apply extends_refl|lia].
    - split; [|seg_simpl; lia].
      apply extends_one; [lia|].
      now apply (kind_transfer _ _ _ _ next_loc). }
  destruct H1 as [H1 Hclock]. clearbody st1.
  set (vd0 := if (category loc_info =? "food")%string then _ else _).
  set (vd := if current_time st1 + vd0 >? end_time then _ else _).
  assert (Hvd : current_time st1 + vd <= Z.max end_time (current_time st1 + 30)).
  { subst vd. destruct (Z.gtb_spec (current_time st1 + vd0) end_time); lia. }
  destruct (Z.leb_spec vd 0) as [|Hvd0]; intros [= <-]; [exact H1|].
  apply (extends_trans _ _ _ H1).
  apply extends_one; [lia|].
  apply (kind_visit _ _ _ _ next_loc loc_info); seg_simpl; auto.
Qed.

Lemma visit_loop_extends (order : list string) :
  incl order visits ->
  forall st, ext st (visit_loop end_time order st).
Proof.
  induction order as [|n rest IH]; intros Hincl st;
    [apply extends_refl|].
  cbn [visit_loop].
  destruct (visit_body end_time n st) as [|st'] eqn:Hb;
    [apply extends_refl|].
  apply (extends_trans _ st').
  - apply (visit_body_extends n); [|exact Hb]. apply Hincl. now left.
  - apply IH. intros x Hx. apply Hincl. now right.
Qed.

Lemma return_transfer_extends (st : sched) : ext st (return_transfer st).
Proof.
  unfold return_transfer.
  pose proof (estimate_travel_minutes_nonneg (previous st) HOTEL_NAME).
  apply extends_one; [lia|].
  apply kind_fixed; cbn; tauto.
Qed.

Lemma extends_closes (st st' : sched) :
  ext st st' -> closes day_theme end_time visits st st'.
Proof. intros (l & E & C & F). exists l, (current_time st'). tauto. Qed.

Lemma closing_evening_closes (st : sched) :
  closes day_theme end_time visits st (closing_evening end_time st).
Proof.
  unfold closing_evening.
  destruct (negb _); [|apply extends_closes, extends_refl].
  destruct (return_transfer_extends st) as (l & E & C & F).
  destruct (Z.ltb_spec (current_time (return_transfer st)) end_time) as [Hlt|].
  2:{ exists l, (current_time (return_transfer st)). tauto. }
  exists (l ++ [Build_Segment (current_time (return_transfer st)) end_time
                 "Fin de soiree detendue" HOTEL_NAME
                 "Temps libre pour un verre ou repos." "buffer"])%list,
    end_time.
  cbn [segments]. rewrite E, app_assoc. repeat split.
  - apply (chain_app _ _ _ _ _ C).
    apply chain_one. lia.
  - apply Forall_app. split; [exact F|]. constructor; [|constructor].
    now apply kind_buffer.
Qed.

Lemma closing_departure_closes (st : sched) :
  closes day_theme end_time visits st (closing_departure st).
Proof.
  unfold closing_departure.
  set (st1 := if negb _ then _ else st).
  assert (H1 : ext st st1).
  { subst st1. destruct (negb _);
      [apply return_transfer_extends|apply extends_refl]. }
  clearbody st1. destruct H1 as (l & E & C & F).
  pose proof (estimate_travel_minutes_nonneg HOTEL_NAME "Heathrow Airport").
  set (transfer := estimate_travel_minutes _ _) in *.
  eexists (l ++ [_; _])%list, _.
  cbn [segments]. rewrite E, <- !app_assoc. cbn [app]. repeat split.
  - apply (chain_app _ _ _ _ _ C).
    apply chain_two; lia.
  - apply Forall_app. split; [exact F|].
    apply Forall_cons; [apply kind_fixed; cbn; tauto|].
    apply Forall_cons; [apply kind_fixed; cbn; tauto|apply Forall_nil].
Qed.

Lemma extends_then_closes (st1 st2 st3 : sched) :
  ext st1 st2 -> closes day_theme end_time visits st2 st3 ->
  closes day_theme end_time visits st1 st3.
Proof.
  intros (l & E & C & F) (l' & t & E' & C' & F').
  exists (l ++ l')%list, t. rewrite E', E, app_assoc. repeat split.
  - exact (chain_app _ _ _ _ _ C C').
  - apply Forall_app. now split.
Qed.

Lemma arrival_prologue_eq (st : sched) :
  arrival_prologue st
  = Ok (Build_sched (current_time st + 30 + 75 + 45) HOTEL_NAME
          (segments st ++ arrival_segments (current_time st))).
Proof.
  unfold arrival_prologue.
  replace (LOCATION_MAP_getitem "Heathrow Airport")
    with (Ok (_loc "Heathrow Airport" 51.4700 (-0.4543) "transport" 30
                ["heathrow"; "arrivee heathrow"] "")) by reflexivity.
  replace (LOCATION_MAP_getitem HOTEL_NAME)
    with (Ok (_loc "citizenM London Bankside" 51.5055 (-0.0993) "hotel" 30
                ["citizenm"; "citizenm bankside"; "citizenm london bankside"]
                "")) by reflexivity.
  cbn [bind default_duration _loc].
  replace (estimate_travel_minutes "Heathrow Airport" HOTEL_NAME) with 75
    by reflexivity.
  rewrite <- !app_assoc. reflexivity.
Qed.

Lemma arrival_prologue_extends (st : sched) :
  day_theme = "arrival" ->
  ext st (Build_sched (current_time st + 30 + 75 + 45) HOTEL_NAME
            (segments st ++ arrival_segments (current_time st))).
Proof.
  intros Hth. exists (arrival_segments (current_time st)).
  cbn [segments current_time]. repeat split.
  - unfold arrival_segments.
    apply chain_seg; [lia|]. apply chain_two; lia.
  - unfold arrival_segments.
    apply Forall_cons; [apply kind_fixed; cbn; tauto|].
    apply Forall_cons; [apply kind_fixed; cbn; tauto|].
    apply Forall_cons; [now apply kind_checkin|apply Forall_nil].
Qed.
End Blocks.

Lemma closing_closes (day_theme : string) (end_time : Z)
  (visits : list string) (st : sched) :
  let st1 := if negb (day_theme =? "departure")%string
             then closing_evening end_time st else st in
  let st2 := if (day_theme =? "departure")%string
             then closing_departure st1 else st1 in
  closes day_theme end_time visits st st2.
Proof.
  destruct (day_theme =? "departure")%string; cbn [negb].
  - apply closing_departure_closes.
  - apply closing_evening_closes.
Qed.

(** What [build_day_schedule] returns once the bounds are known: segments
    laid end to end from the start bound, each of a known kind; on an
    arrival day the first three are the arrival segments. *)
Lemma build_day_schedule_spec (day : DaySection) (s e : Z) :
  get_day_time_bounds day = Ok (s, e) ->
  exists segs t,
    build_day_schedule day = Ok segs
    /\ chain s segs t
    /\ Forall (seg_kind (theme day) e (visits_of day)) segs
    /\ (theme day = "arrival" ->
        exists rest, segs = (arrival_segments s ++ rest)%list).
Proof.
  intros Hb. unfold build_day_schedule. rewrite Hb. cbn [bind].
  fold (visits_of day).
  set (st0 := Build_sched s HOTEL_NAME []).
  assert (Hst : exists st1,
             (if (theme day =? "arrival")%string then arrival_prologue st0
              else Ok st0) = Ok st1
             /\ extends (theme day) e (visits_of day) st0 st1
             /\ (theme day = "arrival" -> segments st1 = arrival_segments s)).
  { destruct (String.eqb_spec (theme day) "arrival") as [Ha|Hna].
    - rewrite arrival_prologue_eq. eexists. split; [reflexivity|]. split.
      + now apply arrival_prologue_extends.
      + reflexivity.
    - exists st0. split; [reflexivity|]. split; [apply extends_refl|].
      intros Ha. contradiction. }
  destruct Hst as (st1 & -> & Hext & Harr). cbn [bind].
  pose proof (visit_loop_extends (theme day) e (visits_of day) (visits_of day)
                (incl_refl _) st1) as Hloop.
  set (st2 := visit_loop e (visits_of day) st1) in *.
  pose proof (closing_closes (theme day) e (visits_of day) st2) as Hclose.
  cbv zeta in Hclose.
  set (st3 := if (theme day =? "departure")%string then _ else _) in *.
  clearbody st3 st2.
  pose proof (extends_then_closes _ _ _ _ _ _ Hloop Hclose) as H13.
  pose proof (extends_then_closes _ _ _ _ _ _ Hext H13) as H03.
  destruct H03 as (added & t & E & C & F).
  exists (segments st3), t. subst st0.
  cbn [segments current_time app] in E, C. rewrite E.
  repeat split; try assumption.
  intros Ha. destruct H13 as (rest & _ & E' & _).
  exists rest. rewrite <- E, E', (Harr Ha). reflexivity.
Qed.

Lemma build_day_schedule_raises (day : DaySection) (x : exn) :
  get_day_time_bounds day = Raise x -> build_day_schedule day = Raise x.
Proof. intros H. unfold build_day_schedule. now rewrite H. Qed.

Lemma chain_adjacent (a b : Z) (l : list Segment) :
  chain a l b ->
  forall i x y, nth_error l i = Some x -> nth_error l (S i) = Some y ->
                end_ x = start y.
Proof.
  induction 1 as [t|s rest t Hs C IH]; intros i x y Hx Hy.
  - destruct i; discriminate.
  - destruct i as [|i].
    + cbn in Hx, Hy. injection Hx as <-.
      destruct rest as [|s' rest']; [discriminate|].
      cbn in Hy. injection Hy as <-. now inversion C.
    + cbn in Hx, Hy. exact (IH i x y Hx Hy).
Qed.

Lemma chain_forward (a b : Z) (l : list Segment) :
  chain a l b -> forall x, In x l -> start x <= end_ x.
Proof.
  induction 1 as [t|s rest t Hs C IH]; intros x Hx; [destruct Hx|].
  destruct Hx as [<-|Hx]; [exact Hs|now apply IH].
Qed.

(** C8.  Whenever the time bounds of the day can be computed the scheduler
    returns a list of segments in which each segment ends where the next one
    starts and no segment ends before it starts; otherwise it raises the
    error of the bounds. *)
Theorem schedule_contiguous (day : DaySection) :
  match build_day_schedule day with
  | Ok segs =>
      (forall i x y, nth_error segs i = Some x ->
                     nth_error segs (S i) = Some y -> end_ x = start y)
      /\ (forall x, In x segs -> start x <= end_ x)
  | Raise err => get_day_time_bounds day = Raise err
  end.
Proof.
  destruct (get_day_time_bounds day) as [[s e]|err] eqn:Hb.
  - destruct (build_day_schedule_spec day s e Hb) as (segs & t & -> & C & _).
    split; [exact (chain_adjacent _ _ _ C)|exact (chain_forward _ _ _ C)].
  - now rewrite (build_day_schedule_raises day err Hb).
Qed.

(** C4.  On an arrival day whose bounds are [(s, e)] the schedule opens with
    the airport segment, the transfer to the hotel lasting the 75 minutes of
    the override table, and a hotel check-in visit of 45 minutes; every other
    segment comes after these three. *)
Theorem arrival_day_opening (day : DaySection) (s e : Z) :
  theme day = "arrival" ->
  get_day_time_bounds day = Ok (s, e) ->
  pair_get TRANSIT_OVERRIDES ("Heathrow Airport", HOTEL_NAME) = Some 75
  /\ exists rest,
       build_day_schedule day
       = Ok (Build_Segment s (s + 30) "Arrivee a Heathrow" "Heathrow Airport"
               "Formalites et recuperation des valises." "transport"
             :: Build_Segment (s + 30) (s + 30 + 75) "Vers l'hotel"
                  "Heathrow Airport -> citizenM London Bankside"
                  "Heathrow Express jusqu'a Paddington puis taxi/metro (75 min)."
                  "transfer"
             :: Build_Segment (s + 30 + 75) (s + 30 + 75 + 45)
                  "Installation a l'hotel" HOTEL_NAME
                  "Check-in et petite pause pour poser les valises." "visit"
             :: rest).
Proof.
  intros Ha Hb. split; [reflexivity|].
  destruct (build_day_schedule_spec day s e Hb) as (segs & t & -> & _ & _ & H).
  destruct (H Ha) as [rest ->]. exists rest. reflexivity.
Qed.

Lemma arrival_day_opening_witness :
  exists rest,
    build_day_schedule arrival_day
    = Ok (Build_Segment 900 930 "Arrivee a Heathrow" "Heathrow Airport"
            "Formalites et recuperation des valises." "transport"
          :: Build_Segment 930 1005 "Vers l'hotel"
               "Heathrow Airport -> citizenM London Bankside"
               "Heathrow Express jusqu'a Paddington puis taxi/metro (75 min)."
               "transfer"
          :: Build_Segment 1005 1050 "Installation a l'hotel" HOTEL_NAME
               "Check-in et petite pause pour poser les valises." "visit"
          :: rest).
Proof.
  exact (proj2 (arrival_day_opening arrival_day 900 1380 eq_refl eq_refl)).
Defined.

(** *** The places that get a visit *)

Lemma mem_In (x : string) (xs : list string) : mem x xs = true <-> In x xs.
Proof.
  induction xs as [|y ys IH]; cbn; [split; [discriminate|tauto]|].
  rewrite orb_true_iff, IH, String.eqb_eq. split; intros [H|H]; auto.
Qed.

(** A catalog entry that is neither transport nor hotel. *)
Lemma poi_loop_In (n : string) (locs : list string) :
  forall acc,
    In n (poi_loop locs acc) ->
    In n acc
    \/ (In n locs
        /\ exists info, LOCATION_MAP_get n = Some info
                        /\ mem (category info) ["transport"; "hotel"] = false).
Proof.
  induction locs as [|loc rest IH]; intros acc H; [now left|].
  cbn [poi_loop] in H.
  destruct (LOCATION_MAP_get loc) as [info|] eqn:Hget.
  - destruct (mem (category info) ["transport"; "hotel"]) eqn:Hcat.
    + destruct (IH _ H) as [|[Hin Hi]]; [now left|].
      right. split; [now right|exact Hi].
    + destruct (IH _ H) as [Hacc|[Hin Hi]].
      * apply in_app_or in Hacc as [|[<-|[]]]; [now left|].
        right. split; [now left|]. now exists info.
      * right. split; [now right|exact Hi].
  - destruct (IH _ H) as [|[Hin Hi]]; [now left|].
    right. split; [now right|exact Hi].
Qed.

Lemma poi_loop_keeps (n : string) (info : LocationInfo) (locs : list string) :
  LOCATION_MAP_get n = Some info ->
  mem (category info) ["transport"; "hotel"] = false ->
  forall acc, In n acc \/ In n locs -> In n (poi_loop locs acc).
Proof.
  intros Hget Hcat.
  induction locs as [|loc rest IH]; intros acc [H|H];
    try (now cbn); try destruct H as [->|H]; cbn [poi_loop].
  - destruct (LOCATION_MAP_get loc) as [i|]; [|now apply IH; left].
    destruct (mem (category i) _); apply IH; left; [exact H|].
    apply in_or_app. now left.
  - rewrite Hget, Hcat. apply IH. left. apply in_or_app. right. now left.
  - destruct (LOCATION_MAP_get loc) as [i|]; [|now apply IH; right].
    destruct (mem (category i) _); apply IH; now right.
Qed.

Lemma without_In (x n : string) (xs : list string) :
  In n (without x xs) <-> In n xs /\ n <> x.
Proof.
  unfold without. rewrite filter_In, negb_true_iff, String.eqb_neq. tauto.
Qed.

Lemma drop_shard_incl (n : string) (poi : list string) :
  In n (drop_shard poi) -> In n poi.
Proof.
  unfold drop_shard. destruct (_ && _); [|tauto].
  rewrite without_In. tauto.
Qed.

Lemma preferred_loop_In (n : string) (preferred poi : list string) :
  forall acc, In n (preferred_loop preferred poi acc) -> In n acc \/ In n poi.
Proof.
  induction preferred as [|p rest IH]; intros acc H; [now left|].
  cbn [preferred_loop] in H.
  destruct (mem p poi && negb (mem p acc)) eqn:Hc; [|exact (IH _ H)].
  destruct (IH _ H) as [Hacc|]; [|now right].
  apply in_app_or in Hacc as [|[<-|[]]]; [now left|].
  right. apply andb_prop in Hc as [Hc _]. now apply mem_In.
Qed.

Lemma remainder_loop_In (n : string) (poi : list string) :
  forall acc, In n (remainder_loop poi acc) -> In n acc \/ In n poi.
Proof.
  induction poi as [|p rest IH]; intros acc H; [now left|].
  cbn [remainder_loop] in H.
  destruct (negb (mem p acc)).
  - destruct (IH _ H) as [Hacc|]; [|right; now right].
    apply in_app_or in Hacc as [|[<-|[]]]; [now left|right; now left].
  - destruct (IH _ H) as [|]; [now left|right; now right].
Qed.

Lemma make_visits_order_In (n day_theme : string) (poi : list string) :
  In n (make_visits_order day_theme poi) ->
  In n poi \/ n = "Oblix at The Shard".
Proof.
  unfold make_visits_order.
  set (pref := match dict_get PREFERRED_ORDER day_theme with
               | Some l => l | None => [] end).
  assert (H : In n (remainder_loop poi (preferred_loop pref poi [])) ->
              In n poi).
  { intros H. apply remainder_loop_In in H as [H|]; [|assumption].
    apply preferred_loop_In in H as [[]|]. assumption. }
  destruct (_ && _); [|now left; apply H].
  intros Hin. apply in_app_or in Hin as [|[<-|[]]]; [left; now apply H|].
  now right.
Qed.

(** A place of [visits_of day] is a catalog entry that is neither transport
    nor hotel. *)
Lemma visits_of_category (day : DaySection) (n : string) (info : LocationInfo) :
  In n (visits_of day) -> LOCATION_MAP_get n = Some info ->
  mem (category info) ["transport"; "hotel"] = false.
Proof.
  intros Hin Hget. unfold visits_of in Hin.
  apply make_visits_order_In in Hin as [Hin| ->].
  - apply drop_shard_incl, poi_loop_In in Hin as [[]|[_ (i & Hi & Hc)]].
    rewrite Hget in Hi. now injection Hi as <-.
  - assert (E : option_map category (LOCATION_MAP_get "Oblix at The Shard")
                = Some "food") by reflexivity.
    rewrite Hget in E. cbn in E. injection E as ->. reflexivity.
Qed.

Lemma visits_of_no_shard (day : DaySection) :
  In "Oblix at The Shard" (locations day) ->
  In "The Shard" (locations day) ->
  ~ In "The Shard" (visits_of day).
Proof.
  intros Ho Hs Hin. unfold visits_of in Hin.
  apply make_visits_order_In in Hin as [Hin|]; [|discriminate].
  assert (Eo : exists i, LOCATION_MAP_get "Oblix at The Shard" = Some i
             /\ mem (category i) ["transport"; "hotel"] = false).
  { assert (E' : option_map category (LOCATION_MAP_get "Oblix at The Shard")
                 = Some "food") by reflexivity.
    destruct (LOCATION_MAP_get "Oblix at The Shard") as [i|]; [|discriminate].
    exists i. split; [reflexivity|].
    cbn in E'. injection E' as ->. reflexivity. }
  assert (Es : exists i, LOCATION_MAP_get "The Shard" = Some i
             /\ mem (category i) ["transport"; "hotel"] = false).
  { assert (E' : option_map category (LOCATION_MAP_get "The Shard")
                 = Some "landmark") by reflexivity.
    destruct (LOCATION_MAP_get "The Shard") as [i|]; [|discriminate].
    exists i. split; [reflexivity|].
    cbn in E'. injection E' as ->. reflexivity. }
  destruct Eo as (io & Ego & Eco), Es as (is_ & Egs & Ecs).
  unfold drop_shard in Hin.
  rewrite (proj2 (mem_In _ _)
             (poi_loop_keeps _ io (locations day) Ego Eco [] (or_intror Ho))),
          (proj2 (mem_In _ _)
             (poi_loop_keeps _ is_ (locations day) Egs Ecs [] (or_intror Hs)))
    in Hin.
  cbn [andb] in Hin. apply without_In in Hin as [_ Hne]. now apply Hne.
Qed.

(** A visit or meal segment is the hotel check-in of an arrival day or the
    visit of one of the candidate places. *)
Lemma visit_or_meal_inv (day_theme : string) (e : Z) (visits : list string)
  (x : Segment) :
  seg_kind day_theme e visits x ->
  In (segment_type x) ["visit"; "meal"] ->
  (day_theme = "arrival" /\ seg_title x = "Installation a l'hotel"
   /\ location x = HOTEL_NAME)
  \/ (exists n info,
        In n visits /\ LOCATION_MAP_get n = Some info
        /\ location x = n /\ seg_title x = n
        /\ start x <= e /\ end_ x <= Z.max e (start x + 30)).
Proof.
  intros [Ht Hty|Ha Ht Hl Hty|Hty He|n Ht Hty He|n info Hin Hg Hl Ht Hty Hs He]
    Hvm.
  - exfalso. cbn in Hty, Hvm.
    destruct Hty as [E|[E|[]]]; rewrite <- E in Hvm;
      destruct Hvm as [|[|[]]]; discriminate.
  - left. tauto.
  - exfalso. rewrite Hty in Hvm. destruct Hvm as [|[|[]]]; discriminate.
  - exfalso. rewrite Hty in Hvm. destruct Hvm as [|[|[]]]; discriminate.
  - right. exists n, info. tauto.
Qed.

(** C9.  When a day lists both "Oblix at The Shard" and "The Shard", the
    schedule (which exists as soon as the bounds do) has no visit or meal
    segment located at "The Shard". *)
Theorem shard_not_visited_with_oblix (day : DaySection) (s e : Z) :
  In "Oblix at The Shard" (locations day) ->
  In "The Shard" (locations day) ->
  get_day_time_bounds day = Ok (s, e) ->
  exists segs,
    build_day_schedule day = Ok segs
    /\ forall x, In x segs -> In (segment_type x) ["visit"; "meal"] ->
                 location x <> "The Shard".
Proof.
  intros Ho Hs Hb.
  destruct (build_day_schedule_spec day s e Hb) as (segs & t & -> & _ & F & _).
  exists segs. split; [reflexivity|]. intros x Hx Hvm Hloc.
  rewrite Forall_forall in F.
  destruct (visit_or_meal_inv _ _ _ _ (F x Hx) Hvm)
    as [(_ & _ & Hl)|(n & info & Hin & _ & Hl & _)].
  - rewrite Hl in Hloc. discriminate.
  - rewrite Hl in Hloc. subst n.
    exact (visits_of_no_shard day Ho Hs Hin).
Qed.

Lemma shard_not_visited_with_oblix_witness :
  exists segs,
    build_day_schedule shard_day = Ok segs
    /\ forall x, In x segs -> In (segment_type x) ["visit"; "meal"] ->
                 location x <> "The Shard".
Proof.
  apply (shard_not_visited_with_oblix shard_day 540 1290).
  - right. right. left. reflexivity.
  - left. reflexivity.
  - reflexivity.
Defined.

(** C10.  On a day whose theme is not "arrival", no visit or meal segment
    of the schedule (which exists as soon as the bounds do) is located at a
    catalog entry of category "transport" or "hotel". *)
Theorem no_visit_at_transport_or_hotel (day : DaySection) (s e : Z) :
  theme day <> "arrival" ->
  get_day_time_bounds day = Ok (s, e) ->
  exists segs,
    build_day_schedule day = Ok segs
    /\ forall x info,
         In x segs -> In (segment_type x) ["visit"; "meal"] ->
         LOCATION_MAP_get (location x) = Some info ->
         category info <> "transport" /\ category info <> "hotel".
Proof.
  intros Hna Hb.
  destruct (build_day_schedule_spec day s e Hb) as (segs & t & -> & _ & F & _).
  exists segs. split; [reflexivity|]. intros x info Hx Hvm Hget.
  rewrite Forall_forall in F.
  destruct (visit_or_meal_inv _ _ _ _ (F x Hx) Hvm)
    as [(Ha & _)|(n & info' & Hin & _ & Hl & _)]; [contradiction|].
  rewrite Hl in Hget.
  pose proof (visits_of_category day n info Hin Hget) as Hc.
  cbn [mem] in Hc. apply orb_false_elim in Hc as [H1 Hc].
  apply orb_false_elim in Hc as [H2 _].
  apply String.eqb_neq in H1, H2. now split.
Qed.

Lemma no_visit_at_transport_or_hotel_witness :
  exists segs,
    build_day_schedule pier_day = Ok segs
    /\ forall x info,
         In x segs -> In (segment_type x) ["visit"; "meal"] ->
         LOCATION_MAP_get (location x) = Some info ->
         category info <> "transport" /\ category info <> "hotel".
Proof.
  apply (no_visit_at_transport_or_hotel pier_day 540 1290).
  - discriminate.
  - reflexivity.
Defined.

(** C1, as the code has it.  In the schedule of a day with bounds [(s, e)]:
    a transfer towards a visit ("Trajet vers ...") ends by [e]; a visit or
    meal segment other than the hotel check-in starts by [e] and ends by [e]
    or, when it was cut to the 30-minute minimum, 30 minutes after its
    start; the closing buffer ends at [e].  The arrival segments, the
    return to the hotel and the departure segments are laid down without
    looking at [e]. *)
Theorem schedule_within_bounds (day : DaySection) (s e : Z) :
  get_day_time_bounds day = Ok (s, e) ->
  exists segs,
    build_day_schedule day = Ok segs
    /\ forall x, In x segs ->
         (segment_type x = "transfer" ->
          prefix "Trajet vers " (seg_title x) = true -> end_ x <= e)
         /\ (In (segment_type x) ["visit"; "meal"] ->
             seg_title x <> "Installation a l'hotel" ->
             start x <= e /\ end_ x <= Z.max e (start x + 30))
         /\ (segment_type x = "buffer" -> end_ x = e).
Proof.
  intros Hb.
  destruct (build_day_schedule_spec day s e Hb) as (segs & t & -> & _ & F & _).
  exists segs. split; [reflexivity|]. intros x Hx.
  rewrite Forall_forall in F. pose proof (F x Hx) as K. repeat split.
  - intros Hty Hp.
    destruct K as [Ht _|_ _ _ Hv|Hbuf _|n _ _ He|n info _ _ _ _ Hv _ _];
      try exact He; exfalso.
    + cbn in Ht. destruct Ht as [E|[E|[E|[E|[E|[]]]]]];
        rewrite <- E in Hp; discriminate.
    + rewrite Hv in Hty. discriminate.
    + rewrite Hbuf in Hty. discriminate.
    + rewrite Hv in Hty. destruct (category info =? "food")%string;
        discriminate.
  - destruct (visit_or_meal_inv _ _ _ _ K H) as [(_ & Ht & _)|(n & i & Hr)];
      [contradiction|tauto].
  - destruct (visit_or_meal_inv _ _ _ _ K H) as [(_ & Ht & _)|(n & i & Hr)];
      [contradiction|tauto].
  - intros Hty.
    destruct K as [_ Hv|_ _ _ Hv|_ He|n _ Hv _|n info _ _ _ _ Hv _ _];
      try exact He; exfalso.
    + rewrite Hty in Hv. cbn in Hv. destruct Hv as [|[|[]]]; discriminate.
    + rewrite Hv in Hty. discriminate.
    + rewrite Hv in Hty. discriminate.
    + rewrite Hv in Hty. destruct (category info =? "food")%string;
        discriminate.
Qed.

(** *** A short walk from the hotel *)

Lemma sin_sq_le (t : R) : ((sin t) ^ 2 <= t ^ 2)%R.
Proof.
  assert (Hpos : forall u, (0 <= u)%R -> (- u <= sin u <= u)%R).
  { intros u [Hu|<-]; [|rewrite sin_0; lra].
    split; [|left; now apply sin_lt_x].
    destruct (Rle_dec u PI) as [Hle|Hgt].
    - pose proof (sin_ge_0 u (Rlt_le _ _ Hu) Hle). lra.
    - pose proof (SIN_bound u). pose proof PI2_1. lra. }
  destruct (Rle_dec 0 t) as [Ht|Ht].
  - pose proof (Hpos t Ht). nra.
  - assert (Ht' : (0 <= - t)%R) by lra.
    pose proof (Hpos (- t)%R Ht') as H. rewrite sin_neg in H. nra.
Qed.

Lemma asin_sqrt_small (h c : R) :
  (0 < c <= 1)%R -> (h < (c - c ^ 3 / 6) ^ 2)%R -> (asin (sqrt h) < c)%R.
Proof.
  intros [Hc0 Hc1] Hh.
  assert (Hlow : (0 < c - c ^ 3 / 6)%R) by nra.
  assert (Hsin : (c - c ^ 3 / 6 <= sin c)%R).
  { destruct (pre_sin_bound c 0) as [H _]; [lra|lra|].
    unfold sin_approx, sin_term in H. cbn in H. lra. }
  assert (Hs : (0 <= sqrt h < sin c)%R).
  { split; [apply sqrt_pos|].
    destruct (Rle_dec h 0) as [Hn|Hp].
    - rewrite (sqrt_neg_0 h Hn). lra.
    - apply Rlt_le_trans with (2 := Hsin).
      rewrite <- (sqrt_pow2 (c - c ^ 3 / 6)) by lra.
      apply sqrt_lt_1_alt. lra. }
  pose proof (SIN_bound c) as Hb. pose proof PI2_1 as Hpi.
  pose proof (asin_bound (sqrt h)) as Ha.
  apply sin_increasing_0; try lra.
  rewrite sin_asin by lra. lra.
Qed.

(** The hotel and the coffee place next to it are less than 750 metres
    apart, so the transfer between them takes the minimum of 8 minutes. *)
Lemma hotel_to_cafe_near :
  (haversine_km (51.5055, -0.0993) (51.5066, -0.0999) < 0.75)%R.
Proof.
  unfold haversine_km, radians. cbn [fst snd].
  pose proof PI_RGT_0 as Hp0. pose proof PI_4 as Hp4.
  set (dlat := (51.5066 * (PI / 180) - 51.5055 * (PI / 180))%R).
  set (dlon := (-0.0999 * (PI / 180) - -0.0993 * (PI / 180))%R).
  set (h := ((sin (dlat / 2)) ^ 2
             + cos (51.5055 * (PI / 180)) * cos (51.5066 * (PI / 180))
               * (sin (dlon / 2)) ^ 2)%R).
  assert (Hh : (h <= (dlat / 2) ^ 2 + (dlon / 2) ^ 2)%R).
  { subst h. pose proof (sin_sq_le (dlat / 2)) as H1.
    pose proof (sin_sq_le (dlon / 2)) as H2.
    pose proof (pow2_ge_0 (sin (dlon / 2))) as H3.
    pose proof (COS_bound (51.5055 * (PI / 180))) as C1.
    pose proof (COS_bound (51.5066 * (PI / 180))) as C2.
    set (A := cos (51.5055 * (PI / 180))) in *.
    set (B := cos (51.5066 * (PI / 180))) in *.
    assert (HAB : (A * B <= 1)%R) by nra.
    nra. }
  assert (Hd : ((dlat / 2) ^ 2 + (dlon / 2) ^ 2 < 0.000000001)%R).
  { subst dlat dlon.
    replace ((51.5066 * (PI / 180) - 51.5055 * (PI / 180)) / 2)%R
      with (0.0011 / 360 * PI)%R by lra.
    replace ((-0.0999 * (PI / 180) - -0.0993 * (PI / 180)) / 2)%R
      with (- (0.0006 / 360) * PI)%R by lra.
    assert (HP : (PI ^ 2 <= 16)%R) by nra.
    nra. }
  assert (Ha : (asin (sqrt h) < 0.00005)%R).
  { apply asin_sqrt_small; [lra|].
    apply Rle_lt_trans with (1 := Hh). apply Rlt_trans with (1 := Hd).
    nra. }
  lra.
Qed.

Lemma py_int_below (x : R) (k : Z) :
  0 <= k -> (x < IZR (k + 1))%R -> py_int x <= k.
Proof.
  intros Hk Hx. unfold py_int. destruct (Rle_dec 0 x) as [H0|H0].
  - destruct (base_Int_part x) as [Hi _].
    assert (H : (IZR (Int_part x) < IZR (k + 1))%R) by lra.
    apply lt_IZR in H. lia.
  - destruct (base_Int_part (- x)) as [_ Hi].
    assert (H : (IZR (-1) < IZR (Int_part (- x)))%R) by (cbn; lra).
    apply lt_IZR in H. lia.
Qed.

Lemma hotel_cafe_8 :
  estimate_travel_minutes HOTEL_NAME cafe = 8
  /\ estimate_travel_minutes cafe HOTEL_NAME = 8.
Proof.
  assert (Hmin : py_int (haversine_km (51.5055, -0.0993) (51.5066, -0.0999)
                         / Rmax 5.0 0.1 * 60)%R <= 8).
  { apply py_int_below; [lia|]. rewrite Rmax_left by lra.
    pose proof hotel_to_cafe_near as Hn.
    change (8 + 1) with 9. lra. }
  split.
  - unfold estimate_travel_minutes, distance_between_pair.
    replace (HOTEL_NAME =? cafe)%string with false by reflexivity.
    replace (pair_get TRANSIT_OVERRIDES (HOTEL_NAME, cafe))
      with (@None Z) by reflexivity.
    replace (pair_get TRANSIT_OVERRIDES (cafe, HOTEL_NAME))
      with (@None Z) by reflexivity.
    replace (LOCATION_MAP_get HOTEL_NAME)
      with (Some (_loc "citizenM London Bankside" 51.5055%R (-0.0993)%R "hotel"
                    30 ["citizenm"; "citizenm bankside";
                        "citizenm london bankside"] "")) by reflexivity.
    replace (LOCATION_MAP_get cafe)
      with (Some (_loc "The Gentlemen Baristas Bankside" 51.5066%R (-0.0999)%R
                    "food" 30 ["gentlemen baristas"] "")) by reflexivity.
    unfold _loc. cbn [category lat lon].
    replace (walkable "hotel" && walkable "food") with false by reflexivity.
    cbv iota. lia.
  - unfold estimate_travel_minutes, distance_between_pair.
    replace (cafe =? HOTEL_NAME)%string with false by reflexivity.
    replace (pair_get TRANSIT_OVERRIDES (HOTEL_NAME, cafe))
      with (@None Z) by reflexivity.
    replace (pair_get TRANSIT_OVERRIDES (cafe, HOTEL_NAME))
      with (@None Z) by reflexivity.
    replace (LOCATION_MAP_get HOTEL_NAME)
      with (Some (_loc "citizenM London Bankside" 51.5055%R (-0.0993)%R "hotel"
                    30 ["citizenm"; "citizenm bankside";
                        "citizenm london bankside"] "")) by reflexivity.
    replace (LOCATION_MAP_get cafe)
      with (Some (_loc "The Gentlemen Baristas Bankside" 51.5066%R (-0.0999)%R
                    "food" 30 ["gentlemen baristas"] "")) by reflexivity.
    unfold _loc. cbn [category lat lon].
    replace (walkable "food" && walkable "hotel") with false by reflexivity.
    cbv iota. rewrite haversine_km_sym. lia.
Qed.

Lemma cafe_day_schedule :
  build_day_schedule cafe_day
  = Ok [Build_Segment 570 578 ("Trajet vers " ++ cafe)
          (HOTEL_NAME ++ " -> " ++ cafe)
          "Petite marche ou trajet rapide (<= 15 min)." "transfer";
        Build_Segment 578 653 cafe cafe "Pause gourmande en douceur." "meal";
        Build_Segment 653 661 "Retour a l'hotel"
          (cafe ++ " -> " ++ HOTEL_NAME)
          "Petite marche ou trajet rapide (<= 15 min)." "transfer";
        Build_Segment 661 1320 "Fin de soiree detendue" HOTEL_NAME
          "Temps libre pour un verre ou repos." "buffer"].
Proof.
  destruct hotel_cafe_8 as [H1 H2].
  unfold build_day_schedule.
  replace (get_day_time_bounds cafe_day) with (Ok (570, 1320)) by reflexivity.
  cbn [bind].
  replace (drop_shard (poi_loop (locations cafe_day) [])) with [cafe]
    by reflexivity.
  replace (theme cafe_day) with "mayfair" by reflexivity.
  replace (make_visits_order "mayfair" [cafe]) with [cafe] by reflexivity.
  replace ("mayfair" =? "arrival")%string with false by reflexivity.
  replace ("mayfair" =? "departure")%string with false by reflexivity.
  cbn [bind negb visit_loop]. unfold visit_body.
  replace (LOCATION_MAP_get cafe)
    with (Some (_loc "The Gentlemen Baristas Bankside" 51.5066%R (-0.0999)%R
                  "food" 30 ["gentlemen baristas"] "")) by reflexivity.
  cbn [previous current_time segments]. rewrite H1.
  replace (friendly_transfer_detail HOTEL_NAME cafe 8)
    with "Petite marche ou trajet rapide (<= 15 min)." by reflexivity.
  replace (describe_location cafe) with "Pause gourmande en douceur."
    by reflexivity.
  unfold _loc. cbn [category default_duration].
  replace ("food" =? "food")%string with true by reflexivity.
  cbv beta iota zeta.
  change (570 + 8 >? 1320) with false.
  change (8 =? 0) with false. cbv beta iota.
  cbn [current_time previous segments app].
  change (Z.max 75 30) with 75.
  change (570 + 8 + 75 >? 1320) with false. cbv beta iota.
  change (75 <=? 0) with false. cbv beta iota.
  unfold closing_evening. cbn [previous current_time segments app].
  replace (negb (cafe =? HOTEL_NAME)%string) with true by reflexivity.
  cbv beta iota. unfold return_transfer.
  cbn [previous current_time segments app]. rewrite H2.
  replace (friendly_transfer_detail cafe HOTEL_NAME 8)
    with "Petite marche ou trajet rapide (<= 15 min)." by reflexivity.
  reflexivity.
Qed.

Lemma schedule_within_bounds_witness :
  exists segs,
    build_day_schedule cafe_day = Ok segs
    /\ map (fun x => (start x, end_ x, segment_type x)) segs
       = [(570, 578, "transfer"); (578, 653, "meal");
          (653, 661, "transfer"); (661, 1320, "buffer")]
    /\ forall x, In x segs ->
         (segment_type x = "transfer" ->
          prefix "Trajet vers " (seg_title x) = true -> end_ x <= 1320)
         /\ (In (segment_type x) ["visit"; "meal"] ->
             seg_title x <> "Installation a l'hotel" ->
             start x <= 1320 /\ end_ x <= Z.max 1320 (start x + 30))
         /\ (segment_type x = "buffer" -> end_ x = 1320).
Proof.
  destruct (schedule_within_bounds cafe_day 570 1320 eq_refl)
    as (segs & Hs & Hall).
  exists segs. split; [exact Hs|]. split; [|exact Hall].
  rewrite cafe_day_schedule in Hs. injection Hs as <-. reflexivity.
Defined.

(** C1 as stated fails.  A departure day whose timeline has the single
    entry 7h00 has the bounds 7:00 - 8:00, and its schedule is the transfer
    to the airport ending at 8:15 and the formalities ending at 9:00. *)
Lemma schedule_within_bounds_counterexample :
  get_day_time_bounds departure_short = Ok (420, 480)
  /\ build_day_schedule departure_short
     = Ok [Build_Segment 420 495 "Transfert vers Heathrow"
             "citizenM London Bankside -> Heathrow Airport"
             "Heathrow Express jusqu'a Paddington puis taxi/metro (75 min)."
             "transfer";
           Build_Segment 495 540 "Formalites de depart" "Heathrow Airport"
             "Enregistrement et controle securite." "transport"]
  /\ ~ (495 <= 480).
Proof. repeat split. lia. Qed.

(** ** The deduplicator *)

(** *** Lists and indices *)

Lemma mem_occ (n : string) (d : DaySection) :
  mem n (locations d) = true <-> (0 < occ n d)%nat.
Proof.
  unfold occ. rewrite mem_In. apply count_occ_In.
Qed.

Lemma remove_first_same (n : string) (l : list string) :
  count_occ string_dec (remove_first n l) n
  = Nat.pred (count_occ string_dec l n).
Proof.
  induction l as [|y ys IH]; [reflexivity|]. cbn [remove_first].
  destruct (String.eqb_spec n y) as [->|Hne].
  - cbn. now destruct (string_dec y y).
  - cbn. destruct (string_dec y n) as [E|_]; [now subst|exact IH].
Qed.

Lemma remove_first_other (n m : string) (l : list string) :
  m <> n ->
  count_occ string_dec (remove_first n l) m = count_occ string_dec l m.
Proof.
  intros Hne. induction l as [|y ys IH]; [reflexivity|]. cbn [remove_first].
  destruct (String.eqb_spec n y) as [->|Hny].
  - cbn. now destruct (string_dec y m) as [E|_]; [subst|].
  - cbn. destruct (string_dec y m); now rewrite IH.
Qed.

Lemma getitem_nat {A : Type} (xs : list A) (i : nat) (a : A) :
  nth_error xs i = Some a -> getitem xs (Z.of_nat i) = Ok a.
Proof.
  intros H. unfold getitem.
  assert (Hlt : (i < List.length xs)%nat)
    by (apply nth_error_Some; congruence).
  destruct (Z.ltb_spec (Z.of_nat i) 0); [lia|].
  destruct (Z.ltb_spec (Z.of_nat i) 0); [lia|].
  destruct (Z.leb_spec (Z.of_nat (List.length xs)) (Z.of_nat i)); [lia|].
  cbn [orb]. now rewrite Nat2Z.id, H.
Qed.

Lemma setitem_nat {A : Type} (xs : list A) (i : nat) (a : A) :
  (i < List.length xs)%nat -> setitem xs (Z.of_nat i) a = set_nth xs i a.
Proof.
  intros Hlt. unfold setitem.
  destruct (Z.ltb_spec (Z.of_nat i) 0); [lia|].
  destruct (Z.ltb_spec (Z.of_nat i) 0); [lia|].
  destruct (Z.leb_spec (Z.of_nat (List.length xs)) (Z.of_nat i)); [lia|].
  cbn [orb]. now rewrite Nat2Z.id.
Qed.

Lemma set_nth_length {A : Type} (xs : list A) (i : nat) (a : A) :
  List.length (set_nth xs i a) = List.length xs.
Proof.
  revert i. induction xs as [|x xs IH]; intros [|i]; cbn; auto.
Qed.

Lemma set_nth_same {A : Type} (xs : list A) (i : nat) (a : A) :
  (i < List.length xs)%nat -> nth_error (set_nth xs i a) i = Some a.
Proof.
  revert i. induction xs as [|x xs IH]; intros [|i] H; cbn in *;
    try lia; auto. apply IH. lia.
Qed.

Lemma set_nth_other {A : Type} (xs : list A) (i j : nat) (a : A) :
  i <> j -> nth_error (set_nth xs i a) j = nth_error xs j.
Proof.
  revert i j. induction xs as [|x xs IH]; intros [|i] [|j] H; cbn;
    try congruence; auto.
Qed.

(** *** One pass of the inner loop *)

Lemma shrink_refl (days : list DaySection) : shrink days days.
Proof.
  split; [reflexivity|]. intros i d d' H H'. rewrite H in H'.
  injection H' as <-. repeat split; auto.
Qed.

Lemma shrink_trans (a b c : list DaySection) :
  shrink a b -> shrink b c -> shrink a c.
Proof.
  intros [Lab Hab] [Lbc Hbc]. split; [congruence|].
  intros i d d'' Ha Hc.
  destruct (nth_error b i) as [d'|] eqn:Hb.
  2:{ apply nth_error_None in Hb.
      assert (i < List.length a)%nat by (apply nth_error_Some; congruence).
      lia. }
  destruct (Hab i d d' Ha Hb) as (I1 & T1 & O1).
  destruct (Hbc i d' d'' Hb Hc) as (I2 & T2 & O2).
  repeat split; try congruence.
  - destruct (O1 m), (O2 m). lia.
  - intros Hs. destruct (O1 m) as [_ E1], (O2 m) as [_ E2].
    rewrite (E2 Hs). exact (E1 Hs).
Qed.

Lemma well_indexed_set_nth (days : list DaySection) (i : nat)
  (d d1 : DaySection) :
  well_indexed days -> nth_error days i = Some d -> index d1 = index d ->
  well_indexed (set_nth days i d1).
Proof.
  intros W Hd Hi j x Hx.
  assert (Hlt : (i < List.length days)%nat)
    by (apply nth_error_Some; congruence).
  destruct (Nat.eq_dec i j) as [<-|Hne].
  - rewrite (set_nth_same _ _ _ Hlt) in Hx. injection Hx as <-.
    rewrite Hi. exact (W i d Hd).
  - rewrite (set_nth_other _ _ _ _ Hne) in Hx. exact (W j x Hx).
Qed.

(** The day after [day.locations.remove(n)] and the audit append. *)
Lemma strip_one_shrink (n : string) (days : list DaySection) (i : nat)
  (d : DaySection) :
  skip_dedup n = false ->
  nth_error days i = Some d ->
  shrink days
    (set_nth days i
       (set_removed_duplicates
          (set_locations d (remove_first n (locations d)))
          (removed_duplicates d ++ [n])%list)).
Proof.
  intros Hskip Hd.
  assert (Hlt : (i < List.length days)%nat)
    by (apply nth_error_Some; congruence).
  split; [apply set_nth_length|]. intros j x x' Hx Hx'.
  destruct (Nat.eq_dec i j) as [<-|Hne].
  - rewrite (set_nth_same _ _ _ Hlt) in Hx'. injection Hx' as <-.
    rewrite Hd in Hx. injection Hx as <-.
    repeat split; unfold occ; cbn [locations set_removed_duplicates
                                     set_locations].
    + destruct (string_dec m n) as [->|Hmn].
      * rewrite remove_first_same. lia.
      * rewrite (remove_first_other _ _ _ Hmn). lia.
    + intros Hs. apply remove_first_other. congruence.
  - rewrite (set_nth_other _ _ _ _ Hne) in Hx'. rewrite Hx in Hx'.
    injection Hx' as <-. repeat split; auto.
Qed.

Lemma strip_loop_spec (n : string) (best : Z) :
  skip_dedup n = false ->
  forall idxs days,
    well_indexed days ->
    (forall idx, In idx idxs ->
       exists i, idx = Z.of_nat i /\ (i < List.length days)%nat) ->
    exists days',
      strip_loop n best idxs days = Ok days'
      /\ well_indexed days'
      /\ shrink days days'
      /\ forall i d d',
           nth_error days i = Some d -> nth_error days' i = Some d' ->
           Z.of_nat i <> best -> exempt n d = false ->
           occ n d' = (occ n d - cnt (Z.of_nat i) idxs)%nat.
Proof.
  intros Hskip. induction idxs as [|idx rest IH]; intros days W Hvalid.
  { exists days. split; [reflexivity|]. split; [exact W|].
    split; [apply shrink_refl|]. intros i d d' H H' _ _.
    rewrite H in H'. injection H' as <-. cbn. lia. }
  assert (Hrest : forall days1 : list DaySection,
            List.length days1 = List.length days ->
            forall idx', In idx' rest ->
              exists i, idx' = Z.of_nat i /\ (i < List.length days1)%nat).
  { intros days1 L idx' Hin. rewrite L. apply Hvalid. now right. }
  destruct (Hvalid idx (or_introl eq_refl)) as (i0 & -> & Hlt).
  cbn [strip_loop]. unfold cnt. cbn [count_occ]. fold (cnt).
  destruct (Z.eqb_spec (Z.of_nat i0) best) as [Hb|Hnb].
  { destruct (IH days W (Hrest days eq_refl)) as (days' & E & W' & S & C).
    exists days'. split; [exact E|]. split; [exact W'|]. split; [exact S|].
    intros i d d' H H' Hib Hex. rewrite (C i d d' H H' Hib Hex).
    destruct (Z.eq_dec (Z.of_nat i0) (Z.of_nat i)); [congruence|reflexivity]. }
  destruct (nth_error days i0) as [d0|] eqn:Hd0.
  2:{ apply nth_error_None in Hd0. lia. }
  rewrite (getitem_nat _ _ _ Hd0). cbn [bind]. fold (exempt n d0).
  destruct (exempt n d0) eqn:Hex0.
  { destruct (IH days W (Hrest days eq_refl)) as (days' & E & W' & S & C).
    exists days'. split; [exact E|]. split; [exact W'|]. split; [exact S|].
    intros i d d' H H' Hib Hex. rewrite (C i d d' H H' Hib Hex).
    destruct (Z.eq_dec (Z.of_nat i0) (Z.of_nat i)) as [E0|]; [|reflexivity].
    apply Nat2Z.inj in E0. subst i0. congruence. }
  destruct (mem n (locations d0)) eqn:Hmem.
  - rewrite (setitem_nat _ _ _ Hlt).
    set (d1 := set_removed_duplicates _ _).
    pose proof (strip_one_shrink n days i0 d0 Hskip Hd0) as S1.
    fold d1 in S1.
    assert (W1 : well_indexed (set_nth days i0 d1))
      by (apply (well_indexed_set_nth days i0 d0); auto).
    destruct (IH _ W1 (Hrest _ (set_nth_length _ _ _)))
      as (days' & E & W' & S & C).
    exists days'. split; [exact E|]. split; [exact W'|].
    split; [exact (shrink_trans _ _ _ S1 S)|].
    intros i d d' H H' Hib Hex.
    destruct (Nat.eq_dec i0 i) as [<-|Hne].
    + rewrite Hd0 in H. injection H as <-.
      rewrite (C i0 d1 d' (set_nth_same _ _ _ Hlt) H' Hib Hex0).
      unfold occ at 1. subst d1.
      cbn [locations set_removed_duplicates set_locations].
      rewrite remove_first_same. fold (occ n d0).
      destruct (Z.eq_dec (Z.of_nat i0) (Z.of_nat i0));
        [unfold cnt; lia|contradiction].
    + assert (H1 : nth_error (set_nth days i0 d1) i = Some d)
        by (now rewrite (set_nth_other _ _ _ _ Hne)).
      rewrite (C i d d' H1 H' Hib Hex).
      destruct (Z.eq_dec (Z.of_nat i0) (Z.of_nat i)) as [E0|]; [|reflexivity].
      apply Nat2Z.inj in E0. contradiction.
  - destruct (IH days W (Hrest days eq_refl)) as (days' & E & W' & S & C).
    exists days'. split; [exact E|]. split; [exact W'|]. split; [exact S|].
    intros i d d' H H' Hib Hex. rewrite (C i d d' H H' Hib Hex).
    destruct (Z.eq_dec (Z.of_nat i0) (Z.of_nat i)) as [E0|]; [|reflexivity].
    apply Nat2Z.inj in E0. subst i0. rewrite Hd0 in H. injection H as <-.
    assert (occ n d0 = 0%nat).
    { destruct (occ n d0) eqn:Ho; [reflexivity|].
      assert (Hm : mem n (locations d0) = true)
        by (apply mem_occ; lia). congruence. }
    lia.
Qed.

(** *** The winner and the centroids *)

Lemma keyed_ok (n : string) (cs : list (Z * (R * R))) (idxs : list Z) :
  (forall idx, In idx idxs -> zdict_get cs idx <> None) ->
  exists ks, keyed n cs idxs = Ok ks /\ map fst ks = idxs.
Proof.
  induction idxs as [|idx rest IH]; intros H; [now exists []|].
  cbn [keyed].
  destruct (zdict_get cs idx) as [c|] eqn:Hc;
    [|now destruct (H idx (or_introl eq_refl))].
  destruct IH as (ks & -> & Hm); [intros x Hx; apply H; now right|].
  cbn [bind]. eexists. split; [reflexivity|]. cbn. now rewrite Hm.
Qed.

Lemma min_by_In (rest : list (Z * fdist)) :
  forall best, In (min_by best rest) (map fst (best :: rest)).
Proof.
  induction rest as [|x xs IH]; intros best; [now left|].
  cbn [min_by]. destruct (fdist_ltb (snd x) (snd best)).
  - right. apply IH.
  - destruct (IH best) as [H|H]; [now left|right; now right].
Qed.

Lemma best_of_ok (n : string) (cs : list (Z * (R * R))) (idxs : list Z) :
  idxs <> [] ->
  (forall idx, In idx idxs -> zdict_get cs idx <> None) ->
  exists b, best_of n cs idxs = Ok b /\ In b idxs.
Proof.
  intros Hne H. unfold best_of.
  destruct (keyed_ok n cs idxs H) as (ks & -> & Hm). cbn [bind].
  destruct ks as [|k rest]; [now destruct idxs|].
  eexists. split; [reflexivity|]. rewrite <- Hm. apply min_by_In.
Qed.

Lemma compute_centroid_ok (l : list string) :
  exists c, compute_centroid l = Ok c.
Proof.
  unfold compute_centroid.
  destruct (centroid_loop l (0%R, 0%R, 0)) as [[lat_sum lon_sum] count].
  destruct (count =? 0); [|eauto].
  replace (LOCATION_MAP_getitem HOTEL_NAME)
    with (Ok (_loc "citizenM London Bankside" 51.5055 (-0.0993) "hotel" 30
                ["citizenm"; "citizenm bankside"; "citizenm london bankside"]
                "")) by reflexivity.
  cbn [bind]. eauto.
Qed.

Lemma zdict_set_get {V : Type} (d : list (Z * V)) (k k' : Z) (v : V) :
  k' = k \/ zdict_get d k' <> None -> zdict_get (zdict_set d k v) k' <> None.
Proof.
  induction d as [|[k0 v0] rest IH]; intros H; cbn.
  - destruct H as [->|H]; [|now cbn in H].
    now rewrite Z.eqb_refl.
  - destruct (Z.eqb_spec k k0) as [->|Hk]; cbn.
    + destruct (Z.eqb_spec k' k0); [discriminate|].
      destruct H as [|H]; [contradiction|]. cbn in H.
      now destruct (Z.eqb_spec k' k0).
    + destruct (Z.eqb_spec k' k0); [discriminate|]. apply IH.
      destruct H as [|H]; [now left|right]. cbn in H.
      now destruct (Z.eqb_spec k' k0).
Qed.

Lemma centroids_loop_ok (days : list DaySection) :
  forall acc, exists cs,
    centroids_loop days acc = Ok cs
    /\ forall idx,
         (exists d, In d days /\ index d = idx) \/ zdict_get acc idx <> None ->
         zdict_get cs idx <> None.
Proof.
  induction days as [|day rest IH]; intros acc.
  - exists acc. split; [reflexivity|]. intros idx [(d & [] & _)|H]. exact H.
  - cbn [centroids_loop].
    destruct (compute_centroid_ok (locations_or_hotel day)) as [c ->].
    cbn [bind].
    destruct (IH (zdict_set acc (index day) c)) as (cs & E & H).
    exists cs. split; [exact E|]. intros idx Hidx. apply H.
    destruct Hidx as [(d & [<-|Hin] & Hd)|Hacc].
    + right. apply zdict_set_get. left. now symmetry.
    + left. now exists d.
    + right. apply zdict_set_get. now right.
Qed.

(** *** The outer loop *)

Lemma exempt_shrink (n : string) (days days' : list DaySection) (i : nat)
  (d d' : DaySection) :
  shrink days days' ->
  nth_error days i = Some d -> nth_error days' i = Some d' ->
  exempt n d' = exempt n d.
Proof.
  intros [_ S] H H'. destruct (S i d d' H H') as (_ & T & _).
  unfold exempt. now rewrite T.
Qed.

Lemma shrink_nth (days days' : list DaySection) (i : nat) (d' : DaySection) :
  shrink days days' -> nth_error days' i = Some d' ->
  exists d, nth_error days i = Some d.
Proof.
  intros [L _] H'. destruct (nth_error days i) as [d|] eqn:H; [eauto|].
  apply nth_error_None in H.
  assert (i < List.length days')%nat by (apply nth_error_Some; congruence).
  lia.
Qed.

Lemma once_or_exempt_shrink (n : string) (days days' : list DaySection) :
  shrink days days' -> once_or_exempt n days -> once_or_exempt n days'.
Proof.
  intros S [b Hb]. exists b. intros i d' H' Hm.
  destruct (shrink_nth _ _ _ _ S H') as [d H].
  rewrite (exempt_shrink n _ _ _ _ _ S H H'). apply (Hb i d H).
  apply mem_occ. apply mem_occ in Hm.
  destruct S as [_ S]. destruct (S i d d' H H') as (_ & _ & O).
  destruct (O n). lia.
Qed.

Lemma covers_short (n : string) (l : list Z) (days : list DaySection) :
  (List.length l <= 1)%nat ->
  (forall i d, nth_error days i = Some d ->
     (occ n d <= cnt (Z.of_nat i) l)%nat) ->
  once_or_exempt n days.
Proof.
  intros Hlen Hcov. destruct l as [|x [|y l]]; [| |cbn in Hlen; lia].
  - exists 0%nat. intros i d Hd Hm. apply mem_occ in Hm.
    specialize (Hcov i d Hd). cbn in Hcov. lia.
  - exists (Z.to_nat x). intros i d Hd Hm. apply mem_occ in Hm.
    specialize (Hcov i d Hd). unfold cnt in Hcov. cbn in Hcov.
    destruct (Z.eq_dec x (Z.of_nat i)) as [->|]; [|lia].
    left. now rewrite Nat2Z.id.
Qed.

Lemma covers_shrink (n : string) (l : list Z) (days days1 : list DaySection) :
  shrink days days1 ->
  (forall i d, nth_error days i = Some d ->
     (occ n d <= cnt (Z.of_nat i) l)%nat) ->
  forall i d, nth_error days1 i = Some d ->
    (occ n d <= cnt (Z.of_nat i) l)%nat.
Proof.
  intros S Hcov i d1 H1. destruct (shrink_nth _ _ _ _ S H1) as [d H].
  destruct S as [_ S]. destruct (S i d d1 H H1) as (_ & _ & O).
  destruct (O n) as [Hle _]. specialize (Hcov i d H). lia.
Qed.

Lemma stripped_once (n : string) (best : nat) (l : list Z)
  (days days1 : list DaySection) :
  shrink days days1 ->
  (forall i d, nth_error days i = Some d ->
     (occ n d <= cnt (Z.of_nat i) l)%nat) ->
  (forall i d d',
     nth_error days i = Some d -> nth_error days1 i = Some d' ->
     Z.of_nat i <> Z.of_nat best -> exempt n d = false ->
     occ n d' = (occ n d - cnt (Z.of_nat i) l)%nat) ->
  once_or_exempt n days1.
Proof.
  intros S Hcov Hstrip. exists best. intros i d1 H1 Hm.
  destruct (Nat.eq_dec i best) as [|Hne]; [now left|right].
  destruct (shrink_nth _ _ _ _ S H1) as [d H].
  rewrite (exempt_shrink n _ _ _ _ _ S H H1).
  destruct (exempt n d) eqn:Hex; [reflexivity|exfalso].
  apply mem_occ in Hm.
  assert (Hz : Z.of_nat i <> Z.of_nat best) by lia.
  rewrite (Hstrip i d d1 H H1 Hz Hex) in Hm.
  specialize (Hcov i d H). lia.
Qed.

Lemma merge_loop_spec (cs : list (Z * (R * R))) :
  forall items days,
    well_indexed days ->
    (forall i, (i < List.length days)%nat ->
       zdict_get cs (Z.of_nat i) <> None) ->
    (forall m l idx, In (m, l) items -> In idx l ->
       exists i, idx = Z.of_nat i /\ (i < List.length days)%nat) ->
    exists days',
      merge_loop items cs days = Ok days'
      /\ well_indexed days'
      /\ shrink days days'
      /\ forall n idxs,
           In (n, idxs) items -> skip_dedup n = false ->
           (forall i d, nth_error days i = Some d ->
              (occ n d <= cnt (Z.of_nat i) idxs)%nat) ->
           once_or_exempt n days'.
Proof.
  induction items as [|[m l] rest IH]; intros days W Hcs Hvalid.
  { exists days. split; [reflexivity|]. split; [exact W|].
    split; [apply shrink_refl|]. intros n idxs []. }
  assert (Hvrest : forall days1 : list DaySection,
            List.length days1 = List.length days ->
            forall m' l' idx, In (m', l') rest -> In idx l' ->
              exists i, idx = Z.of_nat i /\ (i < List.length days1)%nat).
  { intros days1 L m' l' idx Hin Hidx. rewrite L.
    apply (Hvalid m' l' idx); [now right|exact Hidx]. }
  cbn [merge_loop].
  destruct (Z.leb_spec (Z.of_nat (List.length l)) 1) as [Hshort|Hlong].
  { destruct (IH days W Hcs (Hvrest days eq_refl)) as (days' & E & W' & S & Q).
    exists days'. split; [exact E|]. split; [exact W'|]. split; [exact S|].
    intros n idxs [[= <- <-]|Hin] Hskip Hcov.
    - apply (once_or_exempt_shrink m _ _ S).
      apply (covers_short m l days); [lia|exact Hcov].
    - exact (Q n idxs Hin Hskip Hcov). }
  destruct (skip_dedup m) eqn:Hsm.
  { destruct (IH days W Hcs (Hvrest days eq_refl)) as (days' & E & W' & S & Q).
    exists days'. split; [exact E|]. split; [exact W'|]. split; [exact S|].
    intros n idxs [[= <- <-]|Hin] Hskip Hcov; [congruence|].
    exact (Q n idxs Hin Hskip Hcov). }
  assert (Hvl : forall idx, In idx l ->
            exists i, idx = Z.of_nat i /\ (i < List.length days)%nat).
  { intros idx Hidx. apply (Hvalid m l idx); [now left|exact Hidx]. }
  destruct (best_of_ok m cs l) as (b & -> & Hb).
  { destruct l; [cbn in Hlong; lia|discriminate]. }
  { intros idx Hidx. destruct (Hvl idx Hidx) as (i & -> & Hi). now apply Hcs. }
  cbn [bind].
  destruct (strip_loop_spec m b Hsm l days W Hvl) as (days1 & -> & W1 & S1 & C1).
  cbn [bind].
  assert (L1 : List.length days1 = List.length days) by apply S1.
  destruct (IH days1 W1) as (days' & E & W' & S & Q).
  { intros i Hi. apply Hcs. lia. }
  { exact (Hvrest days1 L1). }
  exists days'. split; [exact E|]. split; [exact W'|].
  split; [exact (shrink_trans _ _ _ S1 S)|].
  intros n idxs [[= <- <-]|Hin] Hskip Hcov.
  - apply (once_or_exempt_shrink m _ _ S).
    destruct (Hvl b Hb) as (ib & -> & _).
    exact (stripped_once m ib l days days1 S1 Hcov C1).
  - apply (Q n idxs Hin Hskip). exact (covers_shrink n idxs _ _ S1 Hcov).
Qed.

(** *** The index of names *)

Lemma dict_append_view (m : list (string * list Z)) (k n : string) (v : Z) :
  indices_of (dict_append m k v) n
  = if (n =? k)%string then (indices_of m n ++ [v])%list else indices_of m n.
Proof.
  unfold indices_of. induction m as [|[k0 l0] rest IH]; cbn.
  - now destruct (n =? k)%string.
  - destruct (String.eqb_spec k k0) as [->|Hk]; cbn.
    + now destruct (n =? k0)%string.
    + destruct (String.eqb_spec n k0) as [->|Hn].
      * destruct (String.eqb_spec k0 k); [congruence|reflexivity].
      * exact IH.
Qed.

Lemma dict_append_In (m : list (string * list Z)) (k n : string) (v idx : Z)
  (l : list Z) :
  In (n, l) (dict_append m k v) -> In idx l ->
  (exists l0, In (n, l0) m /\ In idx l0) \/ (n = k /\ idx = v).
Proof.
  induction m as [|[k0 l0] rest IH]; intros Hin Hidx; cbn in Hin.
  - destruct Hin as [[= <- <-]|[]]. destruct Hidx as [<-|[]]. now right.
  - destruct (String.eqb_spec k k0) as [->|Hk].
    + destruct Hin as [[= <- <-]|Hin].
      * apply in_app_or in Hidx as [Hidx|[<-|[]]]; [|now right].
        left. exists l0. split; [now left|exact Hidx].
      * left. exists l. split; [now right|exact Hidx].
    + destruct Hin as [[= <- <-]|Hin].
      * left. exists l0. split; [now left|exact Hidx].
      * destruct (IH Hin Hidx) as [(l1 & H1 & H2)|H]; [|now right].
        left. exists l1. split; [now right|exact H2].
Qed.

Lemma index_names_view (idx : Z) (n : string) (names : list string) :
  forall acc,
    indices_of (fold_left (fun m x => dict_append m x idx) names acc) n
    = (indices_of acc n ++ repeat idx (count_occ string_dec names n))%list.
Proof.
  induction names as [|x xs IH]; intros acc; cbn [fold_left count_occ].
  - cbn. now rewrite app_nil_r.
  - rewrite IH, dict_append_view.
    destruct (string_dec x n) as [->|Hne].
    + rewrite String.eqb_refl, <- app_assoc. reflexivity.
    + destruct (String.eqb_spec n x); [congruence|reflexivity].
Qed.

Lemma index_by_loc_view (n : string) (days : list DaySection) :
  forall acc,
    indices_of (fold_left index_day days acc) n
    = (indices_of acc n ++ gathered n days)%list.
Proof.
  induction days as [|d rest IH]; intros acc; cbn [fold_left].
  - cbn. now rewrite app_nil_r.
  - rewrite IH. unfold index_day at 1. rewrite index_names_view.
    unfold gathered. cbn [flat_map]. now rewrite <- app_assoc.
Qed.

Lemma index_names_In (day : DaySection) (n : string) (idx : Z) (l : list Z)
  (names : list string) :
  forall acc,
    In (n, l) (fold_left (fun m x => dict_append m x (index day)) names acc) ->
    In idx l ->
    (exists l0, In (n, l0) acc /\ In idx l0)
    \/ (In n names /\ idx = index day).
Proof.
  induction names as [|x xs IH]; intros acc Hin Hidx; cbn [fold_left] in Hin.
  - left. now exists l.
  - destruct (IH _ Hin Hidx) as [(l0 & H0 & Hi)|[Hn E]].
    + destruct (dict_append_In _ _ _ _ _ _ H0 Hi) as [H|[-> ->]];
        [now left|right]. split; [now left|reflexivity].
    + right. split; [now right|exact E].
Qed.

Lemma index_by_loc_In (n : string) (idx : Z) (l : list Z)
  (days : list DaySection) :
  forall acc,
    In (n, l) (fold_left index_day days acc) -> In idx l ->
    (exists l0, In (n, l0) acc /\ In idx l0)
    \/ (exists d, In d days /\ index d = idx /\ In n (locations d)).
Proof.
  induction days as [|d rest IH]; intros acc Hin Hidx; cbn [fold_left] in Hin.
  - left. now exists l.
  - destruct (IH _ Hin Hidx) as [(l0 & H0 & Hi)|(d' & Hd & E & Hn)].
    + unfold index_day in H0.
      destruct (index_names_In d n idx l0 _ _ H0 Hi) as [H|[Hn E]];
        [now left|right]. exists d. split; [now left|]. now split.
    + right. exists d'. split; [now right|]. now split.
Qed.

Lemma dict_get_In {V : Type} (d : list (string * V)) (n : string) (v : V) :
  dict_get d n = Some v -> In (n, v) d.
Proof.
  induction d as [|[k0 v0] rest IH]; cbn; [discriminate|].
  destruct (String.eqb_spec n k0) as [->|_].
  - intros [= <-]. now left.
  - intros H. right. now apply IH.
Qed.

Lemma cnt_repeat (idx x : Z) (k : nat) :
  cnt idx (repeat x k) = if Z.eq_dec x idx then k else 0%nat.
Proof.
  unfold cnt. induction k as [|k IH]; cbn.
  - now destruct (Z.eq_dec x idx).
  - destruct (Z.eq_dec x idx); now rewrite IH.
Qed.

Lemma cnt_gathered (n : string) (days : list DaySection) (d : DaySection) :
  In d days -> (occ n d <= cnt (index d) (gathered n days))%nat.
Proof.
  induction days as [|d0 rest IH]; intros Hin; [destruct Hin|].
  unfold gathered, cnt. cbn [flat_map]. rewrite count_occ_app.
  fold (cnt (index d) (repeat (index d0) (occ n d0))).
  fold (gathered n rest). fold (cnt (index d) (gathered n rest)).
  rewrite cnt_repeat. destruct Hin as [->|Hin].
  - destruct (Z.eq_dec (index d) (index d)); [lia|contradiction].
  - specialize (IH Hin). lia.
Qed.

(** *** One run of the deduplicator *)

Lemma well_indexed_In (days : list DaySection) (d : DaySection) :
  well_indexed days -> In d days ->
  exists i, nth_error days i = Some d /\ index d = Z.of_nat i
            /\ (i < List.length days)%nat.
Proof.
  intros W Hin. destruct (In_nth_error _ _ Hin) as [i Hi].
  exists i. split; [exact Hi|]. split; [exact (W i d Hi)|].
  apply nth_error_Some. congruence.
Qed.

(** On days numbered by position, the deduplicator returns; the result is
    the input after removals, and every name it does not skip is then
    listed by at most one day, apart from arrival days that keep the
    hotel. *)
Lemma merge_spec (days : list DaySection) :
  well_indexed days ->
  exists days',
    merge_duplicate_locations days = Ok days'
    /\ well_indexed days'
    /\ shrink days days'
    /\ forall n, skip_dedup n = false -> once_or_exempt n days'.
Proof.
  intros W. unfold merge_duplicate_locations.
  destruct (centroids_loop_ok days []) as (cs & -> & Hcs). cbn [bind].
  destruct (merge_loop_spec cs (index_by_loc days) days W)
    as (days' & E & W' & S & Q).
  { intros i Hi. apply Hcs. left.
    destruct (nth_error days i) as [d|] eqn:Hd.
    - exists d. split; [exact (nth_error_In _ _ Hd)|exact (W i d Hd)].
    - apply nth_error_None in Hd. lia. }
  { intros m l idx Hin Hidx. unfold index_by_loc in Hin.
    destruct (index_by_loc_In m idx l days [] Hin Hidx)
      as [(l0 & [] & _)|(d & Hd & <- & _)].
    destruct (well_indexed_In days d W Hd) as (i & _ & Ei & Hi).
    now exists i. }
  exists days'. split; [exact E|]. split; [exact W'|]. split; [exact S|].
  intros n Hskip.
  assert (Hcov : forall i d, nth_error days i = Some d ->
            (occ n d <= cnt (Z.of_nat i) (indices_of (index_by_loc days) n))%nat).
  { intros i d Hd. unfold index_by_loc. rewrite index_by_loc_view.
    cbn [indices_of dict_get app]. rewrite <- (W i d Hd).
    apply cnt_gathered. exact (nth_error_In _ _ Hd). }
  unfold indices_of in Hcov.
  destruct (dict_get (index_by_loc days) n) as [l|] eqn:Hget.
  - exact (Q n l (dict_get_In _ _ _ Hget) Hskip Hcov).
  - apply (once_or_exempt_shrink n _ _ S). exists 0%nat.
    intros i d Hd Hm. apply mem_occ in Hm. specialize (Hcov i d Hd).
    cbn in Hcov. lia.
Qed.

(** *** Which names are skipped *)

Lemma dict_set_get (m : list (string * LocationInfo)) (k n : string)
  (v : LocationInfo) :
  dict_get (dict_set m k v) n
  = if (n =? k)%string then Some v else dict_get m n.
Proof.
  induction m as [|[k0 v0] rest IH]; cbn; [reflexivity|].
  destruct (String.eqb_spec k k0) as [->|Hk]; cbn.
  - now destruct (n =? k0)%string.
  - destruct (String.eqb_spec n k0) as [->|Hn].
    + destruct (String.eqb_spec k0 k); [congruence|reflexivity].
    + exact IH.
Qed.

Lemma location_map_fold (n : string) (info : LocationInfo)
  (lib : list LocationInfo) :
  forall acc,
    dict_get (fold_left (fun m loc => dict_set m (name loc) loc) lib acc) n
    = Some info ->
    dict_get acc n = Some info \/ (In info lib /\ name info = n).
Proof.
  induction lib as [|loc rest IH]; intros acc H; cbn [fold_left] in H;
    [now left|].
  destruct (IH _ H) as [H0|[Hin E]]; [|right; split; [now right|exact E]].
  rewrite dict_set_get in H0.
  destruct (String.eqb_spec n (name loc)) as [->|_]; [|now left].
  injection H0 as <-. right. split; [now left|reflexivity].
Qed.

Lemma LOCATION_MAP_get_In (n : string) (info : LocationInfo) :
  LOCATION_MAP_get n = Some info ->
  In info LOCATION_LIBRARY /\ name info = n.
Proof.
  intros H. destruct (location_map_fold n info LOCATION_LIBRARY [] H)
    as [H0|H0]; [discriminate|exact H0].
Qed.

(** Every transport or hotel entry of the catalog is in the whitelist, so
    the names the deduplicator does not skip are the whitelisted ones. *)
Lemma skip_dedup_whitelist (n : string) :
  skip_dedup n = negb (mem n DEDUP_WHITELIST).
Proof.
  unfold skip_dedup. destruct (mem n DEDUP_WHITELIST) eqn:Hw;
    [reflexivity|]. cbn [negb andb].
  destruct (LOCATION_MAP_get n) as [info|] eqn:Hget; [|reflexivity].
  destruct (LOCATION_MAP_get_In n info Hget) as [Hin <-].
  assert (Hall : forallb (fun loc =>
                   implb (mem (category loc) ["transport"; "hotel"])
                         (mem (name loc) DEDUP_WHITELIST))
                   LOCATION_LIBRARY = true) by reflexivity.
  rewrite forallb_forall in Hall. specialize (Hall info Hin).
  rewrite Hw in Hall. now destruct (mem (category info) _).
Qed.

(** *** Counting the days that list a name *)

Lemma filter_all_false {A : Type} (f : A -> bool) (l : list A) :
  (forall x, In x l -> f x = false) -> filter f l = [].
Proof.
  induction l as [|x xs IH]; intros H; [reflexivity|]. cbn.
  rewrite (H x (or_introl eq_refl)). apply IH. intros y Hy. apply H.
  now right.
Qed.

Lemma filter_at_most_one {A : Type} (f : A -> bool) (l : list A) :
  (exists b : nat, forall i x, nth_error l i = Some x -> f x = true -> i = b) ->
  (List.length (filter f l) <= 1)%nat.
Proof.
  induction l as [|x xs IH]; intros [b Hb]; [cbn; lia|]. cbn [filter].
  destruct (f x) eqn:Hx.
  - assert (b = 0%nat) by (symmetry; exact (Hb 0%nat x eq_refl Hx)). subst b.
    rewrite filter_all_false; [cbn; lia|].
    intros y Hy. destruct (f y) eqn:Hfy; [|reflexivity].
    destruct (In_nth_error _ _ Hy) as [i Hi].
    discriminate (Hb (S i) y Hi Hfy).
  - apply IH. exists (Nat.pred b). intros i y Hi Hy.
    now rewrite <- (Hb (S i) y Hi Hy).
Qed.

Lemma once_or_exempt_count (n : string) (days : list DaySection) :
  once_or_exempt n days -> (days_listing_unexempt n days <= 1)%nat.
Proof.
  intros [b Hb]. apply filter_at_most_one. exists b. intros i d Hd Hf.
  apply andb_prop in Hf as [Hm Hex]. apply negb_true_iff in Hex.
  destruct (Hb i d Hd Hm) as [|E]; [assumption|congruence].
Qed.

Lemma days_listing_plain (n : string) (days : list DaySection) :
  n <> HOTEL_NAME -> days_listing_unexempt n days = days_listing n days.
Proof.
  intros Hne. unfold days_listing_unexempt, days_listing. f_equal.
  apply filter_ext. intros d. unfold exempt.
  destruct (String.eqb_spec n HOTEL_NAME); [contradiction|].
  cbn. now rewrite andb_true_r.
Qed.

Lemma numbered_from_nth (days : list DaySection) :
  forall k, numbered_from k days = true ->
    forall i d, nth_error days i = Some d -> index d = k + Z.of_nat i.
Proof.
  induction days as [|d0 rest IH]; intros k H i d Hd;
    [now destruct i|].
  cbn in H. apply andb_prop in H as [H0 H1]. apply Z.eqb_eq in H0.
  destruct i as [|i]; cbn in Hd.
  - injection Hd as <-. lia.
  - rewrite (IH _ H1 i d Hd). lia.
Qed.

Lemma numbered_well_indexed (days : list DaySection) :
  numbered_from 0 days = true -> well_indexed days.
Proof. intros H i d Hd. now rewrite (numbered_from_nth days 0 H i d Hd). Qed.

(** C2, as the code has it.  On days numbered by position the deduplicator
    returns a list of the same length in which every name outside the
    whitelist is listed by exactly the days that listed it before (so
    several days may still list it), while every whitelisted name is listed
    by at most one day, not counting the arrival days that keep the
    hotel. *)
Theorem dedup_acts_on_whitelist_only (days : list DaySection) :
  well_indexed days ->
  exists days',
    merge_duplicate_locations days = Ok days'
    /\ List.length days' = List.length days
    /\ (forall n, mem n DEDUP_WHITELIST = false ->
        forall i d d',
          nth_error days i = Some d -> nth_error days' i = Some d' ->
          mem n (locations d') = mem n (locations d))
    /\ (forall n, mem n DEDUP_WHITELIST = true ->
        (days_listing_unexempt n days' <= 1)%nat
        /\ (n <> HOTEL_NAME -> (days_listing n days' <= 1)%nat)).
Proof.
  intros W. destruct (merge_spec days W) as (days' & E & _ & S & Q).
  exists days'. split; [exact E|]. split; [apply S|]. split.
  - intros n Hw i d d' Hd Hd'.
    destruct S as [_ S]. destruct (S i d d' Hd Hd') as (_ & _ & O).
    destruct (O n) as [_ Heq].
    assert (Ho : occ n d' = occ n d)
      by (apply Heq; rewrite skip_dedup_whitelist, Hw; reflexivity).
    destruct (mem n (locations d)) eqn:Hm.
    + apply mem_occ. apply mem_occ in Hm. lia.
    + destruct (mem n (locations d')) eqn:Hm'; [|reflexivity].
      apply mem_occ in Hm'. rewrite Ho in Hm'. apply mem_occ in Hm'.
      congruence.
  - intros n Hw.
    assert (Hc : (days_listing_unexempt n days' <= 1)%nat).
    { apply once_or_exempt_count, Q.
      rewrite skip_dedup_whitelist, Hw. reflexivity. }
    split; [exact Hc|]. intros Hne. now rewrite <- (days_listing_plain n).
Qed.

Lemma dedup_acts_on_whitelist_only_witness :
  exists days',
    merge_duplicate_locations station_days = Ok days'
    /\ List.length days' = List.length station_days
    /\ (forall n, mem n DEDUP_WHITELIST = false ->
        forall i d d',
          nth_error station_days i = Some d -> nth_error days' i = Some d' ->
          mem n (locations d') = mem n (locations d))
    /\ (forall n, mem n DEDUP_WHITELIST = true ->
        (days_listing_unexempt n days' <= 1)%nat
        /\ (n <> HOTEL_NAME -> (days_listing n days' <= 1)%nat)).
Proof.
  apply (dedup_acts_on_whitelist_only station_days).
  apply numbered_well_indexed. reflexivity.
Defined.

(** C2 as stated fails: "Soho" is not whitelisted, two days list it, and
    the deduplicator returns the days as they are. *)
Lemma dedup_counterexample :
  mem "Soho" DEDUP_WHITELIST = false
  /\ merge_duplicate_locations soho_days = Ok soho_days
  /\ days_listing "Soho" soho_days = 2%nat
  /\ ~ (2 <= 1)%nat.
Proof. repeat split. lia. Qed.

(** *** Facts about the great-circle distance *)

Lemma asin_pos (y : R) : (0 < y)%R -> (0 < asin y)%R.
Proof.
  intros Hy. pose proof PI_RGT_0 as Hpi. unfold asin.
  destruct (Rle_dec y (-1)); [lra|].
  destruct (Rle_dec 1 y); [lra|].
  rewrite <- atan_0. apply atan_increasing.
  apply Rdiv_lt_0_compat; [exact Hy|].
  apply sqrt_lt_R0. unfold Rsqr. nra.
Qed.

Lemma asin_nonneg (y : R) : (0 <= y)%R -> (0 <= asin y)%R.
Proof.
  intros [Hy|<-]; [left; now apply asin_pos|].
  rewrite asin_0. lra.
Qed.

Lemma haversine_km_nonneg (p q : R * R) : (0 <= haversine_km p q)%R.
Proof.
  unfold haversine_km.
  pose proof (asin_nonneg _ (sqrt_pos
    ((sin ((radians (fst q) - radians (fst p)) / 2)) ^ 2
     + cos (radians (fst p)) * cos (radians (fst q))
       * (sin ((radians (snd q) - radians (snd p)) / 2)) ^ 2))).
  lra.
Qed.

Lemma haversine_km_self (p : R * R) : haversine_km p p = 0%R.
Proof.
  unfold haversine_km.
  replace ((radians (fst p) - radians (fst p)) / 2)%R with 0%R by lra.
  replace ((radians (snd p) - radians (snd p)) / 2)%R with 0%R by lra.
  rewrite sin_0.
  replace (0 ^ 2 + cos (radians (fst p)) * cos (radians (fst p)) * 0 ^ 2)%R
    with 0%R by ring.
  rewrite sqrt_0, asin_0. ring.
Qed.

(** The distance is positive as soon as the latitudes differ by less than
    a full turn and both lie between the poles. *)
Lemma haversine_km_pos (p q : R * R) :
  (-90 <= fst p <= 90)%R -> (-90 <= fst q <= 90)%R ->
  (fst p < fst q < fst p + 360)%R ->
  (0 < haversine_km p q)%R.
Proof.
  intros Hp Hq Hd. pose proof PI_RGT_0 as Hpi. unfold haversine_km, radians.
  set (x := ((fst q * (PI / 180) - fst p * (PI / 180)) / 2)%R).
  assert (Hx : (0 < x < PI)%R) by (unfold x; split; nra).
  assert (Hs : (0 < sin x)%R) by (apply sin_gt_0; lra).
  assert (Hc1 : (0 <= cos (fst p * (PI / 180)))%R)
    by (apply cos_ge_0; nra).
  assert (Hc2 : (0 <= cos (fst q * (PI / 180)))%R)
    by (apply cos_ge_0; nra).
  set (s2 := sin ((snd q * (PI / 180) - snd p * (PI / 180)) / 2)).
  assert (Hh : (0 < sin x ^ 2
                  + cos (fst p * (PI / 180)) * cos (fst q * (PI / 180))
                    * s2 ^ 2)%R).
  { assert (0 < sin x ^ 2)%R by nra.
    assert (0 <= s2 ^ 2)%R by nra.
    assert (0 <= cos (fst p * (PI / 180)) * cos (fst q * (PI / 180)))%R
      by nra.
    nra. }
  pose proof (asin_pos _ (sqrt_lt_R0 _ Hh)). lra.
Qed.

(** *** Running the deduplicator again *)

Lemma strip_loop_noop (n : string) (best : Z) (idxs : list Z)
  (days : list DaySection) :
  (forall idx, In idx idxs -> idx = best) ->
  strip_loop n best idxs days = Ok days.
Proof.
  induction idxs as [|idx rest IH]; intros H; [reflexivity|].
  cbn [strip_loop]. rewrite (H idx (or_introl eq_refl)), Z.eqb_refl.
  apply IH. intros x Hx. apply H. now right.
Qed.

Lemma merge_loop_fixed (cs : list (Z * (R * R))) (days : list DaySection) :
  forall items,
    (forall m l idx, In (m, l) items -> In idx l ->
       zdict_get cs idx <> None) ->
    (forall m l, In (m, l) items -> skip_dedup m = false ->
       exists b, forall idx, In idx l -> idx = b) ->
    merge_loop items cs days = Ok days.
Proof.
  induction items as [|[m l] rest IH]; intros Hcs Hone; [reflexivity|].
  assert (Hrest : merge_loop rest cs days = Ok days).
  { apply IH.
    - intros m' l' idx Hin. apply (Hcs m' l' idx). now right.
    - intros m' l' Hin. apply (Hone m' l'). now right. }
  cbn [merge_loop].
  destruct (Z.leb_spec (Z.of_nat (List.length l)) 1) as [|Hlong];
    [exact Hrest|].
  destruct (skip_dedup m) eqn:Hsm; [exact Hrest|].
  destruct (best_of_ok m cs l) as (b & -> & Hb).
  { destruct l; [cbn in Hlong; lia|discriminate]. }
  { intros idx Hidx. apply (Hcs m l idx); [now left|exact Hidx]. }
  cbn [bind]. destruct (Hone m l (or_introl eq_refl) Hsm) as [b0 Hb0].
  rewrite strip_loop_noop; [exact Hrest|].
  intros idx Hidx. now rewrite (Hb0 idx Hidx), (Hb0 b Hb).
Qed.

(** A list of days in which no name that the deduplicator acts on is
    listed twice is left as it is. *)
Lemma merge_fixed (days : list DaySection) :
  well_indexed days ->
  (forall n, skip_dedup n = false -> listed_once n days) ->
  merge_duplicate_locations days = Ok days.
Proof.
  intros W Hone. unfold merge_duplicate_locations.
  destruct (centroids_loop_ok days []) as (cs & -> & Hcs). cbn [bind].
  apply merge_loop_fixed.
  - intros m l idx Hin Hidx. apply Hcs. left. unfold index_by_loc in Hin.
    destruct (index_by_loc_In m idx l days [] Hin Hidx)
      as [(l0 & [] & _)|(d & Hd & E & _)].
    now exists d.
  - intros m l Hin Hsm. destruct (Hone m Hsm) as [b Hb].
    exists (Z.of_nat b). intros idx Hidx. unfold index_by_loc in Hin.
    destruct (index_by_loc_In m idx l days [] Hin Hidx)
      as [(l0 & [] & _)|(d & Hd & <- & Hm)].
    destruct (well_indexed_In days d W Hd) as (i & Hi & -> & _).
    f_equal. apply (Hb i d Hi). now apply mem_In.
Qed.

Lemma strip_loop_kept (n : string) (best : Z) (idxs : list Z)
  (days : list DaySection) :
  (forall idx, In idx idxs ->
     idx = best
     \/ exists d, getitem days idx = Ok d
                  /\ n = HOTEL_NAME /\ theme d = "arrival") ->
  strip_loop n best idxs days = Ok days.
Proof.
  induction idxs as [|idx rest IH]; intros H; [reflexivity|].
  cbn [strip_loop].
  assert (Hrest : strip_loop n best rest days = Ok days)
    by (apply IH; intros x Hx; apply H; now right).
  destruct (Z.eqb_spec idx best) as [_|Hne]; [exact Hrest|].
  destruct (H idx (or_introl eq_refl)) as [E|(d & -> & -> & Ht)];
    [contradiction|].
  cbn [bind]. rewrite Ht, String.eqb_refl. exact Hrest.
Qed.

Lemma merge_loop_kept (cs : list (Z * (R * R))) (days : list DaySection) :
  forall items,
    (forall m l idx, In (m, l) items -> In idx l ->
       zdict_get cs idx <> None) ->
    (forall m l, In (m, l) items -> skip_dedup m = false ->
       (exists b, forall idx, In idx l -> idx = b)
       \/ (m = HOTEL_NAME
           /\ forall idx, In idx l ->
                exists d, getitem days idx = Ok d /\ theme d = "arrival")) ->
    merge_loop items cs days = Ok days.
Proof.
  induction items as [|[m l] rest IH]; intros Hcs Hone; [reflexivity|].
  assert (Hrest : merge_loop rest cs days = Ok days).
  { apply IH.
    - intros m' l' idx Hin. apply (Hcs m' l' idx). now right.
    - intros m' l' Hin. apply (Hone m' l'). now right. }
  cbn [merge_loop].
  destruct (Z.leb_spec (Z.of_nat (List.length l)) 1) as [|Hlong];
    [exact Hrest|].
  destruct (skip_dedup m) eqn:Hsm; [exact Hrest|].
  destruct (best_of_ok m cs l) as (b & -> & Hb).
  { destruct l; [cbn in Hlong; lia|discriminate]. }
  { intros idx Hidx. apply (Hcs m l idx); [now left|exact Hidx]. }
  cbn [bind]. rewrite strip_loop_kept; [exact Hrest|].
  intros idx Hidx.
  destruct (Hone m l (or_introl eq_refl) Hsm) as [[b0 Hb0]|[Hm Harr]].
  - left. now rewrite (Hb0 idx Hidx), (Hb0 b Hb).
  - right. destruct (Harr idx Hidx) as (d & Hd & Ht). now exists d.
Qed.

(** A list of days in which every name that the deduplicator acts on is
    listed once, or is the hotel listed by arrival days only, is left as it
    is. *)
Lemma merge_kept (days : list DaySection) :
  well_indexed days ->
  (forall n, skip_dedup n = false ->
     listed_once n days
     \/ (n = HOTEL_NAME
         /\ forall d, In d days -> In n (locations d) ->
              theme d = "arrival")) ->
  merge_duplicate_locations days = Ok days.
Proof.
  intros W Hone. unfold merge_duplicate_locations.
  destruct (centroids_loop_ok days []) as (cs & -> & Hcs). cbn [bind].
  apply merge_loop_kept.
  - intros m l idx Hin Hidx. apply Hcs. left. unfold index_by_loc in Hin.
    destruct (index_by_loc_In m idx l days [] Hin Hidx)
      as [(l0 & [] & _)|(d & Hd & E & _)].
    now exists d.
  - intros m l Hin Hsm. unfold index_by_loc in Hin.
    destruct (Hone m Hsm) as [[b Hb]|[Hm Harr]].
    + left. exists (Z.of_nat b). intros idx Hidx.
      destruct (index_by_loc_In m idx l days [] Hin Hidx)
        as [(l0 & [] & _)|(d & Hd & <- & Hmem)].
      destruct (well_indexed_In days d W Hd) as (i & Hi & -> & _).
      f_equal. apply (Hb i d Hi). now apply mem_In.
    + right. split; [exact Hm|]. intros idx Hidx.
      destruct (index_by_loc_In m idx l days [] Hin Hidx)
        as [(l0 & [] & _)|(d & Hd & <- & Hmem)].
      destruct (well_indexed_In days d W Hd) as (i & Hi & E & _).
      exists d. split; [rewrite E; now apply getitem_nat|].
      now apply Harr.
Qed.

(** C6, as the code has it.  On days numbered by position in which the
    hotel is not listed both by an arrival day and by a day of another
    theme (no arrival day lists it, or only arrival days list it), the
    deduplicator returns a list of days that a second run returns
    unchanged: locations and audit lists alike. *)
Theorem dedup_twice_is_dedup_once (days : list DaySection) :
  well_indexed days ->
  (forall d, In d days -> theme d = "arrival" ->
     ~ In HOTEL_NAME (locations d))
  \/ (forall d, In d days -> In HOTEL_NAME (locations d) ->
        theme d = "arrival") ->
  exists days',
    merge_duplicate_locations days = Ok days'
    /\ merge_duplicate_locations days' = Ok days'.
Proof.
  intros W Hno. destruct (merge_spec days W) as (days' & E & W' & S & Q).
  exists days'. split; [exact E|]. apply (merge_kept days' W').
  assert (Hback : forall d', In d' days' -> In HOTEL_NAME (locations d') ->
            exists d, In d days /\ theme d = theme d'
                      /\ In HOTEL_NAME (locations d)).
  { intros d' Hd' Hin. apply In_nth_error in Hd' as [i Hi].
    destruct (shrink_nth _ _ _ _ S Hi) as [d Hd]. exists d.
    destruct S as [_ S]. destruct (S i d d' Hd Hi) as (_ & Ht & O).
    split; [now apply nth_error_In in Hd|]. split; [now symmetry|].
    apply mem_In, mem_occ. apply mem_In, mem_occ in Hin.
    destruct (O HOTEL_NAME). lia. }
  intros n Hsm. destruct (Q n Hsm) as [b Hb].
  destruct Hno as [Hno|Honly].
  - left. exists b. intros i d' Hd' Hm.
    destruct (Hb i d' Hd' Hm) as [|Hex]; [assumption|]. exfalso.
    unfold exempt in Hex. apply andb_prop in Hex as [Hn Ht].
    apply String.eqb_eq in Hn, Ht. subst n.
    destruct (Hback d' (nth_error_In _ _ Hd')) as (d & Hd & Hth & Hin);
      [now apply mem_In|].
    apply (Hno d Hd); [congruence|exact Hin].
  - destruct (string_dec n HOTEL_NAME) as [->|Hne].
    + right. split; [reflexivity|]. intros d' Hd' Hin.
      destruct (Hback d' Hd' Hin) as (d & Hd & Hth & Hin').
      rewrite <- Hth. now apply Honly.
    + left. exists b. intros i d' Hd' Hm.
      destruct (Hb i d' Hd' Hm) as [|Hex]; [assumption|]. exfalso.
      unfold exempt in Hex. apply andb_prop in Hex as [Hn _].
      apply String.eqb_eq in Hn. contradiction.
Qed.

Lemma dedup_twice_is_dedup_once_witness :
  exists days',
    merge_duplicate_locations arrival_station_days = Ok days'
    /\ merge_duplicate_locations days' = Ok days'.
Proof.
  apply (dedup_twice_is_dedup_once arrival_station_days).
  - apply numbered_well_indexed. reflexivity.
  - right. intros d [<-|[<-|[]]] H; [reflexivity|].
    cbn in H. destruct H as [H|[H|[]]]; discriminate.
Defined.

(** *** Two runs on an arrival day that keeps the hotel *)

Lemma fdist_ltb_false (x y : R) :
  (y <= x)%R -> fdist_ltb (Finite x) (Finite y) = false.
Proof.
  intros H. unfold fdist_ltb. destruct (Rlt_dec x y); [lra|reflexivity].
Qed.

Lemma fdist_ltb_true (x y : R) :
  (x < y)%R -> fdist_ltb (Finite x) (Finite y) = true.
Proof.
  intros H. unfold fdist_ltb.
  destruct (Rlt_dec x y); [reflexivity|contradiction].
Qed.

(** First run: the airport goes to the day that lists it alone, the hotel
    is won by the city day and kept by the arrival day. *)
Lemma hotel_days_first_run :
  merge_duplicate_locations hotel_days = Ok hotel_days_once.
Proof.
  unfold merge_duplicate_locations.
  replace (centroids_loop hotel_days [])
    with (Ok [(0, at_airport); (1, between); (2, at_hotel)]) by reflexivity.
  replace (index_by_loc hotel_days)
    with [("Heathrow Airport", [0; 1]); (HOTEL_NAME, [1; 2])] by reflexivity.
  cbn [bind merge_loop].
  change (Z.of_nat (List.length [0; 1]) <=? 1) with false.
  change (Z.of_nat (List.length [1; 2]) <=? 1) with false.
  change (skip_dedup "Heathrow Airport") with false.
  change (skip_dedup HOTEL_NAME) with false. cbv iota.
  assert (B1 : best_of "Heathrow Airport"
                 [(0, at_airport); (1, between); (2, at_hotel)] [0; 1] = Ok 0).
  { unfold best_of.
    change (keyed "Heathrow Airport"
              [(0, at_airport); (1, between); (2, at_hotel)] [0; 1])
      with (Ok [(0, Finite (haversine_km (51.4700, -0.4543)%R at_airport));
                (1, Finite (haversine_km (51.4700, -0.4543)%R between))]).
    cbn [bind min_by fst snd].
    rewrite fdist_ltb_false; [reflexivity|].
    replace at_airport with (51.4700, -0.4543)%R
      by (unfold at_airport; f_equal; lra).
    rewrite haversine_km_self. apply haversine_km_nonneg. }
  assert (B2 : best_of HOTEL_NAME
                 [(0, at_airport); (1, between); (2, at_hotel)] [1; 2] = Ok 2).
  { unfold best_of.
    change (keyed HOTEL_NAME
              [(0, at_airport); (1, between); (2, at_hotel)] [1; 2])
      with (Ok [(1, Finite (haversine_km (51.5055, -0.0993)%R between));
                (2, Finite (haversine_km (51.5055, -0.0993)%R at_hotel))]).
    cbn [bind min_by fst snd].
    rewrite fdist_ltb_true; [reflexivity|].
    replace at_hotel with (51.5055, -0.0993)%R
      by (unfold at_hotel; f_equal; lra).
    rewrite haversine_km_self, haversine_km_sym.
    apply haversine_km_pos; unfold between; cbn [fst snd]; lra. }
  rewrite B1. cbn [bind].
  change (strip_loop "Heathrow Airport" 0 [0; 1] hotel_days)
    with (Ok hotel_days_once).
  cbn [bind]. rewrite B2. cbn [bind]. reflexivity.
Qed.

(** Second run: both days that list the hotel now have their centroid at
    the hotel, the tie goes to the arrival day, which comes first, and the
    city day loses the hotel. *)
Lemma hotel_days_second_run :
  merge_duplicate_locations hotel_days_once = Ok hotel_days_twice.
Proof.
  unfold merge_duplicate_locations.
  replace (centroids_loop hotel_days_once [])
    with (Ok [(0, at_airport); (1, at_hotel); (2, at_hotel)]) by reflexivity.
  replace (index_by_loc hotel_days_once)
    with [("Heathrow Airport", [0]); (HOTEL_NAME, [1; 2])] by reflexivity.
  cbn [bind merge_loop].
  change (Z.of_nat (List.length [0]) <=? 1) with true.
  change (Z.of_nat (List.length [1; 2]) <=? 1) with false.
  change (skip_dedup HOTEL_NAME) with false. cbv iota.
  assert (B : best_of HOTEL_NAME
                [(0, at_airport); (1, at_hotel); (2, at_hotel)] [1; 2] = Ok 1).
  { unfold best_of.
    change (keyed HOTEL_NAME
              [(0, at_airport); (1, at_hotel); (2, at_hotel)] [1; 2])
      with (Ok [(1, Finite (haversine_km (51.5055, -0.0993)%R at_hotel));
                (2, Finite (haversine_km (51.5055, -0.0993)%R at_hotel))]).
    cbn [bind min_by fst snd].
    rewrite fdist_ltb_false; [reflexivity|lra]. }
  rewrite B. cbn [bind]. reflexivity.
Qed.

(** C6 as stated fails: on three days numbered by position, the second run
    removes the hotel from the city day, which the first run had left in
    place. *)
Lemma dedup_twice_counterexample :
  numbered_from 0 hotel_days = true
  /\ merge_duplicate_locations hotel_days = Ok hotel_days_once
  /\ merge_duplicate_locations hotel_days_once = Ok hotel_days_twice
  /\ map locations hotel_days_once
     = [["Heathrow Airport"]; [HOTEL_NAME]; [HOTEL_NAME]]
  /\ map locations hotel_days_twice
     = [["Heathrow Airport"]; [HOTEL_NAME]; []].
Proof.
  split; [reflexivity|].
  split; [exact hotel_days_first_run|].
  split; [exact hotel_days_second_run|].
  split; reflexivity.
Qed.

(* ================================================================== *)
(** * Further properties of the code *)

(** ** Time labels and time ranges *)

Lemma below_100 (P : Z -> bool) :
  forallb (fun k => P (Z.of_nat k)) (seq 0 100) = true ->
  forall n, 0 <= n < 100 -> P n = true.
Proof.
  intros H n Hn. rewrite forallb_forall in H.
  rewrite <- (Z2Nat.id n) by lia. apply H. apply in_seq. lia.
Qed.

(** Below 100 the format gives two digits that read back as the number. *)
Lemma format_02d_two_digits (n : Z) :
  0 <= n < 100 ->
  exists a b,
    format_02d n = String a (String b EmptyString)
    /\ is_digit a = true /\ is_digit b = true
    /\ int_of_digits (String a (String b EmptyString)) = n.
Proof.
  intros Hn.
  pose (ok := fun k =>
    match format_02d k with
    | String a (String b EmptyString) =>
        is_digit a && is_digit b
        && (int_of_digits (String a (String b EmptyString)) =? k)
    | _ => false
    end).
  assert (H : ok n = true) by (apply below_100; [vm_compute; reflexivity|exact Hn]).
  unfold ok in H.
  destruct (format_02d n) as [|a [|b [|c r]]]; try discriminate.
  apply andb_prop in H as [H H3]. apply andb_prop in H as [H1 H2].
  apply Z.eqb_eq in H3. now exists a, b.
Qed.

Lemma minutes_to_label_shape (m : Z) :
  0 <= m < 6000 ->
  exists a b c d,
    minutes_to_label m
    = String a (String b (String "h" (String c (String d EmptyString))))
    /\ is_digit a = true /\ is_digit b = true
    /\ is_digit c = true /\ is_digit d = true
    /\ int_of_digits (String a (String b EmptyString)) * 60
       + int_of_digits (String c (String d EmptyString)) = m.
Proof.
  intros Hm. unfold minutes_to_label.
  assert (Hh : 0 <= m / 60 < 100)
    by (split; [apply Z.div_pos; lia|apply Z.div_lt_upper_bound; lia]).
  assert (Hmin : 0 <= m mod 60 < 100)
    by (pose proof (Z.mod_pos_bound m 60); lia).
  destruct (format_02d_two_digits _ Hh) as (a & b & -> & Ha & Hb & Hab).
  destruct (format_02d_two_digits _ Hmin) as (c & d & -> & Hc & Hd & Hcd).
  exists a, b, c, d. repeat split; try assumption.
  rewrite Hab, Hcd. pose proof (Z.div_mod m 60). lia.
Qed.

Lemma match_time_at_HH (a b c d : ascii) (rest : string) :
  is_digit a = true -> is_digit b = true ->
  is_digit c = true -> is_digit d = true ->
  match_time_at
    (String a (String b (String "h" (String c (String d rest)))))
  = Some (String a (String b EmptyString),
          String c (String d EmptyString), 5%nat).
Proof.
  intros Ha Hb Hc Hd. unfold match_time_at.
  change (String a (String b (String "h" (String c (String d rest)))))
    with ((String a (String b "") ++ "h" ++ String c (String d "")) ++ rest).
  rewrite (match_with_app 2).
  - reflexivity.
  - apply (digits_text_2 (String a "") (String b ""));
      now apply ascii_digit_text.
  - apply (digits_text_2 (String c "") (String d ""));
      now apply ascii_digit_text.
Qed.

Lemma match_time_at_digit (s : string) (x : string * string * nat) :
  match_time_at s = Some x -> exists n v, digit_at s = Some (n, v).
Proof.
  unfold match_time_at, match_with. cbn [digits_at]. intros H.
  destruct (digit_at s) as [[n v]|]; [eauto|discriminate].
Qed.

Lemma match_time_at_dash (r : string) : match_time_at (String "-" r) = None.
Proof.
  destruct (match_time_at (String "-" r)) as [x|] eqn:H; [|reflexivity].
  destruct (match_time_at_digit _ _ H) as (n & v & Hd). discriminate.
Qed.

Lemma is_pat_not_dash_byte (c : ascii) :
  is_pat c || (c =? "-")%char = true -> c <> ascii_of_nat 226.
Proof. intros H ->. discriminate. Qed.

Lemma replace_plain_time_text (x : ascii) (s : string) :
  plain_time_text s = true ->
  replace (String (ascii_of_nat 226) (String (ascii_of_nat 128)
             (String x EmptyString))) "-" s = s.
Proof.
  unfold replace. induction s as [|c rest IH]; intros H; [reflexivity|].
  cbn [plain_time_text] in H. apply andb_prop in H as [Hc Hrest].
  cbn [replace_aux prefix].
  destruct (ascii_dec (ascii_of_nat 226) c) as [E|_].
  - symmetry in E. now apply is_pat_not_dash_byte in Hc.
  - now rewrite (IH Hrest).
Qed.

Lemma plain_time_text_app (s t : string) :
  plain_time_text (s ++ t) = plain_time_text s && plain_time_text t.
Proof.
  induction s as [|c rest IH]; [reflexivity|]. cbn. rewrite IH.
  now rewrite andb_assoc.
Qed.

Lemma label_plain (a b c d : ascii) :
  is_digit a = true -> is_digit b = true ->
  is_digit c = true -> is_digit d = true ->
  plain_time_text
    (String a (String b (String "h" (String c (String d EmptyString)))))
  = true.
Proof.
  intros Ha Hb Hc Hd. cbn. unfold is_pat. now rewrite Ha, Hb, Hc, Hd.
Qed.

(** X1.  A range written by [make_time_range] is read back by
    [parse_time_range] as the same two times, for times below 100 hours. *)
Theorem time_range_round_trip (s e : Z) :
  0 <= s < 6000 -> 0 <= e < 6000 ->
  parse_time_range (make_time_range s e) = Ok (s, e).
Proof.
  intros Hs He. unfold make_time_range.
  destruct (minutes_to_label_shape s Hs)
    as (a & b & c & d & -> & Ha & Hb & Hc & Hd & Es).
  destruct (minutes_to_label_shape e He)
    as (a' & b' & c' & d' & -> & Ha' & Hb' & Hc' & Hd' & Ee).
  set (text := (_ ++ "-" ++ _)%string).
  assert (Hp : plain_time_text text = true).
  { subst text. rewrite !plain_time_text_app, !label_plain by assumption.
    reflexivity. }
  unfold parse_time_range, EN_DASH, EM_DASH.
  rewrite !(replace_plain_time_text _ text Hp). subst text.
  unfold findall_time. cbn [append findall_aux].
  rewrite (match_time_at_HH a b c d) by assumption.
  cbn [Nat.sub findall_aux].
  rewrite match_time_at_dash.
  rewrite (match_time_at_HH a' b' c' d') by assumption.
  cbn [Nat.sub findall_aux]. now rewrite Es, Ee.
Qed.

Lemma time_range_round_trip_witness :
  parse_time_range (make_time_range 570 1350) = Ok (570, 1350).
Proof. apply time_range_round_trip; lia. Defined.

(** X2.  A single label written by [minutes_to_label] is read by
    [parse_time_range] as that time followed by the default hour. *)
Theorem time_label_gets_default_hour (m : Z) :
  0 <= m < 6000 ->
  parse_time_range (minutes_to_label m) = Ok (m, m + 60).
Proof.
  intros Hm.
  destruct (minutes_to_label_shape m Hm)
    as (a & b & c & d & -> & Ha & Hb & Hc & Hd & Em).
  pose proof (label_plain a b c d Ha Hb Hc Hd) as Hp.
  unfold parse_time_range, EN_DASH, EM_DASH.
  rewrite !(replace_plain_time_text _ _ Hp).
  unfold findall_time. cbn [findall_aux].
  rewrite (match_time_at_HH a b c d) by assumption.
  cbn [Nat.sub findall_aux]. now rewrite Em.
Qed.

Lemma time_label_gets_default_hour_witness :
  parse_time_range (minutes_to_label 1145) = Ok (1145, 1205).
Proof. apply time_label_gets_default_hour. lia. Defined.

Lemma int_aux_skip (d : string) :
  forall acc r, int_aux (String.length d) acc (d ++ r) = int_aux 0 acc r.
Proof.
  induction d as [|c d IH]; intros acc r; [|exact (IH acc r)].
  cbn [String.length append]. now destruct r.
Qed.

(** [int] reads the text of one digit as one more decimal place. *)
Lemma int_aux_digit (d r : string) (v acc : Z) :
  digit_at d = Some (String.length d, v) ->
  int_aux 0 acc (d ++ r) = int_aux 0 (acc * 10 + v) r.
Proof.
  intros H. pose proof (digit_at_app d r v H) as Happ.
  destruct d as [|c d]; [discriminate|].
  cbn [append int_aux]. cbn [append] in Happ. rewrite Happ.
  cbn [String.length]. rewrite Nat.sub_succ, Nat.sub_0_r. apply int_aux_skip.
Qed.

Lemma int_aux_digits (k : nat) :
  forall m acc,
    digits_text k m -> 0 <= acc ->
    acc * 10 ^ Z.of_nat k <= int_aux 0 acc m
    <= acc * 10 ^ Z.of_nat k + 10 ^ Z.of_nat k - 1.
Proof.
  induction k as [|k IH]; intros m acc H Hacc; cbn [digits_text] in H.
  - subst m. cbn. lia.
  - destruct H as (d & r & -> & [v Hd] & Hr).
    rewrite (int_aux_digit _ _ _ _ Hd).
    assert (Hv : 0 <= v <= 9).
    { unfold digit_at in Hd.
      destruct (code_point_at d) as [[n cp]|]; [|discriminate].
      destruct (digit_value cp) as [v'|] eqn:Hv; [|discriminate].
      injection Hd as _ <-. exact (digit_value_range _ _ Hv). }
    specialize (IH r (acc * 10 + v) Hr ltac:(lia)).
    rewrite Nat2Z.inj_succ, Z.pow_succ_r by lia.
    assert (0 < 10 ^ Z.of_nat k) by (apply Z.pow_pos_nonneg; lia).
    nia.
Qed.

Lemma int_of_digits_range (k : nat) (m : string) :
  digits_text k m -> (k <= 2)%nat -> 0 <= int_of_digits m <= 99.
Proof.
  intros H Hk. pose proof (int_aux_digits k m 0 H ltac:(lia)) as B.
  fold (int_of_digits m) in B.
  assert (10 ^ Z.of_nat k <= 100).
  { destruct k as [|[|[|k]]]; cbn; lia. }
  lia.
Qed.

Lemma match_time_at_groups (s hh mm : string) (len : nat) :
  match_time_at s = Some (hh, mm, len) ->
  0 <= int_of_digits hh <= 99 /\ 0 <= int_of_digits mm <= 99.
Proof.
  unfold match_time_at. intros H.
  destruct (match_with 2 s) as [[[h2 m2] l2]|] eqn:H2.
  - injection H as -> -> ->.
    destruct (match_with_split _ _ _ _ _ H2) as (_ & _ & _ & Hh & Hm).
    split; eapply int_of_digits_range; eauto.
  - destruct (match_with_split _ _ _ _ _ H) as (_ & _ & _ & Hh & Hm).
    split; eapply int_of_digits_range; eauto.
Qed.

Lemma findall_aux_groups (s : string) :
  forall k,
    Forall (fun g => 0 <= int_of_digits (fst g) <= 99
                     /\ 0 <= int_of_digits (snd g) <= 99)
      (findall_aux k s).
Proof.
  induction s as [|c rest IH]; intros k; [constructor|].
  cbn [findall_aux]. destruct k as [|k]; [|apply IH].
  destruct (match_time_at (String c rest)) as [[[hh mm] len]|] eqn:Hm;
    [|apply IH].
  constructor; [|apply IH]. exact (match_time_at_groups _ _ _ _ Hm).
Qed.

(** X3.  The two totals that [parse_time_range] returns are never negative:
    the start lies between 0 and 99h99 (6039) and the end between 0 and
    6099; hours and minutes are limited by their digits only. *)
Theorem parse_time_range_values (time_str : string) (a b : Z) :
  parse_time_range time_str = Ok (a, b) ->
  0 <= a <= 6039 /\ 0 <= b <= 6099.
Proof.
  unfold parse_time_range, findall_time.
  pose proof (findall_aux_groups
    (replace EM_DASH "-" (replace EN_DASH "-" time_str)) 0) as F.
  destruct (findall_aux 0 _) as [|[sh sm] more]; [discriminate|].
  inversion F as [|g l [Hh Hm] F' E]; subst. cbn [fst snd] in *.
  destruct more as [|[eh em] more'].
  - intros [= <- <-]. lia.
  - inversion F' as [|g l [Hh' Hm'] _ E]; subst. cbn [fst snd] in *.
    intros [= <- <-]. lia.
Qed.

Lemma parse_time_range_values_witness :
  0 <= 1599 <= 6039 /\ 0 <= 1659 <= 6099.
Proof. apply (parse_time_range_values "25h99"). reflexivity. Defined.

Lemma bounds_loop_encloses (items : list TimelineItem) :
  forall s0 e0 s e,
    bounds_loop items s0 e0 = Ok (Some s, Some e) ->
    (forall x, s0 = Some x -> s <= x)
    /\ (forall x, e0 = Some x -> x <= e)
    /\ forall item a b,
         In item items -> parse_time_range (time item) = Ok (a, b) ->
         s <= a /\ b <= e.
Proof.
  induction items as [|it rest IH]; intros s0 e0 s e H; cbn [bounds_loop] in H.
  - injection H as -> ->.
    split; [intros x [= <-]; lia|]. split; [intros x [= <-]; lia|].
    intros item a b [].
  - destruct (parse_time_range (time it)) as [[a0 b0]|] eqn:Hp;
      [|discriminate]. cbn [bind] in H.
    destruct (IH _ _ _ _ H) as (Hs & He & Hin).
    specialize (Hs _ eq_refl). specialize (He _ eq_refl).
    unfold min_inf in Hs. unfold max_inf in He.
    split; [|split].
    + intros x ->. destruct (Z.ltb_spec a0 x); lia.
    + intros x ->. destruct (Z.ltb_spec x b0); lia.
    + intros item a b [<-|Hi] Hpi; [|exact (Hin item a b Hi Hpi)].
      rewrite Hp in Hpi. injection Hpi as <- <-. split.
      * destruct s0 as [x|]; [destruct (Z.ltb_spec a0 x)|]; lia.
      * destruct e0 as [x|]; [destruct (Z.ltb_spec x b0)|]; lia.
Qed.

(** X4.  When the timeline of a day is not empty and every entry parses,
    the bounds enclose the entries: the start bound is no later than any
    entry's start, the end bound is at most 23:30 (1410) and no earlier than
    any entry's end cut at 23:30. *)
Theorem day_bounds_enclose_timeline (day : DaySection) :
  timeline day <> [] ->
  (forall item, In item (timeline day) ->
     is_ok (parse_time_range (time item)) = true) ->
  exists s e,
    get_day_time_bounds day = Ok (s, e)
    /\ e <= 1410
    /\ forall item a b,
         In item (timeline day) ->
         parse_time_range (time item) = Ok (a, b) ->
         s <= a /\ Z.min b 1410 <= e.
Proof.
  intros Hne Hall. unfold get_day_time_bounds.
  destruct (bounds_loop_ok (timeline day) Hall Hne None None)
    as (s & e & Hl).
  rewrite Hl. cbn [bind].
  destruct (bounds_loop_encloses _ _ _ _ _ Hl) as (_ & _ & Hin).
  eexists s, _. split; [reflexivity|]. split; [lia|].
  intros item a b Hi Hp. destruct (Hin item a b Hi Hp) as [Ha Hb].
  split; [exact Ha|].
  destruct ((theme day =? "city")%string && (e <? 22 * 60 + 30)) eqn:Hc;
    [apply andb_prop in Hc as [_ Hc]; apply Z.ltb_lt in Hc|]; lia.
Qed.

Lemma day_bounds_enclose_timeline_witness :
  exists s e,
    get_day_time_bounds city_morning = Ok (s, e)
    /\ e <= 1410
    /\ forall item a b,
         In item (timeline city_morning) ->
         parse_time_range (time item) = Ok (a, b) ->
         s <= a /\ Z.min b 1410 <= e.
Proof.
  apply (day_bounds_enclose_timeline city_morning).
  - discriminate.
  - intros item [<-|[]]. reflexivity.
Defined.

(** ** Distances and travel times, continued *)

(** X5.  The great-circle distance is symmetric, zero from a point to
    itself, never negative and at most half the circumference of the
    sphere of radius 6371 km. *)
Theorem haversine_km_is_a_distance (p q : R * R) :
  haversine_km p q = haversine_km q p
  /\ haversine_km p p = 0%R
  /\ (0 <= haversine_km p q <= 6371 * PI)%R.
Proof.
  split; [apply haversine_km_sym|]. split; [apply haversine_km_self|].
  split; [apply haversine_km_nonneg|]. unfold haversine_km.
  match goal with |- (_ * (2 * asin ?x) <= _)%R =>
    pose proof (asin_bound x) end.
  lra.
Qed.

(** X6.  The travel estimate is zero exactly between a place and itself;
    between two different names it is at least 5 minutes. *)
Theorem travel_time_zero_iff_same_place (a b : string) :
  (estimate_travel_minutes a b = 0 <-> a = b)
  /\ (a <> b -> 5 <= estimate_travel_minutes a b).
Proof.
  assert (H : a <> b -> 5 <= estimate_travel_minutes a b).
  { intros Hne. unfold estimate_travel_minutes.
    destruct (String.eqb_spec a b) as [|_]; [contradiction|].
    destruct (pair_get TRANSIT_OVERRIDES (a, b)) as [v|] eqn:H1.
    { revert H1. unfold TRANSIT_OVERRIDES. cbn [pair_get].
      repeat (destruct (_ && _)%bool; [intros [= <-]; lia|]).
      discriminate. }
    destruct (pair_get TRANSIT_OVERRIDES (b, a)) as [v|] eqn:H2.
    { revert H2. unfold TRANSIT_OVERRIDES. cbn [pair_get].
      repeat (destruct (_ && _)%bool; [intros [= <-]; lia|]).
      discriminate. }
    unfold distance_between_pair.
    destruct (String.eqb_spec a b) as [|_]; [contradiction|].
    destruct (LOCATION_MAP_get a) as [la|], (LOCATION_MAP_get b) as [lb|];
      try lia;
      (assert (0 <= py_int (999.0 / 4.5 * 60)) by (apply py_int_nonneg; lra);
       lia). }
  split; [|exact H]. split.
  - intros H0. destruct (string_dec a b) as [|Hne]; [assumption|].
    specialize (H Hne). lia.
  - intros ->. unfold estimate_travel_minutes. now rewrite String.eqb_refl.
Qed.

(** ** The day scheduler, continued *)

Lemma chain_first (s t : Z) (x : Segment) (rest : list Segment) :
  chain s (x :: rest) t -> start x = s.
Proof. intros H. now inversion H. Qed.

(** X7.  The schedule begins at the start bound: whenever the bounds of the
    day are [(s, e)], the scheduler returns, and the first segment of a
    non-empty schedule starts at [s]. *)
Theorem schedule_starts_at_start_bound (day : DaySection) (s e : Z) :
  get_day_time_bounds day = Ok (s, e) ->
  exists segs,
    build_day_schedule day = Ok segs
    /\ forall x rest, segs = x :: rest -> start x = s.
Proof.
  intros Hb.
  destruct (build_day_schedule_spec day s e Hb) as (segs & t & -> & C & _).
  exists segs. split; [reflexivity|]. intros x rest ->.
  exact (chain_first _ _ _ _ C).
Qed.

Lemma schedule_starts_at_start_bound_witness :
  exists segs,
    build_day_schedule arrival_day = Ok segs
    /\ forall x rest, segs = x :: rest -> start x = 900.
Proof.
  apply (schedule_starts_at_start_bound arrival_day 900 1380). reflexivity.
Defined.

(** X8.  A departure day always closes with the transfer from the hotel to
    the airport, which lasts the 75 minutes of the override table, followed
    by 45 minutes of departure formalities, whatever was scheduled before
    and whatever the end bound is. *)
Theorem departure_day_closing (day : DaySection) (s e : Z) :
  theme day = "departure" ->
  get_day_time_bounds day = Ok (s, e) ->
  exists front t,
    build_day_schedule day
    = Ok (front ++ [
        Build_Segment t (t + 75) "Transfert vers Heathrow"
          "citizenM London Bankside -> Heathrow Airport"
          "Heathrow Express jusqu'a Paddington puis taxi/metro (75 min)."
          "transfer";
        Build_Segment (t + 75) (t + 75 + 45) "Formalites de depart"
          "Heathrow Airport" "Enregistrement et controle securite."
          "transport"])%list.
Proof.
  intros Hd Hb. unfold build_day_schedule. rewrite Hb, Hd. cbn [bind].
  change ("departure" =? "arrival")%string with false.
  change ("departure" =? "departure")%string with true.
  cbn [bind negb]. cbv iota.
  set (st := visit_loop e _ _). unfold closing_departure.
  set (st1 := if negb _ then _ else st).
  replace (estimate_travel_minutes HOTEL_NAME "Heathrow Airport") with 75
    by reflexivity.
  cbn [segments]. exists (segments st1), (current_time st1).
  rewrite <- app_assoc. reflexivity.
Qed.

Lemma departure_day_closing_witness :
  exists front t,
    build_day_schedule departure_short
    = Ok (front ++ [
        Build_Segment t (t + 75) "Transfert vers Heathrow"
          "citizenM London Bankside -> Heathrow Airport"
          "Heathrow Express jusqu'a Paddington puis taxi/metro (75 min)."
          "transfer";
        Build_Segment (t + 75) (t + 75 + 45) "Formalites de depart"
          "Heathrow Airport" "Enregistrement et controle securite."
          "transport"])%list.
Proof.
  apply (departure_day_closing departure_short 420 480); reflexivity.
Defined.

(** ** The deduplicator, continued *)

(** X9.  On days numbered by position in which no whitelisted name is
    listed by two days (or twice by one day and once by another), the
    deduplicator returns the days exactly as they are. *)
Theorem dedup_without_repeated_anchor_is_identity (days : list DaySection) :
  well_indexed days ->
  (forall n, mem n DEDUP_WHITELIST = true -> listed_once n days) ->
  merge_duplicate_locations days = Ok days.
Proof.
  intros W H. apply (merge_fixed days W). intros n Hs. apply H.
  rewrite skip_dedup_whitelist in Hs. now apply negb_false_iff in Hs.
Qed.

Lemma dedup_without_repeated_anchor_is_identity_witness :
  merge_duplicate_locations soho_days = Ok soho_days.
Proof.
  apply dedup_without_repeated_anchor_is_identity.
  - apply numbered_well_indexed. reflexivity.
  - intros n Hw. exists 0%nat. intros [|[|i]] d Hd Hm; cbn in Hd;
      [reflexivity| |now destruct i].
    injection Hd as <-. cbn in Hw, Hm.
    repeat match type of Hw with
    | (?x || ?y)%bool = true =>
        apply orb_prop in Hw as [Hw|Hw];
        [apply String.eqb_eq in Hw; subst n; discriminate|]
    end.
    discriminate.
Defined.

Lemma subseq_refl (l : list string) : subseq l l.
Proof. induction l; constructor; assumption. Qed.

Lemma subseq_trans (a b c : list string) :
  subseq a b -> subseq b c -> subseq a c.
Proof.
  intros Hab Hbc. revert a Hab.
  induction Hbc as [|x l l' _ IH|x l l' _ IH]; intros a Hab.
  - exact Hab.
  - inversion Hab as [|y m m' Hm|y m m' Hm]; subst.
    + constructor. now apply IH.
    + apply subseq_skip. now apply IH.
  - apply subseq_skip. now apply IH.
Qed.

Lemma remove_first_subseq (n : string) (l : list string) :
  subseq (remove_first n l) l.
Proof.
  induction l as [|y ys IH]; [constructor|]. cbn [remove_first].
  destruct (n =? y)%string.
  - apply subseq_skip, subseq_refl.
  - now constructor.
Qed.

Lemma remove_first_perm (n : string) (l : list string) :
  mem n l = true -> Permutation l (remove_first n l ++ [n]).
Proof.
  induction l as [|y ys IH]; [discriminate|]. cbn [mem remove_first].
  destruct (String.eqb_spec n y) as [->|Hne]; intros H.
  - apply Permutation_cons_append.
  - cbn in H. cbn. constructor. now apply IH.
Qed.

Lemma audited_refl (d : DaySection) : audited d d.
Proof.
  repeat split; try apply subseq_refl. exists [].
  now rewrite !app_nil_r.
Qed.

Lemma audited_trans (a b c : DaySection) :
  audited a b -> audited b c -> audited a c.
Proof.
  intros (I1 & T1 & H1 & L1 & M1 & A1 & S1 & r1 & R1 & P1)
         (I2 & T2 & H2 & L2 & M2 & A2 & S2 & r2 & R2 & P2).
  repeat split; try congruence.
  - exact (subseq_trans _ _ _ S2 S1).
  - exists (r1 ++ r2)%list. split.
    + now rewrite R2, R1, app_assoc.
    + rewrite P1, P2, <- !app_assoc. apply Permutation_app_head.
      apply Permutation_app_comm.
Qed.

Lemma audited_strip (n : string) (d : DaySection) :
  mem n (locations d) = true ->
  audited d
    (set_removed_duplicates
       (set_locations d (remove_first n (locations d)))
       (removed_duplicates d ++ [n])%list).
Proof.
  intros Hm. repeat split; cbn.
  - apply remove_first_subseq.
  - exists [n]. split; [reflexivity|]. now apply remove_first_perm.
Qed.

Lemma getitem_set_nth {A : Type} (xs : list A) (i : Z) (a b : A) :
  getitem xs i = Ok a ->
  exists j, nth_error xs j = Some a /\ setitem xs i b = set_nth xs j b.
Proof.
  unfold getitem, setitem.
  set (j := if i <? 0 then i + Z.of_nat (List.length xs) else i).
  destruct ((j <? 0) || (Z.of_nat (List.length xs) <=? j)); [discriminate|].
  destruct (nth_error xs (Z.to_nat j)) as [x|] eqn:H; [|discriminate].
  intros [= <-]. now exists (Z.to_nat j).
Qed.

Lemma Forall2_audited_refl (days : list DaySection) :
  Forall2 audited days days.
Proof. induction days; constructor; [apply audited_refl|assumption]. Qed.

Lemma Forall2_audited_trans (a b c : list DaySection) :
  Forall2 audited a b -> Forall2 audited b c -> Forall2 audited a c.
Proof.
  intros Hab. revert c. induction Hab as [|x y l l' Hxy _ IH]; intros c Hbc.
  - inversion Hbc. constructor.
  - inversion Hbc as [|y' z m m' Hyz Hm]; subst. constructor.
    + exact (audited_trans _ _ _ Hxy Hyz).
    + now apply IH.
Qed.

Lemma Forall2_audited_set_nth (days : list DaySection) (j : nat)
  (d d' : DaySection) :
  nth_error days j = Some d -> audited d d' ->
  Forall2 audited days (set_nth days j d').
Proof.
  revert j. induction days as [|x xs IH]; intros [|j] H Ha; cbn in *;
    try discriminate.
  - injection H as ->. constructor; [exact Ha|apply Forall2_audited_refl].
  - constructor; [apply audited_refl|now apply IH].
Qed.

Lemma strip_loop_audited (n : string) (best : Z) (idxs : list Z) :
  forall days days',
    strip_loop n best idxs days = Ok days' -> Forall2 audited days days'.
Proof.
  induction idxs as [|idx rest IH]; intros days days' H; cbn [strip_loop] in H.
  - injection H as <-. apply Forall2_audited_refl.
  - destruct (idx =? best); [now apply IH|].
    destruct (getitem days idx) as [d|] eqn:Hg; [|discriminate].
    cbn [bind] in H.
    destruct ((n =? HOTEL_NAME)%string && (theme d =? "arrival")%string);
      [now apply IH|].
    destruct (mem n (locations d)) eqn:Hm; [|now apply IH].
    destruct (getitem_set_nth days idx d
                (set_removed_duplicates
                   (set_locations d (remove_first n (locations d)))
                   (removed_duplicates d ++ [n])%list) Hg) as (j & Hj & E).
    rewrite E in H. apply (Forall2_audited_trans _ _ _
      (Forall2_audited_set_nth days j d _ Hj (audited_strip n d Hm))).
    now apply IH.
Qed.

Lemma merge_loop_audited (cs : list (Z * (R * R))) :
  forall items days days',
    merge_loop items cs days = Ok days' -> Forall2 audited days days'.
Proof.
  induction items as [|[m l] rest IH]; intros days days' H;
    cbn [merge_loop] in H.
  - injection H as <-. apply Forall2_audited_refl.
  - destruct (Z.of_nat (List.length l) <=? 1); [now apply IH|].
    destruct (skip_dedup m); [now apply IH|].
    destruct (best_of m cs l) as [b|]; [|discriminate]. cbn [bind] in H.
    destruct (strip_loop m b l days) as [days1|] eqn:Hs; [|discriminate].
    cbn [bind] in H.
    exact (Forall2_audited_trans _ _ _ (strip_loop_audited _ _ _ _ _ Hs)
             (IH _ _ H)).
Qed.

(** X10.  The deduplicator loses nothing silently.  On days numbered by
    position it returns days that differ from the input only in their
    locations and audit lists: the locations that remain keep their order,
    and the names that left the locations of a day are exactly the names
    appended to its [removed_duplicates]. *)
Theorem dedup_keeps_an_audit_trail (days : list DaySection) :
  well_indexed days ->
  exists days',
    merge_duplicate_locations days = Ok days'
    /\ Forall2 audited days days'.
Proof.
  intros W. destruct (merge_spec days W) as (days' & E & _).
  exists days'. split; [exact E|].
  unfold merge_duplicate_locations in E.
  destruct (centroids_loop days []) as [cs|]; [|discriminate].
  exact (merge_loop_audited cs _ _ _ E).
Qed.

Lemma dedup_keeps_an_audit_trail_witness :
  exists days',
    merge_duplicate_locations station_days = Ok days'
    /\ Forall2 audited station_days days'.
Proof.
  apply dedup_keeps_an_audit_trail. apply numbered_well_indexed. reflexivity.
Defined.

(** ** Cleaning a list of names *)

Lemma clean_loop_filter (candidates : list string) :
  forall cleaned,
    clean_loop candidates cleaned
    = (cleaned ++ filter keep_location candidates)%list.
Proof.
  induction candidates as [|n rest IH]; intros cleaned; cbn.
  - now rewrite app_nil_r.
  - destruct (keep_location n); rewrite IH; [|reflexivity].
    now rewrite <- app_assoc.
Qed.

Lemma filter_subseq (f : string -> bool) (l : list string) :
  subseq (filter f l) l.
Proof.
  induction l as [|x xs IH]; [constructor|]. cbn.
  destruct (f x); now constructor.
Qed.

Lemma filter_idem {A : Type} (f : A -> bool) (l : list A) :
  filter f (filter f l) = filter f l.
Proof.
  induction l as [|x xs IH]; [reflexivity|]. cbn.
  destruct (f x) eqn:Hx; [|exact IH]. cbn. now rewrite Hx, IH.
Qed.

(** The catalog names that the three tests reject are the two museums and
    the cathedral. *)
Lemma keep_location_catalog (n : string) :
  keep_location n = true <->
  In n (map name LOCATION_LIBRARY)
  /\ ~ In n ["National Gallery"; "British Museum"; "St Paul's Cathedral"].
Proof.
  split.
  - intros Hk. unfold keep_location in Hk.
    destruct (LOCATION_MAP_get n) as [info|] eqn:Hget; [|discriminate].
    destruct (LOCATION_MAP_get_In n info Hget) as [Hin Hn].
    split; [rewrite <- Hn; now apply in_map|].
    assert (Hall : forallb (fun loc =>
               implb (keep_location (name loc))
                 (negb (mem (name loc)
                    ["National Gallery"; "British Museum";
                     "St Paul's Cathedral"])))
               LOCATION_LIBRARY = true) by (vm_compute; reflexivity).
    rewrite forallb_forall in Hall. specialize (Hall info Hin).
    rewrite Hn in Hall. unfold keep_location in Hall at 1.
    rewrite Hget, Hk in Hall. cbn [implb] in Hall.
    apply negb_true_iff in Hall. intros Hm. apply mem_In in Hm. congruence.
  - intros [Hin Hno]. apply in_map_iff in Hin as (loc & <- & Hloc).
    assert (Hall : forallb (fun loc =>
               mem (name loc)
                 ["National Gallery"; "British Museum";
                  "St Paul's Cathedral"]
               || keep_location (name loc))
               LOCATION_LIBRARY = true) by (vm_compute; reflexivity).
    rewrite forallb_forall in Hall. specialize (Hall loc Hloc).
    apply orb_prop in Hall as [Hm|Hk]; [|exact Hk].
    apply mem_In in Hm. contradiction.
Qed.

(** X11.  [clean_location_list] keeps, in their order and with their
    repetitions, exactly the candidates that are catalog names other than
    "National Gallery", "British Museum" and "St Paul's Cathedral"; cleaning
    a cleaned list changes nothing. *)
Theorem clean_location_list_keeps_the_visitable (candidates : list string) :
  subseq (clean_location_list candidates) candidates
  /\ clean_location_list (clean_location_list candidates)
     = clean_location_list candidates
  /\ forall n,
       count_occ string_dec (clean_location_list candidates) n
       = if in_dec string_dec n (map name LOCATION_LIBRARY)
         then if in_dec string_dec n
                   ["National Gallery"; "British Museum";
                    "St Paul's Cathedral"]
              then 0%nat
              else count_occ string_dec candidates n
         else 0%nat.
Proof.
  unfold clean_location_list. rewrite !clean_loop_filter. cbn [app].
  split; [apply filter_subseq|]. split; [apply filter_idem|].
  intros n.
  assert (Hc : count_occ string_dec (filter keep_location candidates) n
               = if keep_location n then count_occ string_dec candidates n
                 else 0%nat).
  { induction candidates as [|x xs IH]; [now destruct (keep_location n)|].
    cbn [filter]. destruct (string_dec x n) as [->|Hne].
    - destruct (keep_location n) eqn:Hk.
      + rewrite !count_occ_cons_eq by reflexivity. now rewrite IH.
      + exact IH.
    - destruct (keep_location x).
      + rewrite !count_occ_cons_neq by assumption. exact IH.
      + rewrite count_occ_cons_neq by assumption. exact IH. }
  rewrite Hc. pose proof (keep_location_catalog n) as Hk.
  destruct (in_dec string_dec n (map name LOCATION_LIBRARY)) as [Hin|Hin];
    [destruct (in_dec string_dec n _) as [Hm|Hm]|];
    destruct (keep_location n); try reflexivity.
  - destruct (proj1 Hk eq_refl) as [_ H]. contradiction.
  - discriminate (proj2 Hk (conj Hin Hm)).
  - destruct (proj1 Hk eq_refl) as [H _]. contradiction.
Qed.

(** ** Time strings that are accepted *)

(** A replacement whose [old] starts with a dash byte leaves a text without
    dash at the head of the string in place. *)
Lemma repl_keeps_dash_free_prefix (o : ascii) (old' new s t : string) :
  no_dash_byte o = false ->
  repl (String o old') new s t ->
  forall m post, dash_free m = true -> s = m ++ post ->
  exists post', t = m ++ post'.
Proof.
  intros Ho. induction 1 as [|c s t _ IH|s t _ IH]; intros m post Hm E.
  - destruct m; [|discriminate]. exists "". reflexivity.
  - destruct m as [|x m]; [eexists; reflexivity|].
    cbn in E, Hm. injection E as <- ->.
    apply andb_prop in Hm as [_ Hm].
    destruct (IH m post Hm eq_refl) as [post' ->].
    exists post'. reflexivity.
  - destruct m as [|x m]; [eexists; reflexivity|].
    cbn in E, Hm. injection E as <- _.
    apply andb_prop in Hm as [Hx _]. congruence.
Qed.

(** No match starts inside U+2013 or U+2014. *)
Lemma has_match_skip (x : ascii) (s : string) :
  x = ascii_of_nat 147 \/ x = ascii_of_nat 148 ->
  has_match (String (ascii_of_nat 226) (String (ascii_of_nat 128)
               (String x s))) = true ->
  has_match s = true.
Proof.
  intros Hx H. cbn [has_match] in H.
  destruct (match_time_at (String (ascii_of_nat 226) _)) as [m|] eqn:H1.
  { destruct (match_time_at_digit _ _ H1) as (n & v & Hd).
    destruct Hx as [->| ->]; discriminate. }
  destruct (match_time_at (String (ascii_of_nat 128) _)) as [m|] eqn:H2.
  { destruct (match_time_at_digit _ _ H2) as (n & v & Hd). discriminate. }
  destruct (match_time_at (String x s)) as [m|] eqn:H3; [|exact H].
  destruct (match_time_at_digit _ _ H3) as (n & v & Hd).
  destruct Hx as [->| ->]; discriminate.
Qed.

Lemma has_match_cons (c : ascii) (s : string) :
  has_match s = true -> has_match (String c s) = true.
Proof.
  intros H. cbn [has_match]. now destruct (match_time_at (String c s)).
Qed.

Lemma repl_dash_has_match (x : ascii) (s t : string) :
  x = ascii_of_nat 147 \/ x = ascii_of_nat 148 ->
  repl (String (ascii_of_nat 226) (String (ascii_of_nat 128)
          (String x EmptyString))) "-" s t ->
  has_match s = true -> has_match t = true.
Proof.
  intros Hx Hr.
  induction Hr as [|c s t Hr IH|s t Hr IH]; intros H.
  - exact H.
  - cbn [has_match] in H.
    destruct (match_time_at (String c s)) as [[g len]|] eqn:Hm.
    + destruct (match_time_at_split _ _ _ Hm) as (m & post & E & Ht & _).
      destruct (repl_keeps_dash_free_prefix (ascii_of_nat 226) _ "-" _ _
                  eq_refl (repl_copy _ _ c s t Hr) m post
                  (time_token_dash_free _ Ht) E) as [post' E'].
      rewrite E'. apply contains_has_match. exists "", m, post'. now split.
    + apply has_match_cons, IH, H.
  - apply (has_match_cons "-"), IH.
    now apply (has_match_skip x).
Qed.

Lemma has_match_normalized (time_str : string) :
  has_match time_str = true ->
  has_match (replace EM_DASH "-" (replace EN_DASH "-" time_str)) = true.
Proof.
  intros H. unfold EM_DASH, EN_DASH.
  eapply repl_dash_has_match; [now right|apply replace_repl|].
  eapply repl_dash_has_match; [now left|apply replace_repl|exact H].
Qed.

Lemma has_match_findall (s : string) :
  has_match s = true -> findall_aux 0 s <> [].
Proof.
  induction s as [|c rest IH]; intros H; [discriminate|].
  cbn [has_match findall_aux] in *.
  destruct (match_time_at (String c rest)) as [[g len]|]; [discriminate|].
  now apply IH.
Qed.

Lemma parse_time_range_accepts (time_str : string) :
  contains_time_token time_str ->
  exists a b, parse_time_range time_str = Ok (a, b).
Proof.
  intros H. apply contains_has_match, has_match_normalized,
    has_match_findall in H.
  unfold parse_time_range, findall_time.
  destruct (findall_aux 0 _) as [|[h m] more]; [congruence|]. eauto.
Qed.

(** X12.  [parse_time_range] returns a pair of times exactly for the
    strings that contain a substring of the shape H[H]hMM, H and M being
    decimal digits of any script, whatever surrounds it; every other string
    is a [ValueError]. *)
Theorem parse_time_range_accepts_exactly_the_tokens (time_str : string) :
  (contains_time_token time_str ->
   exists a b, parse_time_range time_str = Ok (a, b))
  /\ (forall a b, parse_time_range time_str = Ok (a, b) ->
      contains_time_token time_str).
Proof.
  split; [apply parse_time_range_accepts|].
  intros a b H. unfold parse_time_range in H.
  destruct (findall_time _) as [|g more] eqn:Hf; [discriminate|].
  apply normalized_has_match, (findall_has_match _ 0%nat).
  unfold findall_time in Hf. rewrite Hf. discriminate.
Qed.

Lemma parse_time_range_accepts_exactly_the_tokens_witness :
  (exists a b, parse_time_range "vers 9h30 environ" = Ok (a, b))
  /\ (exists a b, parse_time_range arabic_indic_12h30 = Ok (a, b))
  /\ contains_time_token "Rdv 12h15".
Proof.
  split; [|split].
  - apply (proj1 (parse_time_range_accepts_exactly_the_tokens
                    "vers 9h30 environ")).
    exists "vers ", "9h30", " environ". split; [reflexivity|].
    now apply ascii_token_H.
  - apply (proj1 (parse_time_range_accepts_exactly_the_tokens
                    arabic_indic_12h30)).
    exists EmptyString, arabic_indic_12h30, EmptyString.
    split; [reflexivity|]. exact arabic_indic_token.
  - apply (proj2 (parse_time_range_accepts_exactly_the_tokens "Rdv 12h15")
             735 795).
    reflexivity.
Defined.

(** ** The timeline read from a document *)

(** The text of group 1 is one token or two tokens around a dash, and it
    is the head of the line. *)
Lemma match_range_head_shape (s t : string) :
  match_range_head s = Some t ->
  (time_token t
   \/ exists m1 m2, t = m1 ++ "-" ++ m2 /\ time_token m1 /\ time_token m2)
  /\ exists post, s = t ++ post.
Proof.
  unfold match_range_head. intros H.
  destruct (match_time_at s) as [[g len]|] eqn:Hm; [|discriminate].
  destruct (match_time_at_split _ _ _ Hm) as (m & post & -> & Ht & <-).
  rewrite drop_app, take_all in H.
  assert (Hone : Some m = Some t ->
                 (time_token t
                  \/ exists m1 m2, t = m1 ++ "-" ++ m2
                                   /\ time_token m1 /\ time_token m2)
                 /\ exists post', m ++ post = t ++ post').
  { intros [= <-]. split; [now left|]. now exists post. }
  destruct post as [|c rest]; [now apply Hone|].
  destruct (Ascii.eqb c "-") eqn:Hc; [|now apply Hone].
  apply Ascii.eqb_eq in Hc. subst c.
  destruct (match_time_at rest) as [[g2 len2]|] eqn:Hm2; [|now apply Hone].
  destruct (match_time_at_split _ _ _ Hm2) as (m2 & post2 & -> & Ht2 & <-).
  rewrite <- Nat.add_assoc, take_app in H.
  change (take (1 + String.length m2) (String "-" (m2 ++ post2)))
    with (String "-" (take (String.length m2) (m2 ++ post2))) in H.
  rewrite take_all in H. injection H as <-.
  split.
  - right. exists m, m2. now repeat split.
  - exists post2. rewrite append_assoc. reflexivity.
Qed.

Lemma timeline_loop_times (clean_lines : list string) :
  forall skip item,
    In item (timeline_loop skip clean_lines) ->
    exists current,
      In current clean_lines /\ match_range_head current = Some (time item).
Proof.
  induction clean_lines as [|current rest IH]; intros skip item Hin;
    [destruct Hin|].
  cbn [timeline_loop] in Hin.
  assert (Hrest : forall k, In item (timeline_loop k rest) ->
                    exists cur, In cur (current :: rest)
                                /\ match_range_head cur = Some (time item)).
  { intros k Hk. destruct (IH k item Hk) as (cur & Hc & Hm).
    exists cur. split; [now right|exact Hm]. }
  destruct skip as [|k]; [|now apply (Hrest k)].
  destruct (match_range_head current) as [t|] eqn:Hm; [|now apply (Hrest 0%nat)].
  destruct Hin as [<-|Hin]; [|now apply (Hrest 2%nat)].
  exists current. split; [now left|exact Hm].
Qed.

Lemma range_text_contains_token (t : string) :
  (time_token t
   \/ exists m1 m2, t = m1 ++ "-" ++ m2 /\ time_token m1 /\ time_token m2) ->
  contains_time_token t.
Proof.
  intros [Ht|(m1 & m2 & -> & Ht1 & _)].
  - exists "", t, "". split; [|exact Ht]. cbn. now rewrite append_nil_r.
  - exists "", m1, ("-" ++ m2). now split.
Qed.

Lemma extract_timeline_times (lines_ : list string) (item : TimelineItem) :
  In item (extract_timeline lines_) ->
  (time_token (time item)
   \/ exists m1 m2, time item = m1 ++ "-" ++ m2
                    /\ time_token m1 /\ time_token m2)
  /\ exists a b, parse_time_range (time item) = Ok (a, b).
Proof.
  unfold extract_timeline. intros Hin.
  destruct (timeline_loop_times _ _ _ Hin) as (cur & _ & Hm).
  destruct (match_range_head_shape _ _ Hm) as [Hshape _].
  split; [exact Hshape|].
  apply parse_time_range_accepts, range_text_contains_token, Hshape.
Qed.

Lemma extract_timeline_schedulable (lines_ : list string) (day : DaySection) :
  timeline day = extract_timeline lines_ ->
  exists s e segs,
    get_day_time_bounds day = Ok (s, e) /\ build_day_schedule day = Ok segs.
Proof.
  intros Htl.
  assert (Hb : exists s e, get_day_time_bounds day = Ok (s, e)).
  { unfold get_day_time_bounds. rewrite Htl.
    destruct (extract_timeline lines_) as [|it rest] eqn:E.
    - cbn [bounds_loop bind].
      destruct (match dict_get presets (theme day) with
                | Some b => b
                | None => _
                end) as [s e].
      eauto.
    - destruct (bounds_loop_ok (it :: rest)) with (a := @None Z)
        (b := @None Z) as (s & e & ->); [|discriminate|cbn; eauto].
      intros item Hin. rewrite <- E in Hin.
      destruct (extract_timeline_times _ _ Hin) as [_ (a & b & ->)].
      reflexivity. }
  destruct Hb as (s & e & Hb).
  destruct (build_day_schedule_spec day s e Hb) as (segs & t & Hs & _).
  now exists s, e, segs.
Qed.

(** A line that starts with a time in Arabic-Indic digits is an entry. *)
Lemma extract_timeline_arabic_indic :
  extract_timeline arabic_indic_lines
  = [Build_TimelineItem arabic_indic_12h30 "Soho" EmptyString].
Proof. reflexivity. Qed.

(** X13.  Every entry that [extract_timeline] reads has a time of the shape
    H[H]hMM or H[H]hMM-H[H]hMM, H and M being decimal digits of any script,
    which [parse_time_range] accepts; so on a day whose timeline was read by
    [extract_timeline] the time bounds and the schedule are always computed,
    without [ValueError]. *)
Theorem extracted_timeline_is_schedulable (lines_ : list string)
        (day : DaySection) :
  timeline day = extract_timeline lines_ ->
  (forall item, In item (timeline day) ->
     (time_token (time item)
      \/ exists m1 m2, time item = m1 ++ "-" ++ m2
                       /\ time_token m1 /\ time_token m2)
     /\ exists a b, parse_time_range (time item) = Ok (a, b))
  /\ exists s e segs,
       get_day_time_bounds day = Ok (s, e)
       /\ build_day_schedule day = Ok segs.
Proof.
  intros Htl. split; [|now apply (extract_timeline_schedulable lines_)].
  intros item Hin. rewrite Htl in Hin.
  now apply (extract_timeline_times lines_).
Qed.

Lemma extracted_timeline_is_schedulable_witness :
  exists s e segs,
    get_day_time_bounds document_day = Ok (s, e)
    /\ build_day_schedule document_day = Ok segs.
Proof.
  apply (extracted_timeline_is_schedulable document_lines document_day).
  reflexivity.
Defined.

(** ** Adding the essentials *)

Lemma fdist_ltb_asym (a b : fdist) :
  fdist_ltb a b = true -> fdist_ltb b a = false.
Proof.
  destruct a as [x|], b as [y|]; cbn; try discriminate; try reflexivity.
  destruct (Rlt_dec x y), (Rlt_dec y x); try discriminate; try reflexivity.
  lra.
Qed.

Lemma fdist_ltb_below (a b c : fdist) :
  fdist_ltb a b = true -> fdist_ltb c b = false -> fdist_ltb c a = false.
Proof.
  destruct a as [x|], b as [y|], c as [z|]; cbn;
    try discriminate; try reflexivity.
  destruct (Rlt_dec x y), (Rlt_dec z y), (Rlt_dec z x);
    try discriminate; try reflexivity.
  lra.
Qed.

Lemma insert_sorted_perm (key : string -> fdist) (x : string)
      (l : list string) :
  Permutation (insert_sorted key x l) (x :: l).
Proof.
  induction l as [|y rest IH]; cbn; [reflexivity|].
  destruct (fdist_ltb (key x) (key y)); [reflexivity|].
  rewrite IH. apply perm_swap.
Qed.

Lemma sorted_by_fold_perm (key : string -> fdist) (xs : list string) :
  forall acc,
    Permutation (fold_left (fun acc x => insert_sorted key x acc) xs acc)
      (acc ++ xs).
Proof.
  induction xs as [|x rest IH]; intros acc; cbn.
  - now rewrite app_nil_r.
  - rewrite IH, insert_sorted_perm. apply Permutation_middle.
Qed.

Lemma sorted_by_perm (key : string -> fdist) (xs : list string) :
  Permutation (sorted_by key xs) xs.
Proof. apply (sorted_by_fold_perm key xs []). Qed.

Lemma insert_sorted_sorted (key : string -> fdist) (x : string)
      (l : list string) :
  StronglySorted (fun a b => fdist_ltb (key b) (key a) = false) l ->
  StronglySorted (fun a b => fdist_ltb (key b) (key a) = false)
    (insert_sorted key x l).
Proof.
  induction 1 as [|y rest Hs IH Hy]; cbn.
  - constructor; constructor.
  - destruct (fdist_ltb (key x) (key y)) eqn:Hxy.
    + constructor; [now constructor|].
      constructor; [now apply fdist_ltb_asym|].
      rewrite Forall_forall in *. intros z Hz.
      apply (fdist_ltb_below _ _ _ Hxy), Hy, Hz.
    + constructor; [exact IH|].
      rewrite Forall_forall in *. intros z Hz.
      apply (Permutation_in _ (insert_sorted_perm key x rest)) in Hz.
      destruct Hz as [<-|Hz]; [exact Hxy|now apply Hy].
Qed.

Lemma sorted_by_sorted (key : string -> fdist) (xs : list string) :
  StronglySorted (fun a b => fdist_ltb (key b) (key a) = false)
    (sorted_by key xs).
Proof.
  unfold sorted_by.
  assert (H : forall acc,
             StronglySorted (fun a b => fdist_ltb (key b) (key a) = false) acc ->
             StronglySorted (fun a b => fdist_ltb (key b) (key a) = false)
               (fold_left (fun acc x => insert_sorted key x acc) xs acc)).
  { induction xs as [|x rest IH]; intros acc Hacc; [exact Hacc|].
    cbn. apply IH. now apply insert_sorted_sorted. }
  apply H. constructor.
Qed.

Lemma fromkeys_In (xs : list string) :
  forall seen x, In x (fromkeys seen xs) <-> In x xs /\ ~ In x seen.
Proof.
  induction xs as [|y rest IH]; intros seen x; cbn; [tauto|].
  destruct (mem y seen) eqn:Hy.
  - rewrite IH. apply mem_In in Hy. split; [tauto|].
    intros [[<-|Hx] Hn]; tauto.
  - assert (Hy' : ~ In y seen)
      by (intros Hin; apply mem_In in Hin; congruence).
    cbn. rewrite IH. cbn. split.
    + intros [<-|[Hx Hn]]; tauto.
    + intros [[<-|Hx] Hn]; [now left|].
      destruct (string_dec y x) as [<-|Hne]; [now left|right; tauto].
Qed.

Lemma fromkeys_NoDup (xs : list string) :
  forall seen, NoDup (fromkeys seen xs).
Proof.
  induction xs as [|y rest IH]; intros seen; cbn; [constructor|].
  destruct (mem y seen); [apply IH|].
  constructor; [|apply IH].
  rewrite fromkeys_In. cbn. tauto.
Qed.

Lemma fromkeys_fixed (xs : list string) :
  forall seen,
    NoDup xs -> (forall x, In x xs -> ~ In x seen) -> fromkeys seen xs = xs.
Proof.
  induction xs as [|y rest IH]; intros seen Hnd Hseen; [reflexivity|].
  inversion Hnd as [|? ? Hy Hrest]; subst. cbn.
  destruct (mem y seen) eqn:Hm.
  - apply mem_In in Hm. exfalso. apply (Hseen y); [now left|exact Hm].
  - f_equal. apply IH; [exact Hrest|].
    intros x Hx [<-|Hin]; [contradiction|].
    apply (Hseen x); [now right|exact Hin].
Qed.

Lemma filter_fixed {A : Type} (f : A -> bool) (l : list A) :
  (forall x, In x l -> f x = true) -> filter f l = l.
Proof.
  induction l as [|x xs IH]; intros H; [reflexivity|]. cbn.
  rewrite (H x) by (now left). f_equal. apply IH.
  intros y Hy. apply H. now right.
Qed.

Lemma clean_location_list_filter (l : list string) :
  clean_location_list l = filter keep_location l.
Proof. unfold clean_location_list. now rewrite clean_loop_filter. Qed.

(** The loop over the essentials of one day. *)
Lemma essentials_loop_spec (es : list string) :
  forall used day used' day',
    essentials_loop es used day = (used', day') ->
    exists added,
      locations day' = (locations day ++ added)%list
      /\ added_essentials day' = (added_essentials day ++ added)%list
      /\ same_plan day day'
      /\ used' = (rev added ++ used)%list
      /\ NoDup added
      /\ forall e, In e added <->
                   In e es /\ ~ In e used /\ keep_location e = true.
Proof.
  induction es as [|e rest IH]; intros used day used' day' H;
    cbn [essentials_loop] in H.
  - injection H as <- <-. exists []. rewrite !app_nil_r.
    split; [reflexivity|]. split; [reflexivity|].
    split; [unfold same_plan; tauto|]. split; [reflexivity|].
    split; [constructor|]. intros e. cbn. tauto.
  - destruct (mem e used) eqn:Hm.
    { apply mem_In in Hm.
      destruct (IH _ _ _ _ H) as (added & Hl & Ha & Hp & Hu & Hnd & Hin).
      exists added. split; [exact Hl|]. split; [exact Ha|].
      split; [exact Hp|]. split; [exact Hu|]. split; [exact Hnd|].
      intros x. rewrite Hin. cbn. split; [tauto|].
      intros ([<-|Hx] & Hn & Hk); [contradiction|tauto]. }
    assert (Hm' : ~ In e used)
      by (intros Hin; apply mem_In in Hin; congruence).
    destruct (keep_location e) eqn:Hk; cbn [negb] in H.
    2:{ destruct (IH _ _ _ _ H) as (added & Hl & Ha & Hp & Hu & Hnd & Hin).
        exists added. split; [exact Hl|]. split; [exact Ha|].
        split; [exact Hp|]. split; [exact Hu|]. split; [exact Hnd|].
        intros x. rewrite Hin. cbn. split; [tauto|].
        intros ([<-|Hx] & Hn & Hk'); [congruence|tauto]. }
    destruct (IH _ _ _ _ H) as (added & Hl & Ha & Hp & Hu & Hnd & Hin).
    cbn in Hl, Ha. rewrite <- app_assoc in Hl, Ha.
    exists (e :: added). split; [exact Hl|]. split; [exact Ha|].
    split; [exact Hp|].
    split; [cbn; now rewrite <- app_assoc|].
    split.
    + constructor; [|exact Hnd]. intros He. apply Hin in He.
      cbn in He. tauto.
    + intros x. cbn. rewrite Hin. cbn. split.
      * intros [<-|(Hx & Hn & Hk')]; tauto.
      * intros ([<-|Hx] & Hn & Hk'); [now left|].
        destruct (string_dec e x) as [<-|Hne]; [now left|right; tauto].
Qed.

Lemma skipn_exact {A : Type} (l r : list A) : skipn (length l) (l ++ r) = r.
Proof. induction l as [|x l IH]; [reflexivity|exact IH]. Qed.

Lemma augment_day_spec (used : list string) (d : DaySection)
      (used' : list string) (d' : DaySection) :
  augment_day used d = Ok (used', d') ->
  augmented d d'
  /\ used' = (rev (newly_added d d') ++ used)%list
  /\ NoDup (newly_added d d')
  /\ forall e, In e (newly_added d d') <->
               In e (essentials_of (theme d)) /\ ~ In e used
               /\ keep_location e = true.
Proof.
  unfold augment_day. intros H.
  destruct (compute_centroid (locations_or_hotel d)) as [c|x] eqn:Hc;
    [|discriminate].
  cbn [bind] in H.
  destruct (essentials_loop (essentials_of (theme d)) used d)
    as [used1 d1] eqn:Hl.
  injection H as <- <-.
  destruct (essentials_loop_spec _ _ _ _ _ Hl)
    as (added & Hloc & Hadd & Hp & Hu & Hnd & Hin).
  set (d' := set_locations d1 _).
  assert (Hnew : newly_added d d' = added).
  { unfold newly_added. subst d'. cbn [added_essentials set_locations].
    rewrite Hadd. apply skipn_exact. }
  unfold augmented. rewrite Hnew.
  split; [|split; [exact Hu|split; [exact Hnd|exact Hin]]].
  split; [exact Hp|]. split; [exact Hadd|].
  split; [intros e He; apply Hin in He; tauto|].
  exists c. split; [exact Hc|]. subst d'. cbn [locations set_locations].
  now rewrite Hloc.
Qed.

Lemma augment_day_ok (used : list string) (d : DaySection) :
  exists r, augment_day used d = Ok r.
Proof.
  unfold augment_day.
  destruct (compute_centroid_ok (locations_or_hotel d)) as [c ->].
  cbn [bind]. destruct (essentials_loop _ used d). eauto.
Qed.

Lemma augment_loop_ok (days : list DaySection) :
  forall used, exists days', augment_loop used days = Ok days'.
Proof.
  induction days as [|d rest IH]; intros used; cbn [augment_loop]; [eauto|].
  destruct (augment_day_ok used d) as [[used1 d1] ->]. cbn [bind].
  destruct (IH used1) as [rest' ->]. cbn [bind]. eauto.
Qed.

Lemma augment_loop_spec (days : list DaySection) :
  forall used days',
    augment_loop used days = Ok days' ->
    Forall2 augmented days days'
    /\ NoDup (all_newly_added days days')
    /\ (forall e, In e (all_newly_added days days') -> ~ In e used)
    /\ (forall d e, In d days -> In e (essentials_of (theme d)) ->
                    keep_location e = true ->
                    In e used \/ In e (all_newly_added days days')).
Proof.
  induction days as [|d rest IH]; intros used days' H; cbn [augment_loop] in H.
  - injection H as <-. split; [constructor|]. split; [constructor|].
    split; [intros e []|intros d e []].
  - destruct (augment_day used d) as [[used1 d1]|x] eqn:Hd; [|discriminate].
    cbn [bind] in H.
    destruct (augment_loop used1 rest) as [rest'|x] eqn:Hr; [|discriminate].
    cbn [bind] in H. injection H as <-.
    destruct (augment_day_spec _ _ _ _ Hd) as (Ha & Hu & Hnd & Hin).
    destruct (IH _ _ Hr) as (Hf & Hnd' & Hout & Hcov).
    change (all_newly_added (d :: rest) (d1 :: rest'))
      with (newly_added d d1 ++ all_newly_added rest rest')%list.
    assert (Hused1 : forall e, In e used1 <-> In e (newly_added d d1) \/ In e used).
    { intros e. rewrite Hu, in_app_iff, <- in_rev. tauto. }
    split; [now constructor|]. split; [|split].
    + apply NoDup_app; [exact Hnd|exact Hnd'|].
      intros e He He'. apply (Hout e He'), Hused1. now left.
    + intros e He. apply in_app_or in He as [He|He].
      * apply Hin in He. tauto.
      * intros Hu'. apply (Hout e He), Hused1. now right.
    + intros d0 e [<-|Hd0] He Hk.
      * destruct (in_dec string_dec e used) as [Hi|Hi]; [now left|].
        right. apply in_or_app. left. apply Hin. tauto.
      * destruct (Hcov d0 e Hd0 He Hk) as [Hi|Hi].
        -- apply Hused1 in Hi as [Hi|Hi]; [|now left].
           right. apply in_or_app. now left.
        -- right. apply in_or_app. now right.
Qed.

Lemma Forall2_In_l {A B : Type} (P : A -> B -> Prop) (l : list A)
      (l' : list B) (x : A) :
  Forall2 P l l' -> In x l -> exists x', In (x, x') (combine l l') /\ P x x'.
Proof.
  induction 1 as [|y y' l l' Hy _ IH]; intros Hin; [destruct Hin|].
  destruct Hin as [<-|Hin].
  - exists y'. split; [now left|exact Hy].
  - destruct (IH Hin) as (x' & Hc & Hp). exists x'. split; [now right|exact Hp].
Qed.

Lemma Forall2_In_r {A B : Type} (P : A -> B -> Prop) (l : list A)
      (l' : list B) (x' : B) :
  Forall2 P l l' -> In x' l' -> exists x, In (x, x') (combine l l') /\ P x x'.
Proof.
  induction 1 as [|y y' l l' Hy _ IH]; intros Hin; [destruct Hin|].
  destruct Hin as [<-|Hin].
  - exists y. split; [now left|exact Hy].
  - destruct (IH Hin) as (x & Hc & Hp). exists x. split; [now right|exact Hp].
Qed.

Lemma Forall2_combine {A B : Type} (P : A -> B -> Prop) (l : list A)
      (l' : list B) (x : A) (x' : B) :
  Forall2 P l l' -> In (x, x') (combine l l') -> P x x'.
Proof.
  induction 1 as [|y y' l l' Hy _ IH]; intros Hin; [destruct Hin|].
  destruct Hin as [[= <- <-]|Hin]; [exact Hy|now apply IH].
Qed.

Lemma Forall2_combine_impl {A B : Type} (P Q : A -> B -> Prop) (l : list A)
      (l' : list B) :
  Forall2 P l l' ->
  (forall x x', In (x, x') (combine l l') -> P x x' -> Q x x') ->
  Forall2 Q l l'.
Proof.
  induction 1 as [|y y' l l' Hy _ IH]; intros H; constructor.
  - apply H; [now left|exact Hy].
  - apply IH. intros x x' Hin. apply H. now right.
Qed.

Lemma all_newly_added_In (days days' : list DaySection) (e : string) :
  In e (all_newly_added days days') <->
  exists d d', In (d, d') (combine days days') /\ In e (newly_added d d').
Proof.
  unfold all_newly_added. rewrite in_concat. split.
  - intros (l & Hl & He). apply in_map_iff in Hl as ([d d'] & <- & Hp).
    now exists d, d'.
  - intros (d & d' & Hp & He). exists (newly_added d d'). split; [|exact He].
    apply in_map_iff. now exists (d, d').
Qed.

(** The locations of a day after the call. *)
Lemma augmented_locations (d d' : DaySection) :
  augmented d d' ->
  NoDup (locations d')
  /\ (forall n, In n (locations d') <->
                keep_location n = true
                /\ (In n (locations d) \/ In n (newly_added d d')))
  /\ exists c, compute_centroid (locations_or_hotel d) = Ok c
               /\ nearest_first c (locations d').
Proof.
  intros (_ & _ & _ & c & Hc & Hl). rewrite Hl.
  pose proof (sorted_by_perm (fun n => distance_between n c)
                (fromkeys [] (clean_location_list
                                (locations d ++ newly_added d d')))) as Hp.
  split; [|split].
  - apply (Permutation_NoDup (Permutation_sym Hp)), fromkeys_NoDup.
  - intros n. split.
    + intros Hin. apply (Permutation_in _ Hp) in Hin.
      apply fromkeys_In in Hin as [Hin _].
      rewrite clean_location_list_filter in Hin.
      apply filter_In in Hin as [Hin Hk]. apply in_app_or in Hin. tauto.
    + intros [Hk Hin]. apply (Permutation_in _ (Permutation_sym Hp)).
      apply fromkeys_In. split; [|intros []].
      rewrite clean_location_list_filter. apply filter_In.
      split; [apply in_or_app; exact Hin|exact Hk].
  - exists c. split; [exact Hc|]. apply sorted_by_sorted.
Qed.

Lemma essentials_keepable (t e : string) :
  In e (essentials_of t) -> keep_location e = true.
Proof.
  unfold essentials_of. intros H.
  destruct (dict_get ESSENTIALS_BY_THEME t) as [l|] eqn:Hg; [|destruct H].
  apply dict_get_In in Hg.
  assert (Hall : forallb (fun p => forallb keep_location (snd p))
                   ESSENTIALS_BY_THEME = true) by (vm_compute; reflexivity).
  rewrite forallb_forall in Hall. specialize (Hall _ Hg). cbn in Hall.
  rewrite forallb_forall in Hall. now apply Hall.
Qed.

Lemma add_missing_essentials_spec (days : list DaySection) :
  exists days',
    add_missing_essentials days = Ok days'
    /\ Forall2 augmented days days'
    /\ NoDup (all_newly_added days days')
    /\ (forall e d, In e (all_newly_added days days') -> In d days ->
                    ~ In e (locations d))
    /\ (forall d e, In d days -> In e (essentials_of (theme d)) ->
                    exists d', In d' days' /\ In e (locations d')).
Proof.
  unfold add_missing_essentials.
  destruct (augment_loop_ok days (concat (map locations days)))
    as [days' H].
  exists days'. split; [exact H|].
  destruct (augment_loop_spec _ _ _ H) as (Hf & Hnd & Hout & Hcov).
  split; [exact Hf|]. split; [exact Hnd|]. split.
  - intros e d He Hd Hin. apply (Hout e He), in_concat.
    exists (locations d). split; [now apply in_map|exact Hin].
  - intros d e Hd He.
    pose proof (essentials_keepable _ _ He) as Hk.
    destruct (Hcov d e Hd He Hk) as [Hu|Hn].
    + apply in_concat in Hu as (l & Hl & Hin).
      apply in_map_iff in Hl as (d0 & <- & Hd0).
      destruct (Forall2_In_l _ _ _ _ Hf Hd0) as (d0' & Hc & Ha).
      exists d0'. split; [now apply in_combine_r in Hc|].
      apply (augmented_locations _ _ Ha). tauto.
    + apply all_newly_added_In in Hn as (d0 & d0' & Hc & Hin).
      exists d0'. split; [now apply in_combine_r in Hc|].
      apply (augmented_locations _ _ (Forall2_combine _ _ _ _ _ Hf Hc)).
      tauto.
Qed.

(** X14.  [add_missing_essentials] always returns.  A day keeps its index,
    title, theme, lines, timeline and removed duplicates; afterwards its
    locations hold no name twice, are exactly the names that pass the tests
    of [clean_location_list] among its former locations and its newly added
    essentials, and are ordered by distance to the centroid of its former
    locations (of the hotel when it had none). *)
Theorem add_missing_essentials_rebuilds_each_day (days : list DaySection) :
  exists days',
    add_missing_essentials days = Ok days'
    /\ Forall2
         (fun d d' =>
            same_plan d d'
            /\ NoDup (locations d')
            /\ (forall n, In n (locations d') <->
                          keep_location n = true
                          /\ (In n (locations d) \/ In n (newly_added d d')))
            /\ exists c, compute_centroid (locations_or_hotel d) = Ok c
                         /\ nearest_first c (locations d'))
         days days'.
Proof.
  destruct (add_missing_essentials_spec days) as (days' & H & Hf & _).
  exists days'. split; [exact H|].
  apply (Forall2_combine_impl _ _ _ _ Hf). intros d d' _ Ha.
  split; [apply Ha|]. now apply augmented_locations.
Qed.

(** X15.  An essential is added to a day only if no day listed it before
    the call, and it is added once: the names appended to the days'
    [added_essentials] are all different, each is an essential of the theme
    of its day and is among the locations of that day afterwards. *)
Theorem essentials_are_added_once (days : list DaySection) :
  exists days',
    add_missing_essentials days = Ok days'
    /\ NoDup (all_newly_added days days')
    /\ (forall e d, In e (all_newly_added days days') -> In d days ->
                    ~ In e (locations d))
    /\ Forall2
         (fun d d' =>
            added_essentials d'
            = (added_essentials d ++ newly_added d d')%list
            /\ forall e, In e (newly_added d d') ->
                         In e (essentials_of (theme d))
                         /\ In e (locations d'))
         days days'.
Proof.
  destruct (add_missing_essentials_spec days)
    as (days' & H & Hf & Hnd & Hout & _).
  exists days'. split; [exact H|]. split; [exact Hnd|]. split; [exact Hout|].
  apply (Forall2_combine_impl _ _ _ _ Hf). intros d d' _ Ha.
  destruct (augmented_locations _ _ Ha) as (_ & Hin & _).
  destruct Ha as (_ & Hadd & Hnew & _).
  split; [exact Hadd|]. intros e He. destruct (Hnew e He) as [Hes Hk].
  split; [exact Hes|]. apply Hin. tauto.
Qed.

(** X16.  After [add_missing_essentials], every essential of the theme of
    every day is among the locations of some day. *)
Theorem essentials_are_covered (days : list DaySection) :
  exists days',
    add_missing_essentials days = Ok days'
    /\ forall d e, In d days -> In e (essentials_of (theme d)) ->
                   exists d', In d' days' /\ In e (locations d').
Proof.
  destruct (add_missing_essentials_spec days) as (days' & H & _ & _ & _ & Hc).
  exists days'. split; [exact H|exact Hc].
Qed.

(** X17.  A second call of [add_missing_essentials] adds nothing: every
    day keeps its added essentials and the same locations, possibly in
    another order (the centroids are computed again). *)
Theorem add_missing_essentials_twice (days : list DaySection) :
  exists days' days'',
    add_missing_essentials days = Ok days'
    /\ add_missing_essentials days' = Ok days''
    /\ Forall2
         (fun d' d'' =>
            same_plan d' d''
            /\ added_essentials d'' = added_essentials d'
            /\ Permutation (locations d'') (locations d'))
         days' days''.
Proof.
  destruct (add_missing_essentials_spec days)
    as (days' & H & Hf & _ & _ & Hcov).
  destruct (add_missing_essentials_spec days')
    as (days'' & H' & Hf' & _ & Hout' & _).
  exists days', days''. split; [exact H|]. split; [exact H'|].
  apply (Forall2_combine_impl _ _ _ _ Hf'). intros d' d'' Hc Ha.
  assert (Hd' : In d' days') by (now apply in_combine_l in Hc).
  destruct (Forall2_In_r _ _ _ _ Hf Hd') as (d & Hcd & Had).
  assert (Hnone : newly_added d' d'' = []).
  { destruct (newly_added d' d'') as [|e l] eqn:E; [reflexivity|].
    exfalso.
    assert (He : In e (newly_added d' d'')) by (rewrite E; now left).
    destruct Ha as (_ & _ & Hnew & _). destruct (Hnew e He) as [Hes _].
    destruct Had as ((_ & _ & Hth & _) & _). rewrite Hth in Hes.
    destruct (Hcov d e (in_combine_l _ _ _ _ Hcd) Hes) as (d0' & Hd0 & Hin).
    apply (Hout' e d0'); [|exact Hd0|exact Hin].
    apply all_newly_added_In. now exists d', d''. }
  destruct (augmented_locations _ _ Had) as (Hnd & Hin & _).
  destruct Ha as (Hp & Hadd & _ & c & _ & Hl).
  rewrite Hnone, app_nil_r in Hadd, Hl.
  split; [exact Hp|]. split; [exact Hadd|].
  rewrite Hl, sorted_by_perm, clean_location_list_filter.
  rewrite filter_fixed by (intros n Hn; now apply Hin in Hn).
  rewrite fromkeys_fixed; [reflexivity|exact Hnd|]. intros x _ [].
Qed.

(** ** Nearest-neighbour ordering *)

Lemma min_key_spec (key : string -> R) (rest : list string) :
  forall best,
    In (min_key key best rest) (best :: rest)
    /\ forall y, In y (best :: rest) ->
                 (key (min_key key best rest) <= key y)%R.
Proof.
  induction rest as [|x rest IH]; intros best; cbn [min_key].
  - split; [now left|]. intros y [<-|[]]. lra.
  - destruct (Rlt_dec (key x) (key best)) as [Hlt|Hge].
    + destruct (IH x) as [Hin Hmin]. split.
      * destruct Hin as [<-|Hin]; [right; now left|right; now right].
      * intros y [<-|[<-|Hy]].
        -- specialize (Hmin x (or_introl eq_refl)). lra.
        -- apply Hmin. now left.
        -- apply Hmin. now right.
    + destruct (IH best) as [Hin Hmin]. split.
      * destruct Hin as [<-|Hin]; [now left|right; now right].
      * intros y [<-|[<-|Hy]].
        -- apply Hmin. now left.
        -- specialize (Hmin best (or_introl eq_refl)). lra.
        -- apply Hmin. now right.
Qed.

Lemma remove_first_length (n : string) (l : list string) :
  In n l -> S (List.length (remove_first n l)) = List.length l.
Proof.
  induction l as [|y ys IH]; intros H; [destruct H|]. cbn [remove_first].
  destruct (String.eqb_spec n y) as [->|Hne]; [reflexivity|].
  destruct H as [->|H]; [congruence|]. cbn. now rewrite IH.
Qed.

Lemma order_loop_spec (fuel : nat) :
  forall current remaining ordered,
    (List.length remaining <= fuel)%nat ->
    exists tail,
      order_loop fuel current remaining ordered = Some (ordered ++ tail)%list
      /\ Permutation tail remaining
      /\ nearest_chain current tail.
Proof.
  induction fuel as [|fuel IH]; intros current remaining ordered Hlen.
  - destruct remaining; [|cbn in Hlen; lia].
    exists []. cbn. rewrite app_nil_r. now repeat split.
  - destruct remaining as [|x rest].
    { exists []. cbn. rewrite app_nil_r. now repeat split. }
    cbn [order_loop].
    set (next_loc := min_key _ x rest).
    destruct (min_key_spec (fun name => distance_between_pair current name)
                rest x) as [Hin Hmin].
    fold next_loc in Hin, Hmin.
    pose proof (remove_first_length _ _ Hin) as Hl.
    destruct (IH next_loc (remove_first next_loc (x :: rest))
                (ordered ++ [next_loc])%list) as (tail & E & Hp & Hc).
    { cbn [List.length] in Hlen, Hl. lia. }
    exists (next_loc :: tail). rewrite E, <- app_assoc.
    split; [reflexivity|].
    assert (Hperm : Permutation (next_loc :: remove_first next_loc (x :: rest))
                      (x :: rest)).
    { eapply Permutation_trans; [apply Permutation_cons_append|].
      symmetry. apply remove_first_perm. now apply mem_In. }
    split; [eapply Permutation_trans; [|exact Hperm]; now constructor|].
    split; [|exact Hc].
    intros y Hy. apply Hmin.
    apply (Permutation_in _ Hperm). right.
    now apply (Permutation_in _ Hp).
Qed.

(** X18.  [order_locations] returns the visits other than [start] and
    [end], each of them as often as it is given, in nearest-neighbour order
    from [start]: every name is, among those not yet placed, one of the
    nearest to the name placed before it.  [end] follows them whenever it is
    not the empty string. *)
Theorem order_locations_is_a_nearest_neighbour_tour
        (start_ : string) (visits : list string) (end_name : string) :
  exists ordered,
    order_locations start_ visits end_name
    = Some (ordered ++ if (end_name =? EmptyString)%string then []
                       else [end_name])%list
    /\ Permutation ordered
         (filter (fun loc => negb (mem loc [start_; end_name])) visits)
    /\ nearest_chain start_ ordered.
Proof.
  unfold order_locations.
  set (remaining := filter _ visits).
  destruct (order_loop_spec (List.length remaining) start_ remaining []
              (le_n _)) as (ordered & E & Hp & Hc).
  cbn [app] in E. rewrite E. exists ordered.
  split; [|split; [exact Hp|exact Hc]].
  destruct (String.eqb_spec end_name EmptyString) as [He|He]; cbn [negb andb].
  - now rewrite app_nil_r.
  - destruct ordered as [|x rest] eqn:Ho; [reflexivity|]. rewrite <- Ho.
    assert (Hlast : In (last ordered EmptyString) remaining).
    { apply (Permutation_in _ Hp). rewrite <- Ho.
      destruct (exists_last (l := ordered)) as (l' & a & ->);
        [rewrite Ho; discriminate|].
      rewrite last_last. apply in_or_app. right. now left. }
    apply filter_In in Hlast as [_ Hm]. cbn [mem] in Hm.
    destruct (String.eqb_spec (last ordered EmptyString) end_name)
      as [Heq|Hne]; [|reflexivity].
    cbn [orb] in Hm. rewrite orb_true_r in Hm. discriminate.
Qed.

(** ** Normalised text *)

Lemma plain_space (c : ascii) :
  is_plain c = true -> is_space c = true -> c = " "%char.
Proof.
  destruct c as [[] [] [] [] [] [] [] []]; intros H1 H2;
    try reflexivity; discriminate.
Qed.

Lemma blank_others_plain (s : string) : all_plain (blank_others s) = true.
Proof.
  induction s as [|c rest IH]; [reflexivity|]. cbn. rewrite IH, andb_true_r.
  now destruct (is_plain c) eqn:E.
Qed.

Lemma squeeze_head (s : string) :
  forall c rest, s = String c rest ->
    exists t, squeeze s = String (if is_space c then " "%char else c) t.
Proof.
  induction s as [|c0 rest0 IH]; intros c rest [= <- <-].
  cbn [squeeze]. destruct (is_space c0) eqn:Hc; [|eauto].
  destruct rest0 as [|d r]; [eauto|].
  destruct (is_space d) eqn:Hd; [|eauto].
  destruct (IH d r eq_refl) as [t Ht]. rewrite Hd in Ht. eauto.
Qed.

Lemma squeeze_plain (s : string) :
  all_plain s = true ->
  all_plain (squeeze s) = true /\ contains "  " (squeeze s) = false.
Proof.
  induction s as [|c rest IH]; intros H; [now split|].
  cbn [all_plain] in H. apply andb_prop in H as [Hc Hrest].
  destruct (IH Hrest) as [IH1 IH2]. cbn [squeeze].
  destruct (is_space c) eqn:Hs.
  - destruct rest as [|d r]; [now split|].
    destruct (is_space d) eqn:Hd; [now split|].
    destruct (squeeze_head _ d r eq_refl) as [t Ht]. rewrite Hd in Ht.
    rewrite Ht in *. split; [exact IH1|].
    cbn [contains] in *. rewrite IH2, orb_false_r.
    cbn [prefix]. destruct (ascii_dec " " " ") as [_|N]; [|congruence].
    destruct (ascii_dec " " d) as [<-|_]; [discriminate|reflexivity].
  - split; [cbn; now rewrite Hc, IH1|].
    cbn [contains]. rewrite IH2, orb_false_r. cbn [prefix].
    destruct (ascii_dec " " c) as [<-|_]; [discriminate|reflexivity].
Qed.

Lemma all_plain_app (s t : string) :
  all_plain (s ++ t) = all_plain s && all_plain t.
Proof.
  induction s as [|c s IH]; [reflexivity|]. cbn. rewrite IH.
  now rewrite andb_assoc.
Qed.

Lemma prefix_app (k s t : string) :
  prefix k s = true -> prefix k (s ++ t) = true.
Proof.
  revert s. induction k as [|a k IH]; intros s H; [now destruct (s ++ t)|].
  destruct s as [|b s]; [discriminate|]. cbn in *.
  destruct (ascii_dec a b); [now apply IH|discriminate].
Qed.

Lemma contains_app_r (k s t : string) :
  contains k s = true -> contains k (s ++ t) = true.
Proof.
  induction s as [|c s IH]; intros H.
  - cbn in H. destruct k; [|discriminate]. now destruct t.
  - cbn [append contains] in *. apply orb_prop in H as [H|H].
    + change (String c (s ++ t)) with (String c s ++ t).
      now rewrite (prefix_app _ _ _ H).
    + rewrite (IH H). apply orb_true_r.
Qed.

Lemma contains_app_l (k s t : string) :
  contains k t = true -> contains k (s ++ t) = true.
Proof.
  intros H. induction s as [|c s IH]; [exact H|].
  cbn [append contains]. rewrite IH. apply orb_true_r.
Qed.

Lemma lstrip_aux_suffix (s : string) :
  forall k, exists pre, s = pre ++ lstrip_aux k s.
Proof.
  induction s as [|c rest IH]; intros k; [now exists EmptyString|].
  cbn [lstrip_aux].
  assert (H : forall j, exists pre, String c rest = pre ++ lstrip_aux j rest).
  { intros j. destruct (IH j) as [pre Hpre].
    exists (String c pre). cbn. now rewrite <- Hpre. }
  destruct k as [|k]; [|apply H].
  destruct (space_at (String c rest)); [apply H|now exists EmptyString].
Qed.

Lemma lstrip_aux_head (s : string) :
  forall k,
    lstrip_aux k s = EmptyString
    \/ exists c r, lstrip_aux k s = String c r
                   /\ space_at (String c r) = None.
Proof.
  induction s as [|c rest IH]; intros k; [now left|].
  cbn [lstrip_aux]. destruct k as [|k]; [|apply IH].
  destruct (space_at (String c rest)) as [len|] eqn:Hs; [apply IH|].
  right. now exists c, rest.
Qed.

Lemma space_at_none (c : ascii) (r : string) :
  space_at (String c r) = None -> is_space c = false.
Proof. cbn [space_at]. now destruct (is_space c). Qed.

Lemma rstrip_prefix (s : string) : exists post, s = rstrip s ++ post.
Proof.
  induction s as [|c rest IH]; [now exists EmptyString|].
  cbn [rstrip]. destruct (lstrip (String c rest)); [now eexists|].
  destruct IH as [post Hpost]. exists post. cbn. now rewrite <- Hpost.
Qed.

Lemma rstrip_empty (s : string) : rstrip s = EmptyString -> lstrip s = EmptyString.
Proof.
  destruct s as [|c rest]; [reflexivity|]. cbn [rstrip].
  destruct (lstrip (String c rest)); [reflexivity|discriminate].
Qed.

Lemma rstrip_head (c : ascii) (r : string) :
  space_at (String c r) = None ->
  rstrip (String c r) = String c (rstrip r).
Proof.
  intros H. cbn [rstrip]. unfold lstrip. cbn [lstrip_aux]. now rewrite H.
Qed.

Lemma rstrip_last (s : string) :
  rstrip s = EmptyString
  \/ exists pre c, rstrip s = pre ++ String c EmptyString
                   /\ is_space c = false.
Proof.
  induction s as [|c rest IH]; [now left|]. cbn [rstrip].
  destruct (lstrip (String c rest)) as [|x y] eqn:E; [now left|]. right.
  destruct IH as [IH|(pre & c' & -> & Hc')].
  - rewrite IH. exists EmptyString, c. split; [reflexivity|].
    destruct (is_space c) eqn:Hc; [|reflexivity].
    apply rstrip_empty in IH. unfold lstrip in E, IH.
    cbn [lstrip_aux space_at] in E. rewrite Hc in E. cbn [Nat.sub] in E.
    congruence.
  - exists (String c pre), c'. now split.
Qed.

Lemma append_last_inj (a b : string) (c d : ascii) :
  a ++ String c EmptyString = b ++ String d EmptyString -> c = d.
Proof.
  revert b. induction a as [|x a IH]; intros [|y b] H; cbn in H.
  - now injection H.
  - injection H as _ H. now destruct b.
  - injection H as _ H. now destruct a.
  - injection H as _ H. now apply (IH b).
Qed.

Lemma strip_words (s : string) :
  all_plain s = true -> contains "  " s = false -> words_text (strip s).
Proof.
  intros Hp Hd. unfold strip.
  destruct (lstrip_aux_suffix s 0) as [pre Hpre]. fold (lstrip s) in Hpre.
  destruct (rstrip_prefix (lstrip s)) as [post Hpost].
  assert (Hp' : all_plain (rstrip (lstrip s)) = true).
  { rewrite Hpre, Hpost, !all_plain_app in Hp.
    apply andb_prop in Hp as [_ Hp]. now apply andb_prop in Hp as [Hp _]. }
  split; [exact Hp'|]. split; [|split].
  - destruct (contains "  " (rstrip (lstrip s))) eqn:E; [|reflexivity].
    rewrite Hpre, Hpost in Hd.
    rewrite (contains_app_l _ _ _ (contains_app_r _ _ post E)) in Hd.
    discriminate.
  - destruct (lstrip_aux_head s 0) as [H|(c & r & H & Hs)];
      fold (lstrip s) in H; rewrite H; [reflexivity|].
    rewrite (rstrip_head _ _ Hs). cbn [prefix].
    apply space_at_none in Hs.
    destruct (ascii_dec " " c) as [<-|_]; [discriminate|reflexivity].
  - intros pre' E.
    destruct (rstrip_last (lstrip s)) as [H|(p & c & H & Hc)].
    + rewrite H in E. now destruct pre'.
    + rewrite H in E. apply append_last_inj in E. now subst c.
Qed.

Lemma normalize_text_words (nfkd : string -> string) (text : string) :
  words_text (normalize_text nfkd text).
Proof.
  unfold normalize_text.
  destruct (squeeze_plain _ (blank_others_plain
                               (lower_all (ascii_ignore (nfkd text)))))
    as [Hp Hd].
  now apply strip_words.
Qed.

(** X19.  Whatever the text, [normalize_text] returns words over [a-z0-9]
    separated by single spaces: no other character, no space at either end
    and no two spaces in a row. *)
Theorem normalize_text_gives_words (nfkd : string -> string) (text : string) :
  words_text (normalize_text nfkd text).
Proof. apply normalize_text_words. Qed.

Lemma replace_space_slug (s : string) :
  all_plain s = true ->
  all_slug (replace " " "_" s) = true
  /\ (replace " " "_" s = EmptyString -> s = EmptyString).
Proof.
  unfold replace. induction s as [|c rest IH]; intros H; [now split|].
  cbn [all_plain] in H. apply andb_prop in H as [Hc Hrest].
  destruct (IH Hrest) as [IH1 _]. cbn [replace_aux prefix].
  destruct (ascii_dec " " c) as [<-|Hne].
  - replace (prefix EmptyString rest) with true by (now destruct rest).
    cbn. now rewrite IH1.
  - cbn. rewrite Hc, IH1. split; [|discriminate].
    destruct (Ascii.eqb_spec c " "); [congruence|reflexivity].
Qed.

(** X20.  [slugify] always returns a non-empty text over [a-z0-9_], so
    the name of a map file never holds a separator or a space. *)
Theorem slugify_gives_a_file_name (nfkd : string -> string) (text : string) :
  slugify nfkd text <> EmptyString
  /\ all_slug (slugify nfkd text) = true.
Proof.
  unfold slugify.
  destruct (normalize_text_words nfkd text) as [Hp _].
  destruct (replace_space_slug _ Hp) as [Hs _].
  destruct (replace " " "_" (normalize_text nfkd text)) as [|c r];
    [now split|].
  split; [discriminate|exact Hs].
Qed.

(** ** Reading the document *)

Lemma infer_theme_known (nfkd : string -> string) (t : string) :
  In (infer_theme nfkd t) ["arrival"; "mayfair"; "city"; "departure"].
Proof.
  unfold infer_theme.
  destruct (_ || _ || _); [cbn; tauto|].
  destruct (_ || _ || _); [cbn; tauto|].
  destruct (_ || _ || _); cbn; tauto.
Qed.

Lemma well_indexed_snoc (days : list DaySection) (d : DaySection) :
  well_indexed days -> index d = Z.of_nat (List.length days) ->
  well_indexed (days ++ [d]).
Proof.
  intros W Hd i x Hx.
  destruct (Nat.lt_ge_cases i (List.length days)) as [Hlt|Hge].
  - rewrite nth_error_app1 in Hx by exact Hlt. now apply W.
  - rewrite nth_error_app2 in Hx by exact Hge.
    destruct (i - List.length days)%nat as [|k] eqn:E.
    + cbn in Hx. injection Hx as <-. rewrite Hd. f_equal. lia.
    + cbn in Hx. now destruct k.
Qed.

Lemma close_day_spec (nfkd : string -> string) (paragraphs : list string)
      (days : list DaySection) (current_title : option string)
      (buffer : list string) :
  well_indexed days -> Forall (read_from paragraphs) days ->
  incl buffer paragraphs ->
  well_indexed (close_day nfkd days current_title buffer)
  /\ Forall (read_from paragraphs) (close_day nfkd days current_title buffer)
  /\ List.length (close_day nfkd days current_title buffer)
     = (List.length days
        + match current_title with Some _ => 1 | None => 0 end)%nat.
Proof.
  intros W F Hb. destruct current_title as [t|]; cbn [close_day].
  - split; [now apply well_indexed_snoc|]. split.
    + apply Forall_app. split; [exact F|]. constructor; [|constructor].
      split; [apply infer_theme_known|]. cbn.
      repeat (split; [reflexivity|]). now exists buffer.
    + rewrite length_app. reflexivity.
  - split; [exact W|]. split; [exact F|]. lia.
Qed.

Lemma parse_loop_spec (nfkd : string -> string) (all_ : list string)
      (paragraphs : list string) :
  forall days current_title buffer,
    well_indexed days -> Forall (read_from all_) days ->
    incl buffer all_ -> incl paragraphs all_ ->
    well_indexed (parse_loop nfkd paragraphs days current_title buffer)
    /\ Forall (read_from all_)
         (parse_loop nfkd paragraphs days current_title buffer)
    /\ List.length (parse_loop nfkd paragraphs days current_title buffer)
       = (List.length days
          + match current_title with Some _ => 1 | None => 0 end
          + List.length (filter is_day_title paragraphs))%nat.
Proof.
  induction paragraphs as [|para rest IH];
    intros days current_title buffer W F Hb Hp; cbn [parse_loop].
  - destruct (close_day_spec nfkd all_ days current_title buffer W F Hb)
      as (W' & F' & L').
    split; [exact W'|]. split; [exact F'|]. cbn. lia.
  - assert (Hrest : incl rest all_)
      by (intros x Hx; apply Hp; now right).
    cbn [filter]. fold (is_day_title para).
    destruct (is_day_title para).
    + destruct (close_day_spec nfkd all_ days current_title buffer W F Hb)
        as (W' & F' & L').
      destruct (IH _ (Some (strip para)) [] W' F'
                  (incl_nil_l _) Hrest) as (W2 & F2 & L2).
      split; [exact W2|]. split; [exact F2|]. rewrite L2, L'. cbn. lia.
    + destruct current_title as [t|].
      * apply (IH days (Some t)); try assumption.
        apply incl_app; [exact Hb|].
        intros x [<-|[]]. apply Hp. now left.
      * now apply (IH days None).
Qed.

Lemma parse_docx_spec (nfkd : string -> string) (paragraphs : list string) :
  well_indexed (parse_docx nfkd paragraphs)
  /\ List.length (parse_docx nfkd paragraphs)
     = List.length (filter is_day_title paragraphs)
  /\ Forall (read_from paragraphs) (parse_docx nfkd paragraphs).
Proof.
  unfold parse_docx.
  destruct (parse_loop_spec nfkd paragraphs paragraphs [] None [])
    as (W & F & L).
  - intros i d H. now destruct i.
  - constructor.
  - apply incl_nil_l.
  - apply incl_refl.
  - split; [exact W|]. split; [exact L|exact F].
Qed.

(** X21.  [parse_docx] makes one day for every paragraph that starts with
    the calendar mark, and numbers the days by their position; every day has
    one of the four themes, no location yet, and the lines and the timeline
    read from paragraphs of the document. *)
Theorem parse_docx_numbers_the_days (nfkd : string -> string)
        (paragraphs : list string) :
  well_indexed (parse_docx nfkd paragraphs)
  /\ List.length (parse_docx nfkd paragraphs)
     = List.length (filter is_day_title paragraphs)
  /\ Forall (read_from paragraphs) (parse_docx nfkd paragraphs).
Proof. apply parse_docx_spec. Qed.

(** ** The names found in a text *)

Lemma dict_set_values {V : Type} (d : list (string * V)) (k0 : string)
      (v0 : V) (k : string) (v : V) :
  In (k, v) (dict_set d k0 v0) -> v = v0 \/ In (k, v) d.
Proof.
  induction d as [|[k' v'] rest IH]; cbn [dict_set]; intros H.
  - destruct H as [[= <- <-]|[]]. now left.
  - destruct (k0 =? k')%string.
    + destruct H as [[= <- <-]|H]; [now left|right; now right].
    + destruct H as [H|H]; [right; now left|].
      destruct (IH H) as [->|Hin]; [now left|right; now right].
Qed.

Lemma ALIAS_INDEX_values (nfkd : string -> string) (k v : string) :
  In (k, v) (ALIAS_INDEX nfkd) -> In v (map name LOCATION_LIBRARY).
Proof.
  unfold ALIAS_INDEX.
  assert (Hinner : forall (loc : LocationInfo) keys d,
            In (name loc) (map name LOCATION_LIBRARY) ->
            (forall k v, In (k, v) d -> In v (map name LOCATION_LIBRARY)) ->
            forall k v,
              In (k, v)
                (fold_left (fun d alias =>
                              dict_set d (normalize_text nfkd alias) (name loc))
                   keys d) ->
              In v (map name LOCATION_LIBRARY)).
  { intros loc keys. induction keys as [|a keys IH]; intros d Hl Hd k0 v0 H;
      [now apply (Hd k0)|].
    cbn [fold_left] in H. apply (IH _ Hl) in H; [exact H|].
    intros k1 v1 H1. apply dict_set_values in H1 as [->|H1];
      [exact Hl|now apply (Hd k1)]. }
  assert (Houter : forall locs d,
            incl locs LOCATION_LIBRARY ->
            (forall k v, In (k, v) d -> In v (map name LOCATION_LIBRARY)) ->
            forall k v,
              In (k, v)
                (fold_left
                   (fun d loc =>
                      fold_left (fun d alias =>
                                   dict_set d (normalize_text nfkd alias)
                                     (name loc))
                        (alias_keys loc) d)
                   locs d) ->
              In v (map name LOCATION_LIBRARY)).
  { induction locs as [|loc locs IH]; intros d Hl Hd k0 v0 H;
      [now apply (Hd k0)|].
    cbn [fold_left] in H. apply IH in H; [exact H| |].
    - intros x Hx. apply Hl. now right.
    - apply Hinner; [|exact Hd]. apply in_map, Hl. now left. }
  apply Houter; [apply incl_refl|intros k0 v0 []].
Qed.

Lemma find_in_line_spec (nfkd : string -> string) (norm_line : string)
      (found : list string) :
  NoDup found ->
  (forall n, In n found -> In n (map name LOCATION_LIBRARY)) ->
  NoDup (find_in_line nfkd norm_line found)
  /\ forall n, In n (find_in_line nfkd norm_line found) ->
               In n (map name LOCATION_LIBRARY).
Proof.
  unfold find_in_line.
  pose proof (ALIAS_INDEX_values nfkd) as Hv.
  revert found.
  induction (ALIAS_INDEX nfkd) as [|[alias nm] items IH]; intros found Hnd Hin;
    [now split|].
  cbn [fold_left].
  assert (Hv' : forall k v, In (k, v) items -> In v (map name LOCATION_LIBRARY))
    by (intros k v H; apply (Hv k); now right).
  destruct (negb (alias =? EmptyString)%string && contains alias norm_line
            && negb (mem nm found)) eqn:E; [|now apply IH].
  apply IH; [exact Hv'| |].
  - apply andb_prop in E as [_ E]. apply negb_true_iff in E.
    apply NoDup_app; [exact Hnd|repeat constructor; intros []|].
    intros x Hx [<-|[]]. apply mem_In in Hx. congruence.
  - intros n Hn. apply in_app_or in Hn as [Hn|[<-|[]]]; [now apply Hin|].
    apply (Hv alias). now left.
Qed.

Lemma find_locations_in_text_spec (nfkd : string -> string)
      (lines_ : list string) :
  NoDup (find_locations_in_text nfkd lines_)
  /\ forall n, In n (find_locations_in_text nfkd lines_) ->
               In n (map name LOCATION_LIBRARY).
Proof.
  unfold find_locations_in_text.
  assert (H : forall found,
             NoDup found ->
             (forall n, In n found -> In n (map name LOCATION_LIBRARY)) ->
             NoDup (fold_left
                      (fun found line =>
                         find_in_line nfkd (normalize_text nfkd line) found)
                      lines_ found)
             /\ forall n,
                  In n (fold_left
                          (fun found line =>
                             find_in_line nfkd (normalize_text nfkd line) found)
                          lines_ found) ->
                  In n (map name LOCATION_LIBRARY)).
  { induction lines_ as [|line rest IH]; intros found Hnd Hin; [now split|].
    cbn [fold_left].
    destruct (find_in_line_spec nfkd (normalize_text nfkd line) found Hnd Hin)
      as [Hnd' Hin'].
    now apply IH. }
  apply H; [constructor|intros n []].
Qed.

(** X22.  [find_locations_in_text] returns names of the catalog, each at
    most once, whatever the lines are; so the locations that [main] gives to
    a day hold no name twice and lack only the museums and the cathedral. *)
Theorem found_locations_are_catalog_names (nfkd : string -> string)
        (lines_ : list string) :
  NoDup (find_locations_in_text nfkd lines_)
  /\ (forall n, In n (find_locations_in_text nfkd lines_) ->
                In n (map name LOCATION_LIBRARY))
  /\ NoDup (clean_location_list (find_locations_in_text nfkd lines_))
  /\ forall n,
       In n (find_locations_in_text nfkd lines_) ->
       ~ In n ["National Gallery"; "British Museum"; "St Paul's Cathedral"] ->
       In n (clean_location_list (find_locations_in_text nfkd lines_)).
Proof.
  destruct (find_locations_in_text_spec nfkd lines_) as [Hnd Hin].
  split; [exact Hnd|]. split; [exact Hin|].
  rewrite clean_location_list_filter. split; [now apply NoDup_filter|].
  intros n Hn Hno. apply filter_In. split; [exact Hn|].
  apply keep_location_catalog. split; [now apply Hin|exact Hno].
Qed.

(** ** The planning steps of [main] *)

Lemma Forall2_nth_r {A B : Type} (P : A -> B -> Prop) (l : list A)
      (l' : list B) (i : nat) (x' : B) :
  Forall2 P l l' -> nth_error l' i = Some x' ->
  exists x, nth_error l i = Some x /\ P x x'.
Proof.
  intros H. revert i. induction H as [|y y' l l' Hy _ IH]; intros i Hi.
  - now destruct i.
  - destruct i as [|i]; [|now apply IH].
    cbn in Hi. injection Hi as <-. now exists y.
Qed.

Lemma nth_error_combine {A B : Type} (l : list A) (l' : list B) (i : nat)
      (x : A) (x' : B) :
  nth_error l i = Some x -> nth_error l' i = Some x' ->
  In (x, x') (combine l l').
Proof.
  revert l' i. induction l as [|y l IH]; intros [|y' l'] [|i] H H';
    try discriminate.
  - cbn in H, H'. injection H as <-. injection H' as <-. now left.
  - right. now apply (IH l' i).
Qed.

Lemma In_combine_nth {A B : Type} (l : list A) (l' : list B) (x : A)
      (x' : B) :
  In (x, x') (combine l l') ->
  exists i, nth_error l i = Some x /\ nth_error l' i = Some x'.
Proof.
  revert l'. induction l as [|y l IH]; intros [|y' l'] H; try destruct H.
  - injection H as <- <-. now exists 0%nat.
  - destruct (IH l' H) as (i & Hi & Hi'). now exists (S i).
Qed.

Lemma NoDup_app_disjoint {A : Type} (a b : list A) (x : A) :
  NoDup (a ++ b) -> In x a -> In x b -> False.
Proof.
  induction a as [|y a IH]; intros H Ha Hb; [destruct Ha|].
  inversion H as [|? ? Hy Hrest]; subst.
  destruct Ha as [->|Ha]; [|now apply IH].
  apply Hy, in_or_app. now right.
Qed.

Lemma newly_added_position (n : string) (l : list DaySection) :
  forall l' i j d d' e e',
    NoDup (all_newly_added l l') ->
    nth_error l i = Some d -> nth_error l' i = Some d' ->
    nth_error l j = Some e -> nth_error l' j = Some e' ->
    In n (newly_added d d') -> In n (newly_added e e') -> i = j.
Proof.
  induction l as [|x l IH]; intros l' i j d d' e e' Hnd Hi Hi' Hj Hj' Hd He;
    [now destruct i|].
  destruct l' as [|x' l']; [now destruct i|].
  change (all_newly_added (x :: l) (x' :: l'))
    with (newly_added x x' ++ all_newly_added l l')%list in Hnd.
  destruct i as [|i], j as [|j]; cbn in Hi, Hi', Hj, Hj'.
  - reflexivity.
  - injection Hi as <-. injection Hi' as <-. exfalso.
    apply (NoDup_app_disjoint _ _ n Hnd Hd).
    apply all_newly_added_In. exists e, e'.
    split; [now apply (nth_error_combine _ _ j)|exact He].
  - injection Hj as <-. injection Hj' as <-. exfalso.
    apply (NoDup_app_disjoint _ _ n Hnd He).
    apply all_newly_added_In. exists d, d'.
    split; [now apply (nth_error_combine _ _ i)|exact Hd].
  - f_equal. apply (IH l' i j d d' e e'); try assumption.
    now apply NoDup_app_remove_l in Hnd.
Qed.

(** Adding the essentials keeps a name on at most one day. *)
Lemma augmented_once_or_exempt (n : string) (days days' : list DaySection) :
  Forall2 augmented days days' ->
  NoDup (all_newly_added days days') ->
  (forall e d, In e (all_newly_added days days') -> In d days ->
               ~ In e (locations d)) ->
  once_or_exempt n days -> once_or_exempt n days'.
Proof.
  intros Hf Hnd Hout [b Hb].
  assert (Hstep : forall i d d',
            nth_error days i = Some d -> nth_error days' i = Some d' ->
            mem n (locations d') = true ->
            (mem n (locations d) = true /\ exempt n d' = exempt n d)
            \/ In n (newly_added d d')).
  { intros i d d' Hd Hd' Hm.
    pose proof (Forall2_combine _ _ _ _ _ Hf (nth_error_combine _ _ _ _ _ Hd Hd'))
      as Ha.
    destruct (augmented_locations _ _ Ha) as (_ & Hin & _).
    apply mem_In, Hin in Hm as [_ [Hm|Hm]]; [left|now right].
    split; [now apply mem_In|].
    destruct Ha as ((_ & _ & Hth & _) & _). unfold exempt. now rewrite Hth. }
  destruct (in_dec string_dec n (all_newly_added days days')) as [Hn|Hn].
  - apply all_newly_added_In in Hn as (e & e' & Hc & He).
    destruct (In_combine_nth _ _ _ _ Hc) as (j & Hj & Hj').
    exists j. intros i d' Hd' Hm.
    destruct (Forall2_nth_r _ _ _ _ _ Hf Hd') as (d & Hd & _).
    destruct (Hstep i d d' Hd Hd' Hm) as [[Hm1 _]|Hnew].
    + exfalso. apply (Hout n d).
      * apply all_newly_added_In. now exists e, e'.
      * now apply nth_error_In in Hd.
      * now apply mem_In.
    + left. apply (newly_added_position n days days' i j d d' e e');
        assumption.
  - exists b. intros i d' Hd' Hm.
    destruct (Forall2_nth_r _ _ _ _ _ Hf Hd') as (d & Hd & _).
    destruct (Hstep i d d' Hd Hd' Hm) as [[Hm1 Hex]|Hnew].
    + rewrite Hex. now apply (Hb i d).
    + exfalso. apply Hn, all_newly_added_In. exists d, d'.
      split; [now apply (nth_error_combine _ _ i)|exact Hnew].
Qed.

(** The two filters of [main]. *)
Lemma post_filter_plan (d : DaySection) :
  index (post_filter d) = index d /\ theme (post_filter d) = theme d
  /\ timeline (post_filter d) = timeline d.
Proof.
  unfold post_filter.
  destruct (mem "Oblix at The Shard" (locations d)
            && mem "The Shard" (locations d));
    cbn [theme set_locations]; destruct (theme d =? "city")%string;
    now repeat split.
Qed.

Lemma post_filter_locations (d : DaySection) :
  locations (post_filter d)
  = let l :=
      if mem "Oblix at The Shard" (locations d)
         && mem "The Shard" (locations d)
      then filter (fun loc => negb (loc =? "The Shard")%string) (locations d)
      else locations d in
    if (theme d =? "city")%string
    then filter (fun loc => negb (loc =? "Hyde Park")%string) l
    else l.
Proof.
  unfold post_filter.
  destruct (mem "Oblix at The Shard" (locations d)
            && mem "The Shard" (locations d));
    cbn [theme set_locations]; now destruct (theme d =? "city")%string.
Qed.

Lemma post_filter_subseq (d : DaySection) :
  subseq (locations (post_filter d)) (locations d).
Proof.
  rewrite post_filter_locations. cbn zeta.
  destruct (mem "Oblix at The Shard" (locations d)
            && mem "The Shard" (locations d));
    destruct (theme d =? "city")%string;
    try apply filter_subseq; try apply subseq_refl.
  eapply subseq_trans; apply filter_subseq.
Qed.

Lemma subseq_In (l l' : list string) (x : string) :
  subseq l l' -> In x l -> In x l'.
Proof.
  induction 1 as [|y l l' _ IH|y l l' _ IH]; intros H.
  - exact H.
  - destruct H as [<-|H]; [now left|right; now apply IH].
  - right. now apply IH.
Qed.

Lemma subseq_NoDup (l l' : list string) :
  subseq l l' -> NoDup l' -> NoDup l.
Proof.
  induction 1 as [|y l l' Hs IH|y l l' _ IH]; intros H.
  - constructor.
  - inversion H as [|? ? Hy Hrest]; subst. constructor; [|now apply IH].
    intros Hin. apply Hy. now apply (subseq_In l).
  - inversion H; subst. now apply IH.
Qed.

Lemma post_filter_no_hyde_park (d : DaySection) :
  theme d = "city" -> ~ In "Hyde Park" (locations (post_filter d)).
Proof.
  intros Ht Hin. rewrite post_filter_locations, Ht in Hin. cbn zeta in Hin.
  cbn [String.eqb Ascii.eqb Bool.eqb] in Hin.
  apply filter_In in Hin as [_ Hin]. discriminate.
Qed.

Lemma post_filter_no_shard_with_oblix (d : DaySection) :
  In "The Shard" (locations (post_filter d)) ->
  In "Oblix at The Shard" (locations (post_filter d)) -> False.
Proof.
  intros Hs Ho.
  pose proof (subseq_In _ _ _ (post_filter_subseq d) Hs) as Hs'.
  pose proof (subseq_In _ _ _ (post_filter_subseq d) Ho) as Ho'.
  rewrite post_filter_locations in Hs. cbn zeta in Hs.
  apply mem_In in Hs', Ho'. rewrite Hs', Ho' in Hs. cbn [andb] in Hs.
  destruct (theme d =? "city")%string.
  - apply filter_In in Hs as [Hs _]. apply filter_In in Hs as [_ Hs].
    discriminate.
  - apply filter_In in Hs as [_ Hs]. discriminate.
Qed.

(** The loop that schedules the days. *)
Lemma zdict_get_set {V : Type} (d : list (Z * V)) (k k' : Z) (v : V) :
  zdict_get (zdict_set d k v) k'
  = if k' =? k then Some v else zdict_get d k'.
Proof.
  induction d as [|[k0 v0] rest IH]; cbn [zdict_set zdict_get].
  - now destruct (Z.eqb_spec k' k).
  - destruct (Z.eqb_spec k k0) as [->|Hne]; cbn [zdict_get].
    + now destruct (Z.eqb_spec k' k0).
    + rewrite IH. destruct (Z.eqb_spec k' k0) as [->|Hne'];
        [|reflexivity].
      destruct (Z.eqb_spec k0 k); [congruence|reflexivity].
Qed.

Lemma schedule_loop_spec (days : list DaySection) :
  (forall d, In d days -> exists segs, build_day_schedule d = Ok segs) ->
  NoDup (map index days) ->
  forall acc, exists day_segments,
    schedule_loop days acc = Ok day_segments
    /\ (forall k, ~ In k (map index days) ->
                  zdict_get day_segments k = zdict_get acc k)
    /\ forall d, In d days ->
         exists segs, build_day_schedule d = Ok segs
                      /\ zdict_get day_segments (index d) = Some segs.
Proof.
  induction days as [|d rest IH]; intros Hok Hnd acc; cbn [schedule_loop].
  - exists acc. split; [reflexivity|]. split; [reflexivity|intros d []].
  - destruct (Hok d (or_introl eq_refl)) as [segs Hs]. rewrite Hs.
    cbn [bind]. inversion Hnd as [|? ? Hd Hrest]; subst.
    destruct (IH (fun x Hx => Hok x (or_intror Hx)) Hrest
                (zdict_set acc (index d) segs)) as (r & Hr & Hout & Hin).
    exists r. split; [exact Hr|]. split.
    + intros k Hk. rewrite Hout by (intros H; apply Hk; now right).
      rewrite zdict_get_set.
      destruct (Z.eqb_spec k (index d)) as [->|_]; [|reflexivity].
      exfalso. apply Hk. now left.
    + intros x [<-|Hx]; [|now apply Hin].
      exists segs. split; [exact Hs|].
      rewrite (Hout _ Hd), zdict_get_set. now rewrite Z.eqb_refl.
Qed.

Lemma well_indexed_NoDup (days : list DaySection) :
  well_indexed days -> NoDup (map index days).
Proof.
  intros W. apply (proj2 (NoDup_nth_error _)). intros i j Hi E.
  rewrite length_map in Hi.
  rewrite !nth_error_map in E.
  destruct (nth_error days i) as [d|] eqn:Hd;
    [|apply nth_error_None in Hd; lia].
  destruct (nth_error days j) as [e|] eqn:He; [|discriminate].
  cbn in E. injection E as E.
  rewrite (W i d Hd), (W j e He) in E. lia.
Qed.

Lemma well_indexed_Forall2 (R : DaySection -> DaySection -> Prop)
      (days days' : list DaySection) :
  (forall d d', R d d' -> index d' = index d) ->
  Forall2 R days days' -> well_indexed days -> well_indexed days'.
Proof.
  intros HR Hf W i d' Hd'.
  destruct (Forall2_nth_r _ _ _ _ _ Hf Hd') as (d & Hd & Hr).
  rewrite (HR _ _ Hr). now apply W.
Qed.

Lemma Forall2_map_r {A B : Type} (f : A -> B) (l : list A) :
  Forall2 (fun x y => y = f x) l (map f l).
Proof. induction l; constructor; auto. Qed.

Lemma Forall2_Forall {A B : Type} (R : A -> B -> Prop) (P : A -> Prop)
      (Q : B -> Prop) (l : list A) (l' : list B) :
  (forall x y, R x y -> P x -> Q y) ->
  Forall2 R l l' -> Forall P l -> Forall Q l'.
Proof.
  intros H Hf. induction Hf as [|x y l l' Hxy _ IH]; intros Hp;
    [constructor|].
  inversion Hp; subst. constructor; [now apply (H x)|now apply IH].
Qed.

Lemma merge_audited (days days' : list DaySection) :
  merge_duplicate_locations days = Ok days' -> Forall2 audited days days'.
Proof.
  intros E. unfold merge_duplicate_locations in E.
  destruct (centroids_loop days []) as [cs|]; [|discriminate].
  exact (merge_loop_audited cs _ _ _ E).
Qed.

(** What a day of the final plan looks like. *)
Lemma main_spec (nfkd : string -> string) (paragraphs : list string) :
  exists days1 days2 day_segments,
    merge_duplicate_locations (map (locate nfkd) (parse_docx nfkd paragraphs))
    = Ok days1
    /\ add_missing_essentials days1 = Ok days2
    /\ schedule_loop (map post_filter days2) [] = Ok day_segments
    /\ main nfkd paragraphs = Ok (map post_filter days2, day_segments)
    /\ well_indexed days1
    /\ List.length days1 = List.length (filter is_day_title paragraphs)
    /\ (forall n, skip_dedup n = false -> once_or_exempt n days1)
    /\ Forall2 augmented days1 days2
    /\ NoDup (all_newly_added days1 days2)
    /\ (forall e d, In e (all_newly_added days1 days2) -> In d days1 ->
                    ~ In e (locations d))
    /\ (forall d, In d (map post_filter days2) ->
          exists segs, build_day_schedule d = Ok segs
                       /\ zdict_get day_segments (index d) = Some segs).
Proof.
  destruct (parse_docx_spec nfkd paragraphs) as (W0 & L0 & F0).
  set (days0 := map (locate nfkd) (parse_docx nfkd paragraphs)).
  assert (Hf0 : Forall2 (fun d d' => d' = locate nfkd d)
                  (parse_docx nfkd paragraphs) days0)
    by apply Forall2_map_r.
  assert (W0' : well_indexed days0).
  { apply (well_indexed_Forall2 _ _ _) with (2 := Hf0) (3 := W0).
    intros d d' ->. reflexivity. }
  assert (T0 : Forall (fun d => exists buffer,
                         timeline d = extract_timeline buffer) days0).
  { eapply Forall2_Forall; [|exact Hf0|exact F0].
    intros d d' -> (_ & _ & _ & _ & b & _ & _ & Hb). now exists b. }
  destruct (merge_spec days0 W0') as (days1 & E1 & W1 & S1 & Q1).
  pose proof (merge_audited _ _ E1) as A1.
  destruct (add_missing_essentials_spec days1)
    as (days2 & E2 & Hf2 & Hnd2 & Hout2 & _).
  assert (W2 : well_indexed days2).
  { apply (well_indexed_Forall2 _ _ _) with (2 := Hf2) (3 := W1).
    intros d d' H. apply H. }
  assert (T1 : Forall (fun d => exists buffer,
                         timeline d = extract_timeline buffer) days1).
  { eapply Forall2_Forall; [|exact A1|exact T0].
    intros d d' (_ & _ & _ & _ & Ht & _) [b Hb]. exists b. congruence. }
  assert (T2 : Forall (fun d => exists buffer,
                         timeline d = extract_timeline buffer) days2).
  { eapply Forall2_Forall; [|exact Hf2|exact T1].
    intros d d' ((_ & _ & _ & _ & Ht & _) & _) [b Hb]. exists b.
    congruence. }
  destruct (schedule_loop_spec (map post_filter days2))
    with (acc := @nil (Z * list Segment)) as (segs & E3 & _ & Hget).
  { intros d Hd. apply in_map_iff in Hd as (d2 & <- & Hd2).
    rewrite Forall_forall in T2. destruct (T2 d2 Hd2) as [b Hb].
    destruct (extract_timeline_schedulable b (post_filter d2))
      as (s & e & sg & _ & Hs).
    - destruct (post_filter_plan d2) as (_ & _ & ->). exact Hb.
    - now exists sg. }
  { rewrite map_map.
    rewrite (map_ext _ index (fun d => proj1 (post_filter_plan d))).
    now apply well_indexed_NoDup. }
  exists days1, days2, segs.
  split; [exact E1|]. split; [exact E2|]. split; [exact E3|].
  split.
  { unfold main. fold days0. rewrite E1. cbn [bind]. rewrite E2.
    cbn [bind]. rewrite E3. reflexivity. }
  split; [exact W1|]. split.
  { destruct S1 as [-> _]. subst days0. now rewrite length_map. }
  split; [exact Q1|]. split; [exact Hf2|]. split; [exact Hnd2|].
  split; [exact Hout2|exact Hget].
Qed.

Lemma post_filter_once_or_exempt (n : string) (days : list DaySection) :
  once_or_exempt n days -> once_or_exempt n (map post_filter days).
Proof.
  intros [b Hb]. exists b. intros i d' Hd' Hm.
  rewrite nth_error_map in Hd'.
  destruct (nth_error days i) as [d|] eqn:Hd; [|discriminate].
  cbn in Hd'. injection Hd' as <-.
  assert (Hex : exempt n (post_filter d) = exempt n d)
    by (unfold exempt; now destruct (post_filter_plan d) as (_ & -> & _)).
  rewrite Hex. apply (Hb i d Hd).
  apply mem_In. apply mem_In in Hm.
  now apply (subseq_In _ _ _ (post_filter_subseq d)).
Qed.

(** X23.  Whatever the paragraphs of the document, the planning steps of
    [main] (locating, deduplication, essentials, filters, schedules) raise
    no exception.  The plan has one day per day title, numbered by position,
    and [day_segments] holds under the index of each day the schedule that
    [build_day_schedule] computes for it. *)
Theorem main_always_plans (nfkd : string -> string)
        (paragraphs : list string) :
  exists days day_segments,
    main nfkd paragraphs = Ok (days, day_segments)
    /\ well_indexed days
    /\ List.length days = List.length (filter is_day_title paragraphs)
    /\ forall d, In d days ->
         exists segs, build_day_schedule d = Ok segs
                      /\ zdict_get day_segments (index d) = Some segs.
Proof.
  destruct (main_spec nfkd paragraphs)
    as (days1 & days2 & segs & _ & _ & _ & E & W1 & L1 & _ & Hf & _ & _ & Hget).
  exists (map post_filter days2), segs. split; [exact E|]. split; [|split].
  - apply (well_indexed_Forall2 (fun d d' => d' = post_filter d) days2);
      [|apply Forall2_map_r|].
    + intros d d' ->. apply post_filter_plan.
    + apply (well_indexed_Forall2 _ _ _) with (2 := Hf) (3 := W1).
      intros d d' H. apply H.
  - rewrite length_map, <- L1. symmetry. exact (Forall2_length Hf).
  - exact Hget.
Qed.

(** X24.  In the plan that [main] computes, the locations of every day
    hold no name twice and only catalog names that pass the tests of
    [clean_location_list]; a day of theme "city" does not list Hyde Park, and
    no day lists both The Shard and Oblix at The Shard. *)
Theorem main_final_locations (nfkd : string -> string)
        (paragraphs : list string) :
  exists days day_segments,
    main nfkd paragraphs = Ok (days, day_segments)
    /\ Forall
         (fun d =>
            NoDup (locations d)
            /\ (forall n, In n (locations d) -> keep_location n = true)
            /\ (theme d = "city" -> ~ In "Hyde Park" (locations d))
            /\ ~ (In "The Shard" (locations d)
                  /\ In "Oblix at The Shard" (locations d)))
         days.
Proof.
  destruct (main_spec nfkd paragraphs)
    as (days1 & days2 & segs & _ & _ & _ & E & _ & _ & _ & Hf & _).
  exists (map post_filter days2), segs. split; [exact E|].
  apply Forall_forall. intros d Hd.
  apply in_map_iff in Hd as (d2 & <- & Hd2).
  destruct (Forall2_In_r _ _ _ _ Hf Hd2) as (d1 & _ & Ha).
  destruct (augmented_locations _ _ Ha) as (Hnd & Hin & _).
  pose proof (post_filter_subseq d2) as Hs.
  split; [now apply (subseq_NoDup _ _ Hs)|]. split; [|split].
  - intros n Hn. apply (subseq_In _ _ _ Hs), Hin in Hn. tauto.
  - destruct (post_filter_plan d2) as (_ & -> & _).
    apply post_filter_no_hyde_park.
  - intros [H1 H2]. exact (post_filter_no_shard_with_oblix d2 H1 H2).
Qed.

(** X25.  In the plan that [main] computes, a name of the dedup whitelist
    is listed by at most one day, the arrival days that keep the hotel
    aside: what the deduplicator establishes is kept by the essentials and
    by the filters. *)
Theorem main_lists_an_anchor_once (nfkd : string -> string)
        (paragraphs : list string) :
  exists days day_segments,
    main nfkd paragraphs = Ok (days, day_segments)
    /\ forall n, mem n DEDUP_WHITELIST = true ->
         (days_listing_unexempt n days <= 1)%nat
         /\ (n <> HOTEL_NAME -> (days_listing n days <= 1)%nat).
Proof.
  destruct (main_spec nfkd paragraphs)
    as (days1 & days2 & segs & _ & _ & _ & E & _ & _ & Q & Hf & Hnd & Hout & _).
  exists (map post_filter days2), segs. split; [exact E|].
  intros n Hw.
  assert (Hc : (days_listing_unexempt n (map post_filter days2) <= 1)%nat).
  { apply once_or_exempt_count, post_filter_once_or_exempt.
    apply (augmented_once_or_exempt n days1 days2 Hf Hnd Hout), Q.
    rewrite skip_dedup_whitelist, Hw. reflexivity. }
  split; [exact Hc|]. intros Hne. now rewrite <- (days_listing_plain n).
Qed.

(** ** The stops of a schedule *)

Lemma stops_app (a b : list Segment) :
  stops (a ++ b) = (stops a ++ stops b)%list.
Proof. unfold stops. now rewrite filter_app, map_app. Qed.

(** With a known place, one turn of the loop either breaks, when the
    transfer does not fit, or stops at the place: the visit is never
    skipped, its duration being at least 30 minutes. *)
Lemma visit_body_stops (end_time : Z) (n : string) (info : LocationInfo)
      (st : sched) :
  LOCATION_MAP_get n = Some info ->
  (visit_body end_time n st = Break
   /\ end_time < current_time st + estimate_travel_minutes (previous st) n)
  \/ exists st',
       visit_body end_time n st = Next st'
       /\ current_time st + estimate_travel_minutes (previous st) n
          <= end_time
       /\ stops (segments st') = (stops (segments st) ++ [n])%list.
Proof.
  intros Hg. unfold visit_body. rewrite Hg.
  set (travel := estimate_travel_minutes (previous st) n).
  destruct (Z.gtb_spec (current_time st + travel) end_time) as [Hgt|Hfit];
    [left; split; [reflexivity|lia]|].
  right.
  set (st1 := if travel =? 0 then st else _).
  assert (H1 : stops (segments st1) = stops (segments st)).
  { subst st1. destruct (travel =? 0); [reflexivity|].
    cbn [segments]. rewrite stops_app. cbn. apply app_nil_r. }
  clearbody st1.
  set (vd0 := if (category info =? "food")%string then _ else _).
  assert (H0 : 45 <= vd0)
    by (subst vd0; destruct (category info =? "food")%string; lia).
  set (vd := if current_time st1 + vd0 >? end_time then _ else _).
  assert (Hvd : 30 <= vd)
    by (subst vd; destruct (current_time st1 + vd0 >? end_time); lia).
  destruct (Z.leb_spec vd 0) as [|_]; [lia|].
  eexists. split; [reflexivity|]. split; [exact Hfit|].
  cbn [segments]. rewrite stops_app, H1. f_equal.
  unfold stops, is_stop. cbn [filter segment_type].
  now destruct (category info =? "food")%string.
Qed.

Lemma visit_loop_stops (end_time : Z) (order : list string) :
  (forall n, In n order -> exists info, LOCATION_MAP_get n = Some info) ->
  forall st, exists sub rest,
    order = (sub ++ rest)%list
    /\ stops (segments (visit_loop end_time order st))
       = (stops (segments st) ++ sub)%list.
Proof.
  induction order as [|n order IH]; intros Hk st; cbn [visit_loop].
  - exists [], []. split; [reflexivity|now rewrite app_nil_r].
  - destruct (Hk n (or_introl eq_refl)) as [info Hg].
    destruct (visit_body_stops end_time n info st Hg)
      as [[-> _]|(st' & -> & _ & E)].
    + exists [], (n :: order). split; [reflexivity|now rewrite app_nil_r].
    + destruct (IH (fun x Hx => Hk x (or_intror Hx)) st')
        as (sub & rest & -> & E').
      exists (n :: sub), rest. split; [reflexivity|].
      now rewrite E', E, <- app_assoc.
Qed.

Lemma visits_of_known (day : DaySection) (n : string) :
  In n (visits_of day) -> exists info, LOCATION_MAP_get n = Some info.
Proof.
  intros H. apply make_visits_order_In in H as [H| ->].
  - apply drop_shard_incl, poi_loop_In in H as [[]|(_ & info & Hg & _)].
    now exists info.
  - assert (E : option_map category (LOCATION_MAP_get "Oblix at The Shard")
                = Some "food") by reflexivity.
    destruct (LOCATION_MAP_get "Oblix at The Shard") as [info|];
      [now exists info|discriminate].
Qed.

Lemma return_transfer_stops (st : sched) :
  stops (segments (return_transfer st)) = stops (segments st).
Proof.
  unfold return_transfer. cbn [segments]. rewrite stops_app. cbn.
  apply app_nil_r.
Qed.

Lemma closing_evening_stops (end_time : Z) (st : sched) :
  stops (segments (closing_evening end_time st)) = stops (segments st).
Proof.
  unfold closing_evening.
  destruct (negb (previous st =? HOTEL_NAME)%string); [|reflexivity].
  destruct (current_time (return_transfer st) <? end_time);
    [|apply return_transfer_stops].
  cbn [segments]. rewrite stops_app, return_transfer_stops. cbn.
  apply app_nil_r.
Qed.

Lemma closing_departure_stops (st : sched) :
  stops (segments (closing_departure st)) = stops (segments st).
Proof.
  unfold closing_departure. cbn [segments]. rewrite !stops_app.
  cbn. rewrite !app_nil_r.
  destruct (negb (previous st =? HOTEL_NAME)%string);
    [apply return_transfer_stops|reflexivity].
Qed.

Lemma preferred_loop_NoDup (preferred poi : list string) :
  forall vo, NoDup vo -> NoDup (preferred_loop preferred poi vo).
Proof.
  induction preferred as [|n rest IH]; intros vo H; [exact H|].
  cbn [preferred_loop].
  destruct (mem n poi && negb (mem n vo)) eqn:E; [|now apply IH].
  apply IH. apply andb_prop in E as [_ E]. apply negb_true_iff in E.
  apply NoDup_app; [exact H|repeat constructor; intros []|].
  intros x Hx [<-|[]]. apply mem_In in Hx. congruence.
Qed.

Lemma remainder_loop_NoDup (poi : list string) :
  forall vo, NoDup vo -> NoDup (remainder_loop poi vo).
Proof.
  induction poi as [|n rest IH]; intros vo H; [exact H|].
  cbn [remainder_loop].
  destruct (negb (mem n vo)) eqn:E; [|now apply IH].
  apply IH. apply negb_true_iff in E.
  apply NoDup_app; [exact H|repeat constructor; intros []|].
  intros x Hx [<-|[]]. apply mem_In in Hx. congruence.
Qed.

Lemma make_visits_order_NoDup (day_theme : string) (poi : list string) :
  NoDup (make_visits_order day_theme poi).
Proof.
  unfold make_visits_order.
  set (vo := remainder_loop poi _).
  assert (H : NoDup vo)
    by (apply remainder_loop_NoDup, preferred_loop_NoDup; constructor).
  destruct ((day_theme =? "city")%string
            && negb (mem "Oblix at The Shard" vo)) eqn:E; [|exact H].
  apply andb_prop in E as [_ E]. apply negb_true_iff in E.
  apply NoDup_app; [exact H|repeat constructor; intros []|].
  intros x Hx [<-|[]]. apply mem_In in Hx. congruence.
Qed.

Lemma hotel_not_a_visit (day : DaySection) : ~ In HOTEL_NAME (visits_of day).
Proof.
  intros H.
  assert (E : option_map category (LOCATION_MAP_get HOTEL_NAME) = Some "hotel")
    by reflexivity.
  destruct (LOCATION_MAP_get HOTEL_NAME) as [info|] eqn:Hg; [|discriminate].
  pose proof (visits_of_category day _ info H Hg) as Hc.
  cbn in E. injection E as E. rewrite E in Hc. discriminate.
Qed.

Lemma prefix_subseq (sub rest : list string) : subseq sub (sub ++ rest).
Proof.
  induction sub as [|x sub IH]; cbn; [|now constructor].
  induction rest; now constructor.
Qed.

(** The states of the scheduler after the prologue and after the loop. *)
Lemma build_day_schedule_stops (day : DaySection) (s e : Z) :
  get_day_time_bounds day = Ok (s, e) ->
  exists st1,
    (if (theme day =? "arrival")%string
     then arrival_prologue (Build_sched s HOTEL_NAME [])
     else Ok (Build_sched s HOTEL_NAME [])) = Ok st1
    /\ previous st1 = HOTEL_NAME
    /\ current_time st1
       = s + (if (theme day =? "arrival")%string then 150 else 0)
    /\ stops (segments st1)
       = (if (theme day =? "arrival")%string then [HOTEL_NAME] else [])
    /\ exists segs,
         build_day_schedule day = Ok segs
         /\ stops segs = stops (segments (visit_loop e (visits_of day) st1))
         /\ (theme day <> "arrival" -> theme day <> "departure" ->
             previous (visit_loop e (visits_of day) st1) = HOTEL_NAME ->
             segs = segments (visit_loop e (visits_of day) st1)).
Proof.
  intros Hb. unfold build_day_schedule. rewrite Hb. cbn [bind].
  fold (visits_of day).
  set (st0 := Build_sched s HOTEL_NAME []).
  assert (Hst : exists st1,
             (if (theme day =? "arrival")%string then arrival_prologue st0
              else Ok st0) = Ok st1
             /\ previous st1 = HOTEL_NAME
             /\ current_time st1
                = s + (if (theme day =? "arrival")%string then 150 else 0)
             /\ stops (segments st1)
                = if (theme day =? "arrival")%string then [HOTEL_NAME]
                  else []).
  { destruct (theme day =? "arrival")%string.
    - rewrite arrival_prologue_eq. eexists. split; [reflexivity|].
      split; [reflexivity|]. split; [cbn; lia|reflexivity].
    - exists st0. split; [reflexivity|]. split; [reflexivity|].
      split; [cbn; lia|reflexivity]. }
  destruct Hst as (st1 & E1 & Hp & Hc & H1). exists st1.
  split; [exact E1|]. split; [exact Hp|]. split; [exact Hc|].
  split; [exact H1|]. rewrite E1. cbn [bind].
  set (st2 := visit_loop e (visits_of day) st1). clearbody st2.
  eexists. split; [reflexivity|]. split.
  - destruct (theme day =? "departure")%string; cbn [negb].
    + apply closing_departure_stops.
    + apply closing_evening_stops.
  - intros _ Hnd Hprev.
    destruct (String.eqb_spec (theme day) "departure") as [|_];
      [contradiction|].
    cbn [negb]. unfold closing_evening. now rewrite Hprev.
Qed.

Lemma visit_body_tour (end_time : Z) (n : string) (info : LocationInfo)
      (st : sched) :
  LOCATION_MAP_get n = Some info ->
  (visit_body end_time n st = Break
   /\ end_time < current_time st + estimate_travel_minutes (previous st) n)
  \/ exists st' x,
       visit_body end_time n st = Next st'
       /\ filter is_stop (segments st')
          = (filter is_stop (segments st) ++ [x])%list
       /\ location x = n
       /\ start x = current_time st + estimate_travel_minutes (previous st) n
       /\ start x <= end_time
       /\ current_time st' = end_ x
       /\ previous st' = n.
Proof.
  intros Hg. unfold visit_body. rewrite Hg.
  set (travel := estimate_travel_minutes (previous st) n).
  destruct (Z.gtb_spec (current_time st + travel) end_time) as [Hgt|Hfit];
    [left; split; [reflexivity|lia]|].
  right.
  set (st1 := if travel =? 0 then st else _).
  assert (H1 : filter is_stop (segments st1) = filter is_stop (segments st)
               /\ current_time st1 = current_time st + travel).
  { subst st1. destruct (Z.eqb_spec travel 0) as [E|_].
    - split; [reflexivity|lia].
    - cbn [segments current_time]. rewrite filter_app. cbn.
      split; [apply app_nil_r|reflexivity]. }
  destruct H1 as [H1 Hc]. clearbody st1.
  set (vd0 := if (category info =? "food")%string then _ else _).
  assert (H0 : 45 <= vd0)
    by (subst vd0; destruct (category info =? "food")%string; lia).
  set (vd := if current_time st1 + vd0 >? end_time then _ else _).
  assert (Hvd : 30 <= vd)
    by (subst vd; destruct (current_time st1 + vd0 >? end_time); lia).
  destruct (Z.leb_spec vd 0) as [|_]; [lia|].
  set (ty := if (category info =? "food")%string then "meal" else "visit").
  eexists.
  exists (Build_Segment (current_time st1) (current_time st1 + vd) n n
            (describe_location n) ty).
  split; [reflexivity|].
  cbn [segments current_time previous]. rewrite filter_app, H1.
  split.
  - f_equal. unfold is_stop. cbn [filter segment_type].
    subst ty. destruct (category info =? "food")%string; reflexivity.
  - cbn [location start end_]. repeat split; lia.
Qed.

Lemma visit_loop_tour (end_time : Z) (order : list string) :
  (forall n, In n order -> exists info, LOCATION_MAP_get n = Some info) ->
  forall st, exists vs rest,
    order = (map location vs ++ rest)%list
    /\ filter is_stop (segments (visit_loop end_time order st))
       = (filter is_stop (segments st) ++ vs)%list
    /\ fits end_time (current_time st) (previous st) vs
    /\ match rest with
       | [] => True
       | n :: _ =>
           end_time
           < fst (tour_end (current_time st) (previous st) vs)
             + estimate_travel_minutes
                 (snd (tour_end (current_time st) (previous st) vs)) n
       end.
Proof.
  induction order as [|n order IH]; intros Hk st; cbn [visit_loop].
  - exists [], []. split; [reflexivity|]. split; [now rewrite app_nil_r|].
    now split.
  - destruct (Hk n (or_introl eq_refl)) as [info Hg].
    destruct (visit_body_tour end_time n info st Hg)
      as [[-> Hlt]|(st' & x & -> & E & Hl & Hs & Hle & Hc & Hp)].
    + exists [], (n :: order). split; [reflexivity|].
      split; [now rewrite app_nil_r|]. split; [exact I|exact Hlt].
    + destruct (IH (fun y Hy => Hk y (or_intror Hy)) st')
        as (vs & rest & -> & E' & Hf & Hr).
      exists (x :: vs), rest. cbn [map app]. rewrite Hl.
      split; [reflexivity|]. split; [now rewrite E', E, <- app_assoc|].
      cbn [fits tour_end]. rewrite Hl, <- Hc, <- Hp.
      split; [|exact Hr]. split; [rewrite Hp; exact Hs|].
      split; [exact Hle|exact Hf].
Qed.

Lemma closing_stop_segments (day_theme : string) (end_time : Z)
      (st : sched) :
  filter is_stop
    (segments
       (if (day_theme =? "departure")%string
        then closing_departure
               (if negb (day_theme =? "departure")%string
                then closing_evening end_time st else st)
        else if negb (day_theme =? "departure")%string
             then closing_evening end_time st else st))
  = filter is_stop (segments st).
Proof.
  assert (Hr : forall x, filter is_stop (segments (return_transfer x))
                         = filter is_stop (segments x)).
  { intros x. unfold return_transfer. cbn [segments].
    rewrite filter_app. cbn. apply app_nil_r. }
  destruct (day_theme =? "departure")%string; cbn [negb].
  - unfold closing_departure. cbn [segments]. rewrite !filter_app. cbn.
    rewrite !app_nil_r.
    destruct (negb (previous st =? HOTEL_NAME)%string); [apply Hr|reflexivity].
  - unfold closing_evening.
    destruct (negb (previous st =? HOTEL_NAME)%string); [|reflexivity].
    destruct (current_time (return_transfer st) <? end_time); [|apply Hr].
    cbn [segments]. rewrite filter_app, Hr. cbn. apply app_nil_r.
Qed.

(** X26.  In the schedule of a day, the visits and meals after the hotel
    check-in of an arrival day are at the first places of the visit order
    of the day, in that order.  Each of them starts when the transfer from
    the place before it (the hotel for the first) ends, as
    [estimate_travel_minutes] gives it, and by the end bound; the first
    place of the visit order that is not visited is one whose transfer,
    leaving the last visit when it ends, would end after the end bound.
    So the loop stops at the first place whose transfer does not fit and
    skips no place whose transfer fits.  No place is visited twice. *)
Theorem schedule_visits_each_place_once (day : DaySection) (s e : Z) :
  get_day_time_bounds day = Ok (s, e) ->
  let t0 := s + (if (theme day =? "arrival")%string then 150 else 0) in
  exists segs vs rest,
    build_day_schedule day = Ok segs
    /\ visits_of day = (map location vs ++ rest)%list
    /\ filter is_stop segs
       = ((if (theme day =? "arrival")%string
           then filter is_stop (arrival_segments s) else [])
          ++ vs)%list
    /\ fits e t0 HOTEL_NAME vs
    /\ match rest with
       | [] => True
       | n :: _ =>
           e < fst (tour_end t0 HOTEL_NAME vs)
               + estimate_travel_minutes (snd (tour_end t0 HOTEL_NAME vs)) n
       end
    /\ NoDup (stops segs).
Proof.
  intros Hb t0. unfold build_day_schedule. rewrite Hb. cbn [bind].
  fold (visits_of day).
  set (st0 := Build_sched s HOTEL_NAME []).
  assert (Hst : exists st1,
             (if (theme day =? "arrival")%string then arrival_prologue st0
              else Ok st0) = Ok st1
             /\ previous st1 = HOTEL_NAME
             /\ current_time st1 = t0
             /\ filter is_stop (segments st1)
                = if (theme day =? "arrival")%string
                  then filter is_stop (arrival_segments s) else []).
  { subst t0. destruct (theme day =? "arrival")%string.
    - rewrite arrival_prologue_eq. eexists. split; [reflexivity|].
      split; [reflexivity|]. split; [cbn; lia|reflexivity].
    - exists st0. split; [reflexivity|]. split; [reflexivity|].
      split; [cbn; lia|reflexivity]. }
  destruct Hst as (st1 & -> & Hp & Hc & H1). cbn [bind].
  destruct (visit_loop_tour e (visits_of day) (visits_of_known day) st1)
    as (vs & rest & Hv & H2 & Hf & Hr).
  rewrite Hp, Hc in Hf, Hr.
  eexists. exists vs, rest. split; [reflexivity|]. split; [exact Hv|].
  assert (E : filter is_stop
                (segments
                   (if (theme day =? "departure")%string
                    then closing_departure
                           (if negb (theme day =? "departure")%string
                            then closing_evening e
                                   (visit_loop e (visits_of day) st1)
                            else visit_loop e (visits_of day) st1)
                    else if negb (theme day =? "departure")%string
                         then closing_evening e
                                (visit_loop e (visits_of day) st1)
                         else visit_loop e (visits_of day) st1))
              = ((if (theme day =? "arrival")%string
                  then filter is_stop (arrival_segments s) else [])
                 ++ vs)%list)
    by (rewrite closing_stop_segments, H2, H1; reflexivity).
  split; [exact E|]. split; [exact Hf|]. split; [exact Hr|].
  unfold stops. rewrite E, map_app.
  assert (Hsub : subseq (map location vs) (visits_of day))
    by (rewrite Hv; apply prefix_subseq).
  pose proof (subseq_NoDup _ _ Hsub
                (make_visits_order_NoDup (theme day) _)) as Hnd.
  destruct (theme day =? "arrival")%string; [|exact Hnd].
  cbn [arrival_segments filter is_stop segment_type mem map location app].
  cbn. constructor; [|exact Hnd].
  intros Hin. apply (hotel_not_a_visit day).
  now apply (subseq_In _ _ _ Hsub).
Qed.

Lemma schedule_visits_each_place_once_witness :
  let t0 := 900 + (if (theme arrival_day =? "arrival")%string
                   then 150 else 0) in
  exists segs vs rest,
    build_day_schedule arrival_day = Ok segs
    /\ visits_of arrival_day = (map location vs ++ rest)%list
    /\ filter is_stop segs
       = ((if (theme arrival_day =? "arrival")%string
           then filter is_stop (arrival_segments 900) else [])
          ++ vs)%list
    /\ fits 1380 t0 HOTEL_NAME vs
    /\ match rest with
       | [] => True
       | n :: _ =>
           1380 < fst (tour_end t0 HOTEL_NAME vs)
                  + estimate_travel_minutes
                      (snd (tour_end t0 HOTEL_NAME vs)) n
       end
    /\ NoDup (stops segs).
Proof.
  apply (schedule_visits_each_place_once arrival_day 900 1380). reflexivity.
Defined.

(** X27.  On a day that is neither an arrival nor a departure, the
    schedule is empty exactly when the day has no place to visit or the
    transfer from the hotel to the first place of the visit order does not
    fit before the end bound; no closing segment is written then.
    Otherwise the first stop is that first place. *)
Theorem ordinary_day_without_a_first_visit (day : DaySection) (s e : Z) :
  get_day_time_bounds day = Ok (s, e) ->
  theme day <> "arrival" -> theme day <> "departure" ->
  match visits_of day with
  | [] => build_day_schedule day = Ok []
  | n :: _ =>
      if e <? s + estimate_travel_minutes HOTEL_NAME n
      then build_day_schedule day = Ok []
      else exists segs sub,
             build_day_schedule day = Ok segs /\ stops segs = n :: sub
  end.
Proof.
  intros Hb Ha Hd.
  destruct (build_day_schedule_stops day s e Hb)
    as (st1 & E1 & Hp & Hc & H1 & segs & Hs & E & Hempty).
  destruct (String.eqb_spec (theme day) "arrival") as [|_]; [contradiction|].
  injection E1 as <-. cbn [current_time previous segments] in *.
  specialize (Hempty Ha Hd).
  destruct (visits_of day) as [|n rest] eqn:Hv.
  - cbn [visit_loop] in Hempty. now rewrite Hs, (Hempty eq_refl).
  - assert (Hk : exists info, LOCATION_MAP_get n = Some info)
      by (apply (visits_of_known day); rewrite Hv; now left).
    destruct Hk as [info Hg]. cbn [visit_loop] in *.
    destruct (visit_body_stops e n info (Build_sched s HOTEL_NAME []) Hg)
      as [[Hbr Hlt]|(st' & Hn & Hfit & Hst)];
      cbn [current_time previous segments] in *.
    + rewrite Hbr in *. destruct (Z.ltb_spec e
        (s + estimate_travel_minutes HOTEL_NAME n)); [|lia].
      now rewrite Hs, (Hempty eq_refl).
    + rewrite Hn in *. destruct (Z.ltb_spec e
        (s + estimate_travel_minutes HOTEL_NAME n)); [lia|].
      assert (Hrest : forall x, In x rest ->
                        exists info, LOCATION_MAP_get x = Some info).
      { intros x Hx. apply (visits_of_known day). rewrite Hv. now right. }
      destruct (visit_loop_stops e rest Hrest st')
        as (sub & rest' & _ & H2).
      exists segs, sub. split; [exact Hs|].
      rewrite E, H2, Hst. reflexivity.
Qed.

Lemma ordinary_day_without_a_first_visit_witness :
  build_day_schedule (plain_day 1 "mayfair" [] []) = Ok [].
Proof.
  apply (ordinary_day_without_a_first_visit
           (plain_day 1 "mayfair" [] []) 570 1320);
    [reflexivity|discriminate|discriminate].
Defined.

(** ** When a day can be scheduled *)

Lemma bounds_loop_parsed (items : list TimelineItem) :
  forall a b r,
    bounds_loop items a b = Ok r ->
    forall item, In item items ->
      exists s e, parse_time_range (time item) = Ok (s, e).
Proof.
  induction items as [|it rest IH]; intros a b r H item Hin;
    [destruct Hin|].
  cbn [bounds_loop] in H.
  destruct (parse_time_range (time it)) as [[s0 e0]|x] eqn:Hp;
    [|discriminate].
  cbn [bind] in H. destruct Hin as [<-|Hin]; [eauto|].
  exact (IH _ _ _ H item Hin).
Qed.

Lemma parse_time_range_token (time_str : string) (a b : Z) :
  parse_time_range time_str = Ok (a, b) -> contains_time_token time_str.
Proof.
  intros H. unfold parse_time_range in H.
  destruct (findall_time _) as [|g more] eqn:Hf; [discriminate|].
  apply normalized_has_match, (findall_has_match _ 0%nat).
  unfold findall_time in Hf. rewrite Hf. discriminate.
Qed.

(** X28.  [build_day_schedule] returns a schedule exactly for the days
    whose timeline entries all contain a time of the shape H[H]hMM, H and M
    being decimal digits of any script; the locations, the theme and the
    other fields of the day never make it fail. *)
Theorem schedule_exists_iff_timeline_parses (day : DaySection) :
  ((forall item, In item (timeline day) -> contains_time_token (time item)) ->
   exists segs, build_day_schedule day = Ok segs)
  /\ (forall segs, build_day_schedule day = Ok segs ->
      forall item, In item (timeline day) -> contains_time_token (time item)).
Proof.
  split.
  - intros Hall.
    assert (Hb : exists s e, get_day_time_bounds day = Ok (s, e)).
    { unfold get_day_time_bounds.
      destruct (timeline day) as [|it rest] eqn:E.
      - cbn [bounds_loop bind].
        destruct (match dict_get presets (theme day) with
                  | Some b => b
                  | None => _
                  end) as [s e].
        eauto.
      - destruct (bounds_loop_ok (it :: rest)) with (a := @None Z)
          (b := @None Z) as (s & e & ->); [|discriminate|cbn; eauto].
        intros item Hin.
        destruct (parse_time_range_accepts _ (Hall item Hin))
          as (a & b & ->).
        reflexivity. }
    destruct Hb as (s & e & Hb).
    destruct (build_day_schedule_spec day s e Hb) as (segs & _ & Hs & _).
    now exists segs.
  - intros segs Hs item Hin.
    destruct (get_day_time_bounds day) as [[s e]|x] eqn:Hb.
    + unfold get_day_time_bounds in Hb.
      destruct (bounds_loop (timeline day) None None) as [r|x] eqn:Hl;
        [|discriminate].
      destruct (bounds_loop_parsed _ _ _ _ Hl item Hin) as (a & b & Hp).
      exact (parse_time_range_token _ _ _ Hp).
    + rewrite (build_day_schedule_raises day x Hb) in Hs. discriminate.
Qed.

Lemma schedule_exists_iff_timeline_parses_witness :
  (exists segs, build_day_schedule city_morning = Ok segs)
  /\ contains_time_token "10h00-12h00"
  /\ (exists segs, build_day_schedule arabic_indic_day = Ok segs).
Proof.
  assert (Harabic : exists segs, build_day_schedule arabic_indic_day = Ok segs).
  { apply (proj1 (schedule_exists_iff_timeline_parses arabic_indic_day)).
    intros item [<-|[]]. exists EmptyString, arabic_indic_12h30, EmptyString.
    split; [reflexivity|]. exact arabic_indic_token. }
  cut ((exists segs, build_day_schedule city_morning = Ok segs)
       /\ contains_time_token "10h00-12h00"); [tauto|].
  destruct (schedule_exists_iff_timeline_parses city_morning) as [H1 H2].
  assert (Hall : forall item, In item (timeline city_morning) ->
                   contains_time_token (time item)).
  { intros item [<-|[]]. exists EmptyString, "10h00", "-12h00".
    split; [reflexivity|]. now apply ascii_token_HH. }
  destruct (H1 Hall) as [segs Hs]. split; [now exists segs|].
  apply (H2 segs Hs (Build_TimelineItem "10h00-12h00" "" "")).
  now left.
Defined.

(** ** The places of the visit order *)

Lemma preferred_loop_keeps (preferred poi : list string) :
  forall vo n, In n vo -> In n (preferred_loop preferred poi vo).
Proof.
  induction preferred as [|p rest IH]; intros vo n H; [exact H|].
  cbn [preferred_loop]. destruct (mem p poi && negb (mem p vo));
    apply IH; [apply in_or_app; now left|exact H].
Qed.

Lemma remainder_loop_all (poi : list string) :
  forall vo n, In n vo \/ In n poi -> In n (remainder_loop poi vo).
Proof.
  induction poi as [|p rest IH]; intros vo n H; cbn [remainder_loop].
  - destruct H as [H|[]]. exact H.
  - destruct (negb (mem p vo)) eqn:E; apply IH.
    + destruct H as [H|[<-|H]]; [left|left|now right];
        apply in_or_app; [now left|right; now left].
    + destruct H as [H|[<-|H]]; [now left| |now right].
      left. apply negb_false_iff in E. now apply mem_In.
Qed.

Lemma make_visits_order_all (day_theme : string) (poi : list string)
      (n : string) :
  In n (make_visits_order day_theme poi) <->
  In n poi \/ (day_theme = "city" /\ n = "Oblix at The Shard").
Proof.
  unfold make_visits_order.
  set (pref := match dict_get PREFERRED_ORDER day_theme with
               | Some l => l
               | None => []
               end).
  set (vo := remainder_loop poi (preferred_loop pref poi [])).
  assert (Hvo : forall x, In x vo <-> In x poi).
  { intros x. split.
    - intros H. apply remainder_loop_In in H as [H|H]; [|exact H].
      apply preferred_loop_In in H as [[]|H]. exact H.
    - intros H. apply remainder_loop_all. now right. }
  destruct (String.eqb_spec day_theme "city") as [Hc|Hc]; cbn [andb].
  - destruct (mem "Oblix at The Shard" vo) eqn:Hm; cbn [negb].
    + rewrite Hvo. split; [tauto|]. intros [H|[_ ->]]; [exact H|].
      now apply Hvo, mem_In.
    + rewrite in_app_iff, Hvo. cbn [In]. split.
      * intros [H|[<-|[]]]; tauto.
      * intros [H|[_ ->]]; tauto.
  - rewrite Hvo. tauto.
Qed.

Lemma poi_loop_all (locs : list string) (n : string) :
  In n (poi_loop locs []) <->
  In n locs
  /\ exists info, LOCATION_MAP_get n = Some info
                  /\ mem (category info) ["transport"; "hotel"] = false.
Proof.
  split.
  - intros H. apply poi_loop_In in H as [[]|H]. exact H.
  - intros (Hin & info & Hg & Hc).
    apply (poi_loop_keeps n info locs Hg Hc). now right.
Qed.

(** X29.  The places that [build_day_schedule] tries to visit are the
    locations of the day that are in the catalog and are neither transport
    nor hotel, without The Shard when the day also lists Oblix at The Shard;
    on a day of theme "city" Oblix at The Shard is added even when the day
    does not list it. *)
Theorem visit_order_places (day : DaySection) (n : string) :
  In n (visits_of day) <->
  (In n (locations day)
   /\ (exists info, LOCATION_MAP_get n = Some info
                    /\ mem (category info) ["transport"; "hotel"] = false)
   /\ ~ (n = "The Shard" /\ In "Oblix at The Shard" (locations day)))
  \/ (theme day = "city" /\ n = "Oblix at The Shard").
Proof.
  unfold visits_of. rewrite make_visits_order_all.
  assert (Hob : In "Oblix at The Shard" (poi_loop (locations day) []) <->
                In "Oblix at The Shard" (locations day)).
  { rewrite poi_loop_all. split; [tauto|]. intros H. split; [exact H|].
    assert (E : option_map category (LOCATION_MAP_get "Oblix at The Shard")
                = Some "food") by reflexivity.
    destruct (LOCATION_MAP_get "Oblix at The Shard") as [info|];
      [|discriminate].
    exists info. split; [reflexivity|]. cbn in E. injection E as ->.
    reflexivity. }
  assert (Hpoi : In n (drop_shard (poi_loop (locations day) [])) <->
                 In n (poi_loop (locations day) [])
                 /\ ~ (n = "The Shard"
                       /\ In "Oblix at The Shard" (locations day))).
  { unfold drop_shard.
    destruct (mem "Oblix at The Shard" (poi_loop (locations day) []))
      eqn:Ho; cbn [andb].
    - apply mem_In, Hob in Ho.
      destruct (mem "The Shard" (poi_loop (locations day) [])) eqn:Hs.
      + rewrite without_In. tauto.
      + split; [|tauto]. intros H. split; [exact H|]. intros [-> _].
        apply mem_In in H. congruence.
    - split; [|tauto]. intros H. split; [exact H|]. intros [_ Hin].
      apply Hob, mem_In in Hin. congruence. }
  rewrite Hpoi, poi_loop_all. tauto.
Qed.

(** ** The order of the visits *)

Lemma fromkeys_ext (xs : list string) :
  forall s1 s2,
    (forall x, mem x s1 = mem x s2) -> fromkeys s1 xs = fromkeys s2 xs.
Proof.
  induction xs as [|x xs IH]; intros s1 s2 H; [reflexivity|].
  cbn [fromkeys]. rewrite (H x). destruct (mem x s2); [now apply IH|].
  f_equal. apply IH. intros y. cbn [mem]. now rewrite H.
Qed.

Lemma mem_app (x : string) (a b : list string) :
  mem x (a ++ b) = mem x a || mem x b.
Proof.
  induction a as [|y a IH]; [reflexivity|]. cbn. rewrite IH.
  now rewrite orb_assoc.
Qed.

Lemma fromkeys_filter (xs : list string) :
  forall s t,
    fromkeys (s ++ t) xs
    = filter (fun x => negb (mem x s)) (fromkeys t xs).
Proof.
  induction xs as [|x xs IH]; intros s t; [reflexivity|].
  cbn [fromkeys]. rewrite mem_app.
  destruct (mem x t) eqn:Ht; [rewrite orb_true_r; apply IH|].
  rewrite orb_false_r. cbn [filter].
  destruct (mem x s) eqn:Hs; cbn [negb].
  - rewrite <- (IH s (x :: t)). apply fromkeys_ext. intros y.
    rewrite !mem_app. cbn [mem].
    destruct (String.eqb_spec y x) as [->|_]; [|reflexivity].
    now rewrite Hs.
  - f_equal. rewrite <- (IH s (x :: t)). apply fromkeys_ext. intros y.
    cbn [mem]. rewrite !mem_app. cbn [mem].
    destruct (y =? x)%string; cbn [orb]; [now rewrite orb_true_r|reflexivity].
Qed.

Lemma preferred_loop_closed (preferred poi : list string) :
  forall vo,
    preferred_loop preferred poi vo
    = (vo ++ filter (fun n => mem n poi) (fromkeys vo preferred))%list.
Proof.
  induction preferred as [|n rest IH]; intros vo;
    [cbn; now rewrite app_nil_r|].
  cbn [preferred_loop fromkeys].
  destruct (mem n vo) eqn:Hvo; [rewrite andb_false_r; apply IH|].
  rewrite andb_true_r. cbn [filter].
  assert (Hext : fromkeys (vo ++ [n]) rest = fromkeys (n :: vo) rest).
  { apply fromkeys_ext. intros y. rewrite mem_app. cbn [mem].
    rewrite orb_false_r. apply orb_comm. }
  destruct (mem n poi) eqn:Hp.
  - rewrite IH, Hext, <- app_assoc. reflexivity.
  - rewrite IH. f_equal.
    change (n :: vo) with ([n] ++ vo)%list. rewrite fromkeys_filter.
    clear IH Hext. induction (fromkeys vo rest) as [|y l IHl];
      [reflexivity|].
    cbn [filter mem]. rewrite orb_false_r.
    destruct (String.eqb_spec y n) as [->|_]; cbn [negb].
    + rewrite Hp. exact IHl.
    + cbn [filter]. destruct (mem y poi); [f_equal|]; exact IHl.
Qed.

Lemma remainder_loop_closed (poi : list string) :
  forall vo, remainder_loop poi vo = (vo ++ fromkeys vo poi)%list.
Proof.
  induction poi as [|n rest IH]; intros vo; [cbn; now rewrite app_nil_r|].
  cbn [remainder_loop fromkeys].
  destruct (mem n vo) eqn:Hvo; cbn [negb]; [apply IH|].
  rewrite IH, <- app_assoc. cbn [app]. do 2 f_equal.
  apply fromkeys_ext. intros y. rewrite mem_app. cbn [mem].
  rewrite orb_false_r. apply orb_comm.
Qed.

Lemma fromkeys_incl (xs seen : list string) (x : string) :
  In x (fromkeys seen xs) -> In x xs.
Proof. intros H. now apply fromkeys_In in H. Qed.

(** X30.  The visit order of a day is made of the places of the preferred
    list of the theme that the day has, in the order of that list, then of
    the other places of the day in their own order, each place once, and on
    a city day of Oblix at The Shard when the day does not have it. *)
Theorem visit_order_prefers_the_theme (day_theme : string)
        (poi : list string) :
  let preferred := match dict_get PREFERRED_ORDER day_theme with
                   | Some l => l
                   | None => []
                   end in
  make_visits_order day_theme poi
  = (filter (fun n => mem n poi) (fromkeys [] preferred)
     ++ filter (fun n => negb (mem n preferred)) (fromkeys [] poi)
     ++ (if (day_theme =? "city")%string
            && negb (mem "Oblix at The Shard" poi)
         then ["Oblix at The Shard"] else []))%list.
Proof.
  intros preferred. unfold make_visits_order. fold preferred.
  rewrite preferred_loop_closed, remainder_loop_closed. cbn [app].
  set (vo := filter (fun n => mem n poi) (fromkeys [] preferred)).
  assert (Hrest : fromkeys vo poi
                  = filter (fun n => negb (mem n preferred)) (fromkeys [] poi)).
  { rewrite <- (app_nil_r vo), fromkeys_filter. apply filter_ext_in.
    intros x Hx. apply fromkeys_incl in Hx. f_equal.
    destruct (mem x preferred) eqn:Hp.
    - apply mem_In. subst vo. apply filter_In. split; [|now apply mem_In].
      apply fromkeys_In. split; [now apply mem_In|intros []].
    - destruct (mem x vo) eqn:Hv; [|reflexivity].
      apply mem_In in Hv. subst vo. apply filter_In in Hv as [Hv _].
      apply fromkeys_incl, mem_In in Hv. congruence. }
  rewrite Hrest.
  set (rest := filter (fun n => negb (mem n preferred)) (fromkeys [] poi)).
  assert (Hob : mem "Oblix at The Shard" (vo ++ rest)
                = mem "Oblix at The Shard" poi).
  { destruct (mem "Oblix at The Shard" poi) eqn:Hp.
    - apply mem_In. apply mem_In in Hp. apply in_or_app.
      destruct (mem "Oblix at The Shard" preferred) eqn:Hpr.
      + left. subst vo. apply filter_In. split; [|now apply mem_In].
        apply fromkeys_In. split; [now apply mem_In|intros []].
      + right. subst rest. apply filter_In. split; [|now rewrite Hpr].
        apply fromkeys_In. split; [exact Hp|intros []].
    - destruct (mem "Oblix at The Shard" (vo ++ rest)) eqn:Hm;
        [|reflexivity].
      apply mem_In, in_app_or in Hm as [Hm|Hm].
      + subst vo. apply filter_In in Hm as [_ Hm]. congruence.
      + subst rest. apply filter_In in Hm as [Hm _].
        apply fromkeys_incl, mem_In in Hm. congruence. }
  rewrite Hob.
  destruct ((day_theme =? "city")%string
            && negb (mem "Oblix at The Shard" poi));
    [now rewrite <- app_assoc|now rewrite app_nil_r].
Qed.
